(** * Interval total return of A-share equities: a shallow embedding

    The development follows the layout of the repository:
    - [Py]         the fragment of the Python runtime the code relies on
                   (text as code points, binary64 floats, exceptions, [re],
                   [datetime.strptime]);
    - [AkClient]   [src/totalreturn/ak_client.py];
    - [AkTables]   the dividend and bonus tables of [src/totalreturn/ak_client.py];
    - [Calculator] [src/totalreturn/calculator.py];
    - [Cli]        [src/totalreturn/cli.py];
    - [GuiApp]     [src/gui_app.py];
    - [WebApp]     [src/web_app.py];
    - [GuiInput]   the codes of the input field of [src/gui_app.py];
    - [Compare]    [_compare_gui_cli.py];
    followed by the properties of the specification and by further
    properties of the code. *)

From stdpp Require Import base option list sorting strings gmap.
From Stdlib Require Import ZArith Ascii Floats Uint63 Lia Bool.

Local Open Scope Z_scope.
Set Warnings "-inexact-float".

(* ===================================================================== *)
(** * The Python runtime                                                  *)
(* ===================================================================== *)

Module Py.

(** ** Text

    A Python [str] is a sequence of code points.  Literals of the source are
    written as Rocq strings (UTF-8 bytes) and decoded by [utf8]. *)

Abbreviation pystr := (list Z).

Definition byte_of (a : ascii) : Z := Z.of_N (N_of_ascii a).

Fixpoint bytes_of (s : string) : list Z :=
  match s with
  | EmptyString => []
  | String a s' => byte_of a :: bytes_of s'
  end.

Definition cont (b : Z) : Z := Z.land b 63.

Fixpoint utf8_decode (bs : list Z) : pystr :=
  match bs with
  | [] => []
  | b :: r0 =>
    if b <? 128 then b :: utf8_decode r0
    else match r0 with
    | [] => [b]
    | b1 :: r1 =>
      if b <? 224 then (Z.shiftl (Z.land b 31) 6 + cont b1) :: utf8_decode r1
      else match r1 with
      | [] => [b]
      | b2 :: r2 =>
        if b <? 240
        then (Z.shiftl (Z.land b 15) 12 + Z.shiftl (cont b1) 6 + cont b2)
               :: utf8_decode r2
        else match r2 with
        | [] => [b]
        | b3 :: r3 =>
          (Z.shiftl (Z.land b 7) 18 + Z.shiftl (cont b1) 12
             + Z.shiftl (cont b2) 6 + cont b3) :: utf8_decode r3
        end
      end
    end
  end.

Definition utf8 (s : string) : pystr := utf8_decode (bytes_of s).

(** [a < b], [a <= b], [a == b] on [str]: lexicographic on code points. *)
Fixpoint str_compare (a b : pystr) : comparison :=
  match a, b with
  | [], [] => Eq
  | [], _ :: _ => Lt
  | _ :: _, [] => Gt
  | x :: a', y :: b' =>
    match x ?= y with
    | Eq => str_compare a' b'
    | c => c
    end
  end.

Definition str_ltb (a b : pystr) : bool :=
  match str_compare a b with Lt => true | _ => false end.
Definition str_leb (a b : pystr) : bool :=
  match str_compare a b with Gt => false | _ => true end.
Definition str_eqb (a b : pystr) : bool :=
  match str_compare a b with Eq => true | _ => false end.

(** [s.startswith(p)] *)
Fixpoint startswith (p s : pystr) : bool :=
  match p, s with
  | [], _ => true
  | _ :: _, [] => false
  | x :: p', y :: s' => (x =? y) && startswith p' s'
  end.

(** [p in s] *)
Fixpoint contains (p s : pystr) : bool :=
  startswith p s ||
  match s with
  | [] => false
  | _ :: s' => contains p s'
  end.

(** [s.replace(old, new)] where [old] is a single character (every call of
    the source has this shape). *)
Definition replace (old : Z) (new s : pystr) : pystr :=
  flat_map (fun c => if c =? old then new else [c]) s.

(** ** Exceptions *)

Inductive outcome (A : Type) : Type :=
  | Ok (a : A)
  | Raise (msg : pystr).
Arguments Ok {A} a.
Arguments Raise {A} msg.

#[global] Instance outcome_ret : MRet outcome := fun A a => Ok a.
#[global] Instance outcome_bind : MBind outcome := fun A B f x =>
  match x with
  | Ok a => f a
  | Raise m => Raise m
  end.

(** ** Numbers

    A Python [float] is an IEEE binary64 value: the kernel's primitive
    floats.  [x ** y] may also produce a [complex]. *)

Inductive pynum : Type :=
  | NFloat (f : float)
  | NComplex (re im : float).

(** The ten decimal digits, as [Py_UNICODE_TODECIMAL] yields them. *)
Inductive digit : Type := D0 | D1 | D2 | D3 | D4 | D5 | D6 | D7 | D8 | D9.

Definition digit_val (d : digit) : Z :=
  match d with
  | D0 => 0 | D1 => 1 | D2 => 2 | D3 => 3 | D4 => 4
  | D5 => 5 | D6 => 6 | D7 => 7 | D8 => 8 | D9 => 9
  end.

(** The values an output row holds. *)
Inductive pyval : Type :=
  | VNone
  | VStr (s : pystr)
  | VInt (n : Z)
  | VFloat (f : float)
  | VComplex (re im : float).

(** An output row: a [dict] from field names to values. *)
Abbreviation row := (gmap string pyval).

(** [r.get(k)]: a missing key reads as [None]. *)
Definition get (r : row) (k : string) : pyval := default VNone (r !! k).

(** What the interpreter supplies beyond the code points whose behaviour is
    written out below: the Unicode database outside ASCII and the CJK
    ideographs, and libm's [pow]. *)
Class Runtime : Type := {
  (** decimal value of a non-ASCII, non-ideograph code point (category Nd) *)
  unicode_decimal : Z -> option digit;
  (** [str.isdigit] of such a code point *)
  unicode_isdigit : Z -> bool;
  (** [str.isspace] of such a code point *)
  unicode_isspace : Z -> bool;
  (** [str.lower] of a text that has such code points *)
  unicode_lower : pystr -> pystr;
  (** [float.__pow__]; [None] when it raises (overflow, zero to a negative
      power) *)
  float_pow : float -> float -> option pynum;
  (** [float(s)] for a text that is not a plain run of digits and dots *)
  float_of_text : pystr -> option float;
  (** [pd.DataFrame(rows)], its two percent columns and [to_csv]: the text
      written, or the exception pandas raises *)
  rows_to_csv : list row -> outcome pystr
}.

Definition is_ascii (c : Z) : bool := (0 <=? c) && (c <? 128).
(** CJK unified ideographs, U+4E00..U+9FFF: letters without case, none of
    them a decimal digit or white space. *)
Definition is_cjk (c : Z) : bool := (19968 <=? c) && (c <=? 40959).

Definition ascii_decimal (c : Z) : option digit :=
  if c =? 48 then Some D0 else if c =? 49 then Some D1
  else if c =? 50 then Some D2 else if c =? 51 then Some D3
  else if c =? 52 then Some D4 else if c =? 53 then Some D5
  else if c =? 54 then Some D6 else if c =? 55 then Some D7
  else if c =? 56 then Some D8 else if c =? 57 then Some D9
  else None.

Section WithRuntime.
Context `{RT : Runtime}.

Definition to_decimal (c : Z) : option digit :=
  if is_ascii c then ascii_decimal c
  else if is_cjk c then None
  else unicode_decimal c.

Definition is_decimal (c : Z) : bool :=
  match to_decimal c with Some _ => true | None => false end.

Definition char_isdigit (c : Z) : bool :=
  if is_ascii c then is_decimal c
  else if is_cjk c then false
  else unicode_isdigit c.

(** [s.isdigit()] *)
Definition isdigit (s : pystr) : bool :=
  match s with
  | [] => false
  | _ => forallb char_isdigit s
  end.

Definition ascii_isspace (c : Z) : bool :=
  ((9 <=? c) && (c <=? 13)) || ((28 <=? c) && (c <=? 32)).

Definition isspace (c : Z) : bool :=
  if is_ascii c then ascii_isspace c
  else if is_cjk c then false
  else unicode_isspace c.

Fixpoint lstrip (s : pystr) : pystr :=
  match s with
  | [] => []
  | c :: s' => if isspace c then lstrip s' else s
  end.

(** [s.strip()] *)
Definition strip (s : pystr) : pystr := rev (lstrip (rev (lstrip s))).

Definition ascii_lower (c : Z) : Z :=
  if (65 <=? c) && (c <=? 90) then c + 32 else c.

(** [s.lower()] *)
Definition lower (s : pystr) : pystr :=
  if forallb (fun c => is_ascii c || is_cjk c) s
  then map ascii_lower s
  else unicode_lower s.

End WithRuntime.

(** [s.zfill(6)] for a text without a leading sign. *)
Definition zfill6 (s : pystr) : pystr :=
  repeat 48 (6 - length s)%nat ++ s.

Definition has_sign (s : pystr) : bool :=
  match s with
  | c :: _ => (c =? 43) || (c =? 45)
  | [] => false
  end.

(** [s.zfill(6)]: the padding goes after a leading ['+'] or ['-']. *)
Definition zfill (s : pystr) : pystr :=
  match s with
  | c :: s' =>
    if has_sign s then c :: repeat 48 (6 - length s)%nat ++ s' else zfill6 s
  | [] => zfill6 s
  end.

(** ** Conversions to [float] *)

Definition Z2SF (n : Z) : spec_float :=
  match n with
  | Z0 => S754_zero false
  | Zpos p => S754_finite false p 0
  | Zneg p => S754_finite true p 0
  end.

(** The binary64 value nearest to [n / d] (ties to even), [d > 0]. *)
Definition float_of_ratio (n d : Z) : float :=
  SF2Prim (SFdiv prec emax (Z2SF n) (Z2SF d)).

(** [float(n)] of an [int]. *)
Definition float_of_int (n : Z) : float :=
  SF2Prim (binary_normalize prec emax n 0 false).

Definition DOT : Z := 46.

Section WithRuntime.
Context `{RT : Runtime}.

(** The value of a run of decimal digits, most significant first; [None] if
    a character is not a decimal digit. *)
Fixpoint digits_value (acc : Z) (s : pystr) : option Z :=
  match s with
  | [] => Some acc
  | c :: s' =>
    match to_decimal c with
    | Some d => digits_value (10 * acc + digit_val d) s'
    | None => None
    end
  end.

(** Splits at the first ['.']: the digits before it, and what follows it. *)
Fixpoint split_dot (s : pystr) : pystr * option pystr :=
  match s with
  | [] => ([], None)
  | c :: s' =>
    if c =? DOT then ([], Some s')
    else let '(a, b) := split_dot s' in (c :: a, b)
  end.

(** [float(s)] for a text made of decimal digits and dots, as a capture of
    [[\d\.]+] is: digits with at most one dot and at least one digit,
    rounded correctly; anything else is a [ValueError] ([None]). *)
Definition float_of_digits (s : pystr) : option float :=
  let '(ip, rest) := split_dot s in
  let fp := default [] rest in
  match ip, fp with
  | [], [] => None
  | _, _ =>
    match digits_value 0 (ip ++ fp) with
    | Some n => Some (float_of_ratio n (10 ^ Z.of_nat (length fp)))
    | None => None
    end
  end.

(** [float(s)] of a [str]. *)
Definition float_of_str (s : pystr) : option float :=
  if forallb (fun c => is_decimal c || (c =? DOT)) s
  then float_of_digits s
  else float_of_text s.

(** ** Regular expressions

    The fragment of [re] the source uses: literals, character classes,
    sequence, ordered alternation, the greedy [?] of a group, the greedy
    [+] and [*] of a class, and capturing groups.  Matching is the
    backtracking search of [re]: leftmost start, alternatives in order,
    greedy repetitions giving back one character at a time. *)

Inductive cclass : Type :=
  | CDigit                (* \d *)
  | CDigitDot             (* [\d\.] *)
  | CRange (lo hi : Z).   (* [lo-hi] *)

Inductive regex : Type :=
  | Eps
  | Chr (c : Z)
  | Cls (k : cclass)
  | Seq (a b : regex)
  | Alt (a b : regex)
  | Opt (a : regex)
  | Rep (k : cclass) (least : nat)
  | Grp (a : regex).

(** A literal text. *)
Fixpoint lit (s : pystr) : regex :=
  match s with
  | [] => Eps
  | c :: s' => Seq (Chr c) (lit s')
  end.

(** Concatenation of a list of expressions. *)
Definition cat (l : list regex) : regex := foldr Seq Eps l.

Definition in_class (k : cclass) (c : Z) : bool :=
  match k with
  | CDigit => is_decimal c
  | CDigitDot => is_decimal c || (c =? DOT)
  | CRange lo hi => (lo <=? c) && (c <=? hi)
  end.

(** The result of a match: the captured groups, in the order they were
    closed, and the unread rest of the text. *)
Definition mresult : Type := list pystr * pystr.
Definition mcont : Type := pystr -> list pystr -> option mresult.

(** Greedy [k{least,}] at [s]: the longest run first. *)
Fixpoint rep_greedy (k : cclass) (least : nat) (s : pystr)
    (kont : pystr -> option mresult) : option mresult :=
  let stop := match least with O => kont s | S _ => None end in
  match s with
  | c :: s' =>
    if in_class k c
    then match rep_greedy k (Nat.pred least) s' kont with
         | Some r => Some r
         | None => stop
         end
    else stop
  | [] => stop
  end.

(** The text read between [s] and its suffix [s']. *)
Definition consumed (s s' : pystr) : pystr :=
  take (length s - length s') s.

Fixpoint rmatch (r : regex) (s : pystr) (caps : list pystr) (kont : mcont)
    : option mresult :=
  match r with
  | Eps => kont s caps
  | Chr c =>
    match s with
    | x :: s' => if x =? c then kont s' caps else None
    | [] => None
    end
  | Cls k =>
    match s with
    | x :: s' => if in_class k x then kont s' caps else None
    | [] => None
    end
  | Seq a b => rmatch a s caps (fun s' caps' => rmatch b s' caps' kont)
  | Alt a b =>
    match rmatch a s caps kont with
    | Some res => Some res
    | None => rmatch b s caps kont
    end
  | Opt a =>
    match rmatch a s caps kont with
    | Some res => Some res
    | None => kont s caps
    end
  | Rep k least => rep_greedy k least s (fun s' => kont s' caps)
  | Grp a => rmatch a s caps (fun s' caps' => kont s' (caps' ++ [consumed s s']))
  end.

(** [re.match(r, s)]: a match starting at the first character. *)
Definition re_match (r : regex) (s : pystr) : option mresult :=
  rmatch r s [] (fun s' caps => Some (caps, s')).

(** [re.search(r, s)]: the match at the leftmost position that has one. *)
Fixpoint re_search (r : regex) (s : pystr) : option mresult :=
  match re_match r s with
  | Some res => Some res
  | None =>
    match s with
    | [] => None
    | _ :: s' => re_search r s'
    end
  end.

(** [m.group(1)] *)
Definition group1 (m : mresult) : pystr := default [] (head (fst m)).

(** ** [datetime.strptime(s, "%Y-%m-%d")] and [date.toordinal] *)

Definition re_Y : regex := Grp (cat [Cls CDigit; Cls CDigit; Cls CDigit; Cls CDigit]).
Definition re_m : regex :=
  Grp (Alt (Seq (Chr 49) (Cls (CRange 48 50)))
      (Alt (Seq (Chr 48) (Cls (CRange 49 57)))
           (Cls (CRange 49 57)))).
Definition re_d : regex :=
  Grp (Alt (Seq (Chr 51) (Cls (CRange 48 49)))
      (Alt (Seq (Cls (CRange 49 50)) (Cls CDigit))
      (Alt (Seq (Chr 48) (Cls (CRange 49 57)))
      (Alt (Cls (CRange 49 57))
           (Seq (Chr 32) (Cls (CRange 49 57))))))).
Definition re_ymd : regex := cat [re_Y; Chr 45; re_m; Chr 45; re_d].

(** [int(s)] of a captured field (a leading blank is skipped). *)
Definition int_of_field (s : pystr) : option Z :=
  match s with
  | 32 :: s' => digits_value 0 s'
  | _ => digits_value 0 s
  end.

Definition is_leap (y : Z) : bool :=
  (y mod 4 =? 0) && (negb (y mod 100 =? 0) || (y mod 400 =? 0)).

Definition days_in_month (y m : Z) : Z :=
  if m =? 2 then (if is_leap y then 29 else 28)
  else if (m =? 4) || (m =? 6) || (m =? 9) || (m =? 11) then 30
  else 31.

Definition days_before_year (y : Z) : Z :=
  let y1 := y - 1 in y1 * 365 + y1 / 4 - y1 / 100 + y1 / 400.

Fixpoint days_before_month_from (y : Z) (m : nat) : Z :=
  match m with
  | O => 0
  | S m' => days_before_month_from y m' + days_in_month y (Z.of_nat m)
  end.

(** Days of the year [y] that precede the first day of month [m]. *)
Definition days_before_month (y m : Z) : Z :=
  days_before_month_from y (Z.to_nat (m - 1)).

(** [date(y, m, d).toordinal()] *)
Definition toordinal (y m d : Z) : Z :=
  days_before_year y + days_before_month y m + d.

Definition valid_date (y m d : Z) : bool :=
  (1 <=? y) && (y <=? 9999) && (1 <=? m) && (m <=? 12)
  && (1 <=? d) && (d <=? days_in_month y m).

(** The ordinal of [datetime.strptime(s, "%Y-%m-%d")]; [None] when it raises
    [ValueError] (no match, unconverted data, or no such day). *)
Definition strptime_ordinal (s : pystr) : option Z :=
  match re_match re_ymd s with
  | Some ([ys; ms; ds], []) =>
    match int_of_field ys, int_of_field ms, int_of_field ds with
    | Some y, Some m, Some d =>
      if valid_date y m d then Some (toordinal y m d) else None
    | _, _, _ => None
    end
  | _ => None
  end.

End WithRuntime.

End Py.

Import Py.

(* ===================================================================== *)
(** * [totalreturn/ak_client.py]                                          *)
(* ===================================================================== *)

Module AkClient.

(** ** The data provider

    The tables of the provider are taken after pandas has read their cells:
    a date cell as [pd.to_datetime] sees it, a close cell as
    [pd.to_numeric(..., errors="coerce")] sees it, the date and close
    columns already chosen. *)

Inductive date_cell : Type :=
  | DateOk (d : pystr)   (* a timestamp, shown by strftime("%Y-%m-%d") *)
  | DateNaT              (* a missing value *)
  | DateBad (msg : pystr).
                         (* unreadable: NaT under errors="coerce", otherwise
                            an exception of pandas, with this message *)

Record hist_row : Type := {
  h_date : date_cell;
  h_close : option float   (* [None]: not a number (NaN after coercion) *)
}.

Record DividendEvent : Type := {
  ex_date : pystr;          (* YYYY-MM-DD *)
  cash_per_share : float    (* yuan per share, pre-tax *)
}.

(** The responses of the provider, fixed for one run, and the calendar
    date of the run. *)
Class Provider : Type := {
  (** [datetime.today().strftime("%Y-%m-%d")] *)
  today_str : pystr;
  (** [ak.stock_zh_a_hist(symbol, "daily", start, end, adjust="")]:
      an exception, [None], or a frame (empty when it has no row) *)
  stock_zh_a_hist : pystr -> pystr -> pystr -> outcome (option (list hist_row));
  (** the events [get_dividends(code)] builds from the dividend tables *)
  get_dividends : pystr -> outcome (list DividendEvent);
  (** what [sum_additional_shares_in_interval(code, start, end)] builds from
      the bonus and allotment tables: shares per share, event count, notes *)
  sum_additional_shares_in_interval :
    pystr -> pystr -> pystr -> outcome (float * Z * pystr);
  (** the name the two lookups of [get_stock_name] find for a 6-digit code *)
  lookup_stock_name : pystr -> option pystr;
  (** the (code, name) cells of [ak.stock_info_a_code_name()], and of
      [ak.stock_zh_a_spot_em()]; empty when the call fails *)
  code_name_rows : list (pystr * pystr);
  spot_rows : list (pystr * pystr)
}.

Section WithProvider.
Context `{RT : Runtime} `{PV : Provider}.

Definition truthy (s : option pystr) : bool :=
  match s with
  | Some (_ :: _) => true
  | _ => false
  end.

(** [code[-6:]] *)
Definition last6 (s : pystr) : pystr := drop (length s - 6) s.

Definition _to_exchange_symbol (code : pystr) : outcome pystr :=
  let code := strip code in
  match code with
  | [] => Raise (utf8 "Invalid stock code: ''")
  | _ =>
    let code := if isdigit code then code else last6 code in
    Ok (zfill code)
  end.

(** [sorted({d for d in ...})]: ascending, without repetition. *)
Fixpoint insert_sorted (d : pystr) (l : list pystr) : list pystr :=
  match l with
  | [] => [d]
  | x :: l' =>
    match str_compare d x with
    | Lt => d :: l
    | Eq => l
    | Gt => x :: insert_sorted d l'
    end
  end.

Definition sorted_set (l : list pystr) : list pystr := foldr insert_sorted [] l.

(** [ser.dropna().tolist()] of the coerced, formatted date column. *)
Definition valid_dates (rows : list hist_row) : list pystr :=
  omap (fun r => match h_date r with DateOk d => Some d | _ => None end) rows.

Definition trade_dates_of (rows : list hist_row) : list pystr :=
  sorted_set (valid_dates rows).

Fixpoint pick_start_trade_date_loop (s : pystr) (trade_dates : list pystr) : option pystr :=
  match trade_dates with
  | [] => None
  | d :: rest => if str_leb s d then Some d else pick_start_trade_date_loop s rest
  end.

Definition pick_start_trade_date (start_date : pystr) (trade_dates : list pystr)
    : outcome pystr :=
  match pick_start_trade_date_loop start_date trade_dates with
  | Some d => Ok d
  | None => Raise (utf8 "No trading date found on/after " ++ start_date)
  end.

Fixpoint pick_end_trade_date_loop (e : pystr) (last : option pystr)
    (trade_dates : list pystr) : option pystr :=
  match trade_dates with
  | [] => last
  | d :: rest =>
    if str_leb d e then pick_end_trade_date_loop e (Some d) rest else last
  end.

Definition pick_end_trade_date (end_date : pystr) (trade_dates : list pystr)
    : outcome pystr :=
  match pick_end_trade_date_loop end_date None trade_dates with
  | Some d => Ok d
  | None => Raise (utf8 "No trading date found on/before " ++ end_date)
  end.

Fixpoint get_default_end_trade_date_loop (today : pystr) (prev : option pystr)
    (trade_dates : list pystr) : option pystr :=
  match trade_dates with
  | [] => prev
  | d :: rest =>
    if str_ltb d today
    then get_default_end_trade_date_loop today (Some d) rest
    else prev
  end.

Definition get_default_end_trade_date (trade_dates : list pystr) : outcome pystr :=
  match get_default_end_trade_date_loop today_str None trade_dates with
  | Some d => Ok d
  | None =>
    match last trade_dates with
    | Some d => Ok d
    | None => Raise (utf8 "list index out of range")
    end
  end.

Definition ymd (d : pystr) : pystr := replace 45 [] d.

(** [end_date or datetime.today().strftime(DATE_FMT)] *)
Definition end_or_today (end_date : option pystr) : pystr :=
  if truthy end_date then default [] end_date else today_str.

Definition get_hist_unadjusted_range (code start_date : pystr)
    (end_date : option pystr) : outcome (option (list hist_row)) :=
  symbol ← _to_exchange_symbol code;
  stock_zh_a_hist symbol (ymd start_date) (ymd (end_or_today end_date)).

Definition fallback_symbols : list pystr :=
  [utf8 "600000"; utf8 "000001"; utf8 "601318"; utf8 "000002"].

(** The loop over the reference stocks: the dates of the first one whose
    frame has a readable date; a failing call is skipped. *)
Fixpoint fallback_dates (syms : list pystr) (start_date : pystr)
    (end_date : option pystr) : list pystr :=
  match syms with
  | [] => []
  | sym :: rest =>
    match stock_zh_a_hist sym (ymd start_date) (ymd (end_or_today end_date)) with
    | Ok (Some (r :: rows)) =>
      match trade_dates_of (r :: rows) with
      | [] => fallback_dates rest start_date end_date
      | dates => dates
      end
    | _ => fallback_dates rest start_date end_date
    end
  end.

Definition window_error (code s e : pystr) : pystr :=
  utf8 "Derived start_trade_date " ++ s ++ utf8 " is after end_trade_date "
    ++ e ++ utf8 " for " ++ code ++ utf8 ".".

(** The branch taken when the stock has no history of its own. *)
Definition derive_from_calendar (code start_date : pystr)
    (end_date : option pystr) (dates : list pystr) : outcome (pystr * pystr) :=
  match dates with
  | [] => Raise (utf8 "Failed to fetch price history for code " ++ code
                   ++ utf8 " to derive trade window.")
  | _ =>
    start_trade_date ← pick_start_trade_date start_date dates;
    end_trade_date ←
      (if truthy end_date
       then pick_end_trade_date (default [] end_date) dates
       else get_default_end_trade_date dates);
    if str_ltb end_trade_date start_trade_date
    then Raise (window_error code start_trade_date end_trade_date)
    else Ok (start_trade_date, end_trade_date)
  end.

(** [end_candidates[-2]] *)
Definition second_to_last (l : list pystr) : option pystr :=
  last (removelast l).

(** The step back to the previous trading day: when no end date was given
    and the latest candidate is today, the candidate before it, if any. *)
Definition previous_if_today (end_date : option pystr)
    (end_candidates : list pystr) (latest : pystr) : pystr :=
  match end_date with
  | None =>
    if str_eqb latest today_str && (2 <=? length end_candidates)%nat
    then default latest (second_to_last end_candidates)
    else latest
  | Some _ => latest
  end.

(** The branch taken on the stock's own trading dates. *)
Definition derive_from_own (code start_date : pystr) (end_date : option pystr)
    (dates : list pystr) : outcome (pystr * pystr) :=
  match dates with
  | [] => Raise (utf8 "No valid trading dates found in price history for "
                   ++ code ++ utf8 ".")
  | _ =>
    let start_candidates := filter (fun d => str_leb start_date d) dates in
    match start_candidates with
    | [] => Raise (utf8 "No trading date on/after start_date " ++ start_date
                     ++ utf8 " for " ++ code ++ utf8 ".")
    | start_trade_date :: _ =>
      let boundary := end_or_today end_date in
      let end_candidates := filter (fun d => str_leb d boundary) dates in
      match last end_candidates with
      | None => Raise (utf8 "No trading date on/before end boundary "
                         ++ boundary ++ utf8 " for " ++ code ++ utf8 ".")
      | Some latest =>
        let end_trade_date := previous_if_today end_date end_candidates latest in
        if str_ltb end_trade_date start_trade_date
        then Raise (window_error code start_trade_date end_trade_date)
        else Ok (start_trade_date, end_trade_date)
      end
    end
  end.

Definition derive_trade_window_from_prices (code start_date : pystr)
    (end_date : option pystr) : outcome (pystr * pystr) :=
  df ← get_hist_unadjusted_range code start_date end_date;
  match df with
  | None | Some [] =>
    derive_from_calendar code start_date end_date
      (fallback_dates fallback_symbols start_date end_date)
  | Some rows => derive_from_own code start_date end_date (trade_dates_of rows)
  end.

(** ** Closing price of one day *)

Definition _get_hist_df_unadjusted (code trade_date : pystr)
    : outcome (option (list hist_row)) :=
  symbol ← _to_exchange_symbol code;
  stock_zh_a_hist symbol (ymd trade_date) (ymd trade_date).

(** [pd.to_datetime(df[date_col]).dt.strftime(DATE_FMT)]: an unreadable cell
    raises. *)
Fixpoint normalized_dates (rows : list hist_row)
    : outcome (list (option pystr * option float)) :=
  match rows with
  | [] => Ok []
  | r :: rest =>
    d ← match h_date r with
        | DateOk d => Ok (Some d)
        | DateNaT => Ok None
        | DateBad msg => Raise msg
        end;
    rest' ← normalized_dates rest;
    Ok ((d, h_close r) :: rest')
  end.

Definition on_date (trade_date : pystr) (r : option pystr * option float) : bool :=
  match fst r with
  | Some d => str_eqb d trade_date
  | None => false
  end.

(** The frame is read through its date column and its close column, which
    the code looks up by name ("日期" or "date", "收盘" or "close") and
    otherwise takes as the first and the third column; the rows of the
    provider hold the cells of these two columns.  A frame of fewer than
    three columns without a close column by name, on which this lookup
    raises [IndexError], is not among the frames of the provider. *)
Definition get_unadjusted_close_on (code trade_date : pystr) : outcome float :=
  df ← _get_hist_df_unadjusted code trade_date;
  match df with
  | None | Some [] =>
    Raise (utf8 "No price data for " ++ code ++ utf8 " on " ++ trade_date)
  | Some rows =>
    cells ← normalized_dates rows;
    match filter (on_date trade_date) cells with
    | [] => Raise (utf8 "Price row not found for " ++ code ++ utf8 " on "
                     ++ trade_date)
    | (_, Some close_val) :: _ => Ok close_val
    | (_, None) :: _ =>
      Raise (utf8 "Invalid close price for " ++ code ++ utf8 " on " ++ trade_date)
    end
  end.

(** ** Cash per share from the text of a dividend plan *)

(** [([\d\.]+)] *)
Definition amount : regex := Grp (Rep CDigitDot 1).

Definition opt_lit (s : string) : regex := Opt (lit (utf8 s)).

(** "每股派(?:发)?(?:现金)?(?:红利)?([\d\.]+)元" *)
Definition pat_per_share : regex :=
  cat [lit (utf8 "每股派"); opt_lit "发"; opt_lit "现金"; opt_lit "红利";
       amount; lit (utf8 "元")].

(** "每股派息(?:现金)?(?:红利)?([\d\.]+)元" *)
Definition pat_per_share_interest : regex :=
  cat [lit (utf8 "每股派息"); opt_lit "现金"; opt_lit "红利";
       amount; lit (utf8 "元")].

(** (?:\.\d+)? *)
Definition opt_fraction : regex := Opt (Seq (Chr DOT) (Rep CDigit 1)).

Definition patterns : list regex := [
  (* "10派([\d\.]+)元" *)
  cat [lit (utf8 "10派"); amount; lit (utf8 "元")];
  (* "每10股派(?:发)?(?:现金)?(?:红利)?([\d\.]+)元" *)
  cat [lit (utf8 "每10股派"); opt_lit "发"; opt_lit "现金"; opt_lit "红利";
       amount; lit (utf8 "元")];
  (* "每10股(?:派发)?(?:现金)?(?:红利)?([\d\.]+)元" *)
  cat [lit (utf8 "每10股"); opt_lit "派发"; opt_lit "现金"; opt_lit "红利";
       amount; lit (utf8 "元")];
  (* "10送\d+(?:\.\d+)?股?转?\d*(?:\.\d+)?股?派([\d\.]+)元" *)
  cat [lit (utf8 "10送"); Rep CDigit 1; opt_fraction; opt_lit "股";
       opt_lit "转"; Rep CDigit 0; opt_fraction; opt_lit "股";
       lit (utf8 "派"); amount; lit (utf8 "元")];
  (* "10派([\d\.]+)元\(含税\)" *)
  cat [lit (utf8 "10派"); amount; lit (utf8 "元(含税)")]
].

(** "派([\d\.]+)元" *)
Definition pat_generic : regex :=
  cat [lit (utf8 "派"); amount; lit (utf8 "元")].

(** The loop over [patterns]: the first one that matches with an amount
    [float] accepts gives that amount over ten. *)
Fixpoint try_patterns (pats : list regex) (text : pystr) : option float :=
  match pats with
  | [] => None
  | pat :: rest =>
    match re_search pat text with
    | Some m =>
      match float_of_str (group1 m) with
      | Some v => Some (v / 10)%float
      | None => try_patterns rest text
      end
    | None => try_patterns rest text
    end
  end.

Definition normalize_plan_text (plan_text : pystr) : pystr :=
  lower (replace 32 [] (replace 65289 [41] (replace 65288 [40] plan_text))).

Definition _parse_cash_per_share_from_text (plan_text : pystr) : float :=
  match plan_text with
  | [] => 0%float
  | _ =>
    let text := normalize_plan_text plan_text in
    let m_ps :=
      match re_search pat_per_share text with
      | Some m => Some m
      | None => re_search pat_per_share_interest text
      end in
    match m_ps ≫= (fun m => float_of_str (group1 m)) with
    | Some v => v
    | None =>
      match try_patterns patterns text with
      | Some v => v
      | None =>
        match re_search pat_generic text with
        | Some m2 =>
          if contains (utf8 "每10股") text || startswith (utf8 "10") text
          then match float_of_str (group1 m2) with
               | Some v => (v / 10)%float
               | None => 0%float
               end
          else 0%float
        | None => 0%float
        end
      end
    end
  end.

(** ** Dividends of an interval *)

(** [start_trade_date < e.ex_date <= end_trade_date] *)
Definition in_interval (start_trade_date end_trade_date d : pystr) : bool :=
  str_ltb start_trade_date d && str_leb d end_trade_date.

Fixpoint sum_cash_dividends_loop (events : list DividendEvent)
    (start_trade_date end_trade_date : pystr) (total : float) (count : Z)
    : float * Z :=
  match events with
  | [] => (total, count)
  | e :: rest =>
    if in_interval start_trade_date end_trade_date (ex_date e)
    then sum_cash_dividends_loop rest start_trade_date end_trade_date
           (total + cash_per_share e)%float (count + 1)
    else sum_cash_dividends_loop rest start_trade_date end_trade_date total count
  end.

Definition sum_cash_dividends_in_interval (events : list DividendEvent)
    (start_trade_date end_trade_date : pystr) : float * Z :=
  sum_cash_dividends_loop events start_trade_date end_trade_date 0%float 0.

End WithProvider.
End AkClient.

Import AkClient.

(* ===================================================================== *)
(** * [totalreturn/ak_client.py]: the dividend and bonus tables           *)
(* ===================================================================== *)

Module AkTables.

(** A cell of a table as the code reads it: as an ex-date ([pd.isna], then
    [pd.to_datetime(...).strftime("%Y-%m-%d")]), as a number
    ([pd.to_numeric(..., errors="coerce")] and [float]: NaN when it is not
    one) and as a text ([str]).  The cells are scalars. *)
Record cell : Type := {
  c_date : date_cell;
  c_number : float;
  c_text : pystr
}.

(** A frame: [df.columns], and the rows of [df.iterrows()], each giving the
    cell of a column. *)
Record frame : Type := {
  columns : list pystr;
  rows : list (pystr -> cell)
}.

(** The tables of the provider and what pandas and the interpreter do with
    floats beyond IEEE arithmetic. *)
Class Tables : Type := {
  (** [ak.stock_history_dividend_detail(symbol, indicator, date="")]: an
      exception, [None], or a frame *)
  stock_history_dividend_detail : pystr -> pystr -> outcome (option frame);
  (** [ak.stock_fhps_detail_ths(symbol)] *)
  stock_fhps_detail_ths : pystr -> outcome (option frame);
  (** [groupby(...)["cash"].sum()] on the cash values of one group, in the
      order of their rows *)
  group_sum : list float -> float;
  (** [format(x, ".4f")] *)
  format_4f : float -> pystr
}.

Section WithTables.
Context `{RT : Runtime} `{TB : Tables}.

(** [df.empty]: an axis of length zero. *)
Definition frame_empty (df : frame) : bool :=
  match rows df, columns df with
  | [], _ | _, [] => true
  | _, _ => false
  end.

(** [cand in df.columns] *)
Definition has_column (df : frame) (cand : pystr) : bool :=
  existsb (str_eqb cand) (columns df).

(** [for cand in cands: if cand in df.columns: col = cand; break] *)
Definition first_column (cands : list pystr) (df : frame) : option pystr :=
  List.find (has_column df) cands.

(** [pd.notna(v)] of a float. *)
Definition notna (v : float) : bool := (v =? v)%float.

(** The cash per share the numeric column gives, [0.0] when it gives none. *)
Definition numeric_cash (cash_col : option pystr) (row : pystr -> cell) : float :=
  match cash_col with
  | Some col =>
    let v := c_number (row col) in
    if notna v && (0 <? v)%float
    then if str_eqb col (utf8 "派息") then (v / 10)%float else v
    else 0%float
  | None => 0%float
  end.

(** The body of the loop of [fetch_dividends_ths_fallback]: the event a row
    appends, if any. *)
Definition fallback_event (ex_col : pystr) (cash_col plan_text_col : option pystr)
    (row : pystr -> cell) : option DividendEvent :=
  match c_date (row ex_col) with
  | DateOk ex_dt =>
    let cash_per_share := numeric_cash cash_col row in
    let cash_per_share :=
      match plan_text_col with
      | Some col =>
        if (cash_per_share <=? 0)%float
        then _parse_cash_per_share_from_text (c_text (row col))
        else cash_per_share
      | None => cash_per_share
      end in
    if (0 <? cash_per_share)%float
    then Some {| ex_date := ex_dt; cash_per_share := cash_per_share |}
    else None
  | _ => None
  end.

Definition cash_columns : list pystr :=
  [utf8 "每股派息(税前)"; utf8 "每股税前"; utf8 "派息"].

Definition plan_text_columns : list pystr :=
  [utf8 "分红方案说明"; utf8 "分配方案"; utf8 "方案"; utf8 "预案"].

Definition fetch_dividends_ths_fallback (code : pystr) : list DividendEvent :=
  match stock_history_dividend_detail code (utf8 "分红") with
  | Ok (Some df) =>
    if frame_empty df then []
    else
      match first_column [utf8 "除权除息日"; utf8 "A股除权除息日"] df with
      | None => []
      | Some ex_col =>
        let cash_col := first_column cash_columns df in
        let plan_text_col := first_column plan_text_columns df in
        omap (fallback_event ex_col cash_col plan_text_col) (rows df)
      end
  | _ => []
  end.

(** The body of the loop of [fetch_dividends_ths]. *)
Definition ths_event (ex_col : pystr) (plan_text_col : option pystr)
    (row : pystr -> cell) : option DividendEvent :=
  match c_date (row ex_col) with
  | DateOk ex_dt =>
    let cash_per_share :=
      match plan_text_col with
      | Some col => _parse_cash_per_share_from_text (c_text (row col))
      | None => 0%float
      end in
    if (0 <? cash_per_share)%float
    then Some {| ex_date := ex_dt; cash_per_share := cash_per_share |}
    else None
  | _ => None
  end.

Definition fetch_dividends_ths (code : pystr) : list DividendEvent :=
  match stock_fhps_detail_ths code with
  | Ok (Some df) =>
    if frame_empty df then []
    else
      match first_column [utf8 "A股除权除息日"; utf8 "除权除息日"] df with
      | None => []
      | Some ex_col =>
        let plan_text_col := first_column plan_text_columns df in
        omap (ths_event ex_col plan_text_col) (rows df)
      end
  | _ => []
  end.

(** The events [get_dividends] takes: those of the first source, those of
    the second when the first has none. *)
Definition fetched_events (code : pystr) : list DividendEvent :=
  match fetch_dividends_ths_fallback code with
  | [] => fetch_dividends_ths code
  | events => events
  end.

(** [df.groupby("ex_date", as_index=False)["cash"].sum()]: one row per date,
    the dates in ascending order. *)
Definition group_cash (events : list DividendEvent) : list DividendEvent :=
  map (fun d =>
         {| ex_date := d;
            cash_per_share :=
              group_sum (map cash_per_share
                           (List.filter (fun e => str_eqb (ex_date e) d) events)) |})
      (sorted_set (map ex_date events)).

Definition get_dividends (code : pystr) : list DividendEvent :=
  match fetched_events code with
  | [] => []
  | events => group_cash events
  end.

(** [df_bonus], an empty frame when the call raises. *)
Definition frame_or_empty (r : outcome (option frame)) : option frame :=
  match r with
  | Ok df => df
  | Raise _ => Some {| columns := []; rows := [] |}
  end.

(** [name if name in df.columns else None] *)
Definition column_if_present (df : frame) (name : pystr) : option pystr :=
  if has_column df name then Some name else None.

(** [pd.to_numeric(row.get(col, None), errors="coerce") if col else None] *)
Definition numeric_cell (col : option pystr) (row : pystr -> cell) : option float :=
  match col with
  | Some c => Some (c_number (row c))
  | None => None
  end.

(** [if pd.notna(val) and float(val) > 0: per_share_added += float(val) / 10.0] *)
Definition add_tenth (per_share_added : float) (val : option float) : float :=
  match val with
  | Some v =>
    if notna v && (0 <? v)%float then (per_share_added + v / 10)%float
    else per_share_added
  | None => per_share_added
  end.

(** ['' if val is None or pd.isna(val) else f'{float(val)/10.0:.4f}'] *)
Definition shares_text (val : option float) : pystr :=
  match val with
  | Some v => if notna v then format_4f (v / 10)%float else []
  | None => []
  end.

(** The ex-date of a row: [None] where the loop goes on to the next row. *)
Definition row_ex_date (ex_col : option pystr) (row : pystr -> cell) : option pystr :=
  match ex_col with
  | Some col =>
    match c_date (row col) with
    | DateOk ex_dt => Some ex_dt
    | _ => None
    end
  | None => None
  end.

(** The total, the count and the notes after a row of the bonus table. *)
Definition bonus_row (start_trade_date end_trade_date : pystr)
    (ex_col send_col transfer_col : option pystr)
    (st : float * Z * list pystr) (row : pystr -> cell) : float * Z * list pystr :=
  let '(total_additional, count, notes) := st in
  match row_ex_date ex_col row with
  | Some ex_dt =>
    if in_interval start_trade_date end_trade_date ex_dt
    then
      let send_val := numeric_cell send_col row in
      let transfer_val := numeric_cell transfer_col row in
      let per_share_added := 0%float in
      let per_share_added := add_tenth per_share_added send_val in
      let per_share_added := add_tenth per_share_added transfer_val in
      if (0 <? per_share_added)%float
      then ((total_additional + per_share_added)%float, count + 1,
            notes ++ [ex_dt ++ utf8 ": 送" ++ shares_text send_val
                        ++ utf8 "股/股, 转" ++ shares_text transfer_val
                        ++ utf8 "股/股"])
      else st
    else st
  | None => st
  end.

(** The same after a row of the allotment table. *)
Definition allot_row (start_trade_date end_trade_date : pystr)
    (ex_col2 allot_col : option pystr)
    (st : float * Z * list pystr) (row : pystr -> cell) : float * Z * list pystr :=
  let '(total_additional, count, notes) := st in
  match row_ex_date ex_col2 row with
  | Some ex_dt =>
    if in_interval start_trade_date end_trade_date ex_dt
    then
      let allot_val := numeric_cell allot_col row in
      match allot_val with
      | Some v =>
        if notna v && (0 <? v)%float
        then
          let per_share_added := (v / 10)%float in
          ((total_additional + per_share_added)%float, count + 1,
           notes ++ [ex_dt ++ utf8 ": 配" ++ format_4f per_share_added ++ utf8 "股/股"])
        else st
      | None => st
      end
    else st
  | None => st
  end.

(** [sep.join(notes)] *)
Fixpoint join (sep : pystr) (notes : list pystr) : pystr :=
  match notes with
  | [] => []
  | [note] => note
  | note :: rest => note ++ sep ++ join sep rest
  end.

Definition bonus_rows (code start_trade_date end_trade_date : pystr)
    (st : float * Z * list pystr) : float * Z * list pystr :=
  match frame_or_empty (stock_history_dividend_detail code (utf8 "分红")) with
  | Some df_bonus =>
    if frame_empty df_bonus then st
    else
      let ex_col := first_column [utf8 "除权除息日"; utf8 "A股除权除息日"] df_bonus in
      let send_col := column_if_present df_bonus (utf8 "送股") in
      let transfer_col := column_if_present df_bonus (utf8 "转增") in
      foldl (bonus_row start_trade_date end_trade_date ex_col send_col transfer_col)
        st (rows df_bonus)
  | None => st
  end.

Definition allot_rows (code start_trade_date end_trade_date : pystr)
    (st : float * Z * list pystr) : float * Z * list pystr :=
  match frame_or_empty (stock_history_dividend_detail code (utf8 "配股")) with
  | Some df_allot =>
    if frame_empty df_allot then st
    else
      let ex_col2 := first_column [utf8 "除权日"; utf8 "股权登记日"] df_allot in
      let allot_col := column_if_present df_allot (utf8 "配股方案") in
      foldl (allot_row start_trade_date end_trade_date ex_col2 allot_col)
        st (rows df_allot)
  | None => st
  end.

Definition sum_additional_shares_in_interval (code start_trade_date end_trade_date : pystr)
    : float * Z * pystr :=
  let st := (0%float, 0, []) in
  let st := bonus_rows code start_trade_date end_trade_date st in
  let '(total_additional, count, notes) :=
    allot_rows code start_trade_date end_trade_date st in
  (total_additional, count, join (utf8 "; ") notes).

End WithTables.
End AkTables.

(* ===================================================================== *)
(** * [totalreturn/calculator.py]                                         *)
(* ===================================================================== *)

Module Calculator.

Record IntervalResult : Type := {
  code : pystr;
  start_trade_date : pystr;
  end_trade_date : pystr;
  start_close : float;
  end_close : float;
  dividend_sum_per_share : float;
  dividend_event_count : Z;
  additional_shares_per_share : float;
  additional_event_count : Z;
  additional_value_per_share : float;
  bonus_allot_desc : pystr;
  total_return : float
}.

Definition as_dict (r : IntervalResult) : row :=
  <["total_return" := VFloat (total_return r)]>
  (<["bonus_allot_desc" := VStr (bonus_allot_desc r)]>
  (<["additional_value_per_share" := VFloat (additional_value_per_share r)]>
  (<["additional_event_count" := VInt (additional_event_count r)]>
  (<["additional_shares_per_share" := VFloat (additional_shares_per_share r)]>
  (<["div_event_count" := VInt (dividend_event_count r)]>
  (<["div_sum_per_share" := VFloat (dividend_sum_per_share r)]>
  (<["end_close" := VFloat (end_close r)]>
  (<["start_close" := VFloat (start_close r)]>
  (<["end_trade_date" := VStr (end_trade_date r)]>
  (<["start_trade_date" := VStr (start_trade_date r)]>
  (<["code" := VStr (code r)]> ∅))))))))))).

(** [x / y] on floats: a zero divisor raises [ZeroDivisionError]. *)
Definition float_div (x y : float) : outcome float :=
  if (y =? 0)%float then Raise (utf8 "float division by zero")
  else Ok (x / y)%float.

(** [(end_close + div_sum + add_value - start_close) / start_close] *)
Definition total_return_formula (start_close end_close div_sum add_value : float)
    : outcome float :=
  float_div (end_close + div_sum + add_value - start_close)%float start_close.

Section WithProvider.
Context `{RT : Runtime} `{PV : Provider}.

Definition compute_interval_total_return (code start_trade_date end_trade_date : pystr)
    : outcome IntervalResult :=
  start_close ← get_unadjusted_close_on code start_trade_date;
  end_close ← get_unadjusted_close_on code end_trade_date;
  events ← get_dividends code;
  let '(div_sum, div_count) :=
    sum_cash_dividends_in_interval events start_trade_date end_trade_date in
  '(add_shares_per_share, add_event_count, add_desc) ←
    sum_additional_shares_in_interval code start_trade_date end_trade_date;
  let add_value_per_share := (end_close * add_shares_per_share)%float in
  total_return ←
    total_return_formula start_close end_close div_sum add_value_per_share;
  Ok {| code := code;
        start_trade_date := start_trade_date;
        end_trade_date := end_trade_date;
        start_close := start_close;
        end_close := end_close;
        dividend_sum_per_share := div_sum;
        dividend_event_count := div_count;
        additional_shares_per_share := add_shares_per_share;
        additional_event_count := add_event_count;
        additional_value_per_share := add_value_per_share;
        bonus_allot_desc := add_desc;
        total_return := total_return |}.

End WithProvider.
End Calculator.

Import Calculator.

(* ===================================================================== *)
(** * [totalreturn/cli.py]                                                *)
(* ===================================================================== *)

Module Cli.

(** The configuration [load_config] returns; a stock is its [code] as
    [str(s.code)] reads it. *)
Record AppConfig : Type := {
  stocks : list pystr;
  start_date : pystr;
  end_date : option pystr
}.

Definition num_val (n : pynum) : pyval :=
  match n with
  | NFloat f => VFloat f
  | NComplex re im => VComplex re im
  end.

(** [n - 1.0] *)
Definition sub_one (n : pynum) : pynum :=
  match n with
  | NFloat f => NFloat (f - 1)%float
  | NComplex re im => NComplex (re - 1)%float im
  end.

Definition opt_str (s : option pystr) : pyval :=
  match s with
  | Some d => VStr d
  | None => VNone
  end.

Section WithProvider.
Context `{RT : Runtime} `{PV : Provider}.

Definition get_stock_name (code : pystr) : pystr :=
  let code6 := zfill code in
  default code6 (lookup_stock_name code6).

(** [(strptime(end) - strptime(start)).days]; [None] when a date does not
    parse. *)
Definition calendar_days (start_trade_date end_trade_date : pystr) : option Z :=
  e ← strptime_ordinal end_trade_date;
  s ← strptime_ordinal start_trade_date;
  Some (e - s).

(** [(1.0 + total_return) ** (365.0 / days) - 1.0] *)
Definition annualize (total_return : float) (days : Z) : option pynum :=
  sub_one <$> float_pow (1 + total_return)%float (365 / float_of_int days)%float.

(** The [try] block that computes [annualized]: any exception leaves it
    [None]. *)
Definition annualized_return (total_return : option float)
    (start_trade_date end_trade_date : pystr) : pyval :=
  match calendar_days start_trade_date end_trade_date with
  | Some days =>
    match total_return with
    | Some tr =>
      if 0 <? days
      then match annualize tr days with
           | Some n => num_val n
           | None => VNone
           end
      else VNone
    | None => VNone
    end
  | None => VNone
  end.

Definition error_row (name code : pystr) (start_trade_date end_trade_date : option pystr)
    (msg : pystr) : row :=
  <["error" := VStr msg]>
  (<["annualized_return" := VNone]>
  (<["total_return" := VNone]>
  (<["div_event_count" := VNone]>
  (<["div_sum_per_share" := VNone]>
  (<["end_close" := VNone]>
  (<["start_close" := VNone]>
  (<["end_trade_date" := opt_str end_trade_date]>
  (<["start_trade_date" := opt_str start_trade_date]>
  (<["code" := VStr code]>
  (<["name" := VStr name]> ∅)))))))))).

Definition success_row (res : IntervalResult) (name code : pystr)
    (start_trade_date end_trade_date : pystr) : row :=
  let '(add_shares, add_count, add_desc) :=
    match sum_additional_shares_in_interval code start_trade_date end_trade_date with
    | Ok r => r
    | Raise _ => (0%float, 0, [])
    end in
  let total_return :=
    match total_return_formula (start_close res) (end_close res)
            (dividend_sum_per_share res) (end_close res * add_shares)%float with
    | Ok t => t
    | Raise _ => Calculator.total_return res
    end in
  let annualized :=
    annualized_return (Some total_return) start_trade_date end_trade_date in
  <["annualized_return" := annualized]>
  (<["total_return" := VFloat total_return]>
  (<["bonus_allot_desc" := VStr add_desc]>
  (<["additional_value_per_share" := VFloat (end_close res * add_shares)%float]>
  (<["additional_event_count" := VInt add_count]>
  (<["additional_shares_per_share" := VFloat add_shares]>
  (<["code" := VStr code]>
  (<["name" := VStr name]> (as_dict res)))))))).

(** One turn of the loop over the configured stocks. *)
Definition stock_row (cfg : AppConfig) (s_code : pystr) : row :=
  let code := zfill s_code in
  let name := get_stock_name code in
  match derive_trade_window_from_prices code (start_date cfg) (end_date cfg) with
  | Raise e => error_row name code None None e
  | Ok (start_trade_date, end_trade_date) =>
    match compute_interval_total_return code start_trade_date end_trade_date with
    | Raise e => error_row name code (Some start_trade_date) (Some end_trade_date) e
    | Ok res => success_row res name code start_trade_date end_trade_date
    end
  end.

Definition cli_rows (cfg : AppConfig) : list row := map (stock_row cfg) (stocks cfg).

Definition is_str (v : pyval) : bool :=
  match v with VStr _ => true | _ => false end.

(** [r.get(k, "")] *)
Definition get_or_empty (r : row) (k : string) : pyval := default (VStr []) (r !! k).

(** The cells of a console line that are read from the row as they are;
    [",".join(line)] raises [TypeError] unless each one is a [str]. *)
Definition console_line_ok (r : row) : bool :=
  forallb (fun k => is_str (get_or_empty r k))
    ["name"; "start_trade_date"; "end_trade_date"; "bonus_allot_desc"; "error"]%string.

Definition run (cfg : AppConfig) : outcome (list row) :=
  match stocks cfg with
  | [] => Raise (utf8 "No stocks configured. Please add at least one stock code in config.yaml.")
  | _ =>
    let rows := cli_rows cfg in
    if forallb console_line_ok rows
    then _ ← rows_to_csv rows; Ok rows
    else Raise (utf8 "sequence item 1: expected str instance, NoneType found")
  end.

(** [resolve_trade_window] *)
Definition resolve_trade_window (cfg : AppConfig) : outcome (pystr * pystr) :=
  match stocks cfg with
  | [] => Raise (utf8 "No stocks configured to derive trading window.")
  | first :: _ =>
    let first_code := zfill first in
    '(start_trade_date, end_trade_date) ←
      derive_trade_window_from_prices first_code (start_date cfg) (end_date cfg);
    if str_ltb end_trade_date start_trade_date
    then Raise (utf8 "Computed start_trade_date " ++ start_trade_date
                  ++ utf8 " is after end_trade_date " ++ end_trade_date
                  ++ utf8 ". Please adjust start_date/end_date in config.")
    else Ok (start_trade_date, end_trade_date)
  end.

End WithProvider.
End Cli.

(* ===================================================================== *)
(** * [gui_app.py]                                                        *)
(* ===================================================================== *)

Module GuiApp.
Import Cli.

(** A [dict] with text keys, in insertion order. *)
Abbreviation pydict := (list (pystr * pystr)).

Fixpoint dict_get (d : pydict) (k : pystr) : option pystr :=
  match d with
  | [] => None
  | (k', v) :: d' => if str_eqb k' k then Some v else dict_get d' k
  end.

(** [d[k] = v]: a new key goes last, a known key keeps its place. *)
Fixpoint dict_set (d : pydict) (k v : pystr) : pydict :=
  match d with
  | [] => [(k, v)]
  | (k', v') :: d' =>
    if str_eqb k' k then (k', v) :: d' else (k', v') :: dict_set d' k v
  end.

(** [if k not in d: d[k] = v] *)
Definition dict_setdefault (d : pydict) (k v : pystr) : pydict :=
  match dict_get d k with
  | Some _ => d
  | None => dict_set d k v
  end.

Definition str_truthy (s : pystr) : bool :=
  match s with [] => false | _ => true end.

Definition static_map : pydict :=
  [(utf8 "贵州茅台", utf8 "600519"); (utf8 "五粮液", utf8 "000858");
   (utf8 "洋河股份", utf8 "002304"); (utf8 "泸州老窖", utf8 "000568")].

Section WithProvider.
Context `{RT : Runtime} `{PV : Provider}.

Definition norm_code (raw : pystr) : pystr := zfill (zfill (last6 raw)).

Definition add_primary (maps : pydict * pydict) (r : pystr * pystr) : pydict * pydict :=
  let code := norm_code (fst r) in
  let name := strip (snd r) in
  if str_truthy name
  then (dict_set (fst maps) name code, dict_set (snd maps) code name)
  else maps.

Definition add_fallback (maps : pydict * pydict) (r : pystr * pystr) : pydict * pydict :=
  let code := norm_code (fst r) in
  let name := strip (snd r) in
  if str_truthy name
  then (dict_setdefault (fst maps) name code, dict_setdefault (snd maps) code name)
  else maps.

Definition add_static (maps : pydict * pydict) (r : pystr * pystr) : pydict * pydict :=
  (dict_setdefault (fst maps) (fst r) (snd r),
   dict_setdefault (snd maps) (snd r) (fst r)).

(** (name_to_code, code_to_name) *)
Definition build_code_maps : pydict * pydict :=
  let primary := foldl add_primary ([], []) code_name_rows in
  let both :=
    match fst primary with
    | [] => foldl add_fallback primary spot_rows
    | _ => primary
    end in
  foldl add_static both static_map.

Definition resolve_to_code (text : pystr) (name_to_code : pydict) : option pystr :=
  let s := strip text in
  match s with
  | [] => None
  | _ =>
    if isdigit s && (length s <=? 6)%nat then Some (zfill s)
    else
      match dict_get name_to_code s with
      | Some (c :: code) => Some (c :: code)
      | _ =>
        let sl := lower s in
        match filter (fun kv => str_eqb (lower (fst kv)) sl) name_to_code with
        | (_, v) :: _ => Some v
        | [] =>
          match filter (fun kv => contains s (fst kv) || contains (fst kv) s)
                  name_to_code with
          | (_, v) :: _ => Some v
          | [] => None
          end
        end
      end
  end.

Definition compute_additional_and_desc (code start_trade_date end_trade_date : pystr)
    : float * Z * pystr :=
  match sum_additional_shares_in_interval code start_trade_date end_trade_date with
  | Ok r => r
  | Raise _ => (0%float, 0, [])
  end.

Definition error_row (name code : pystr) (msg : pystr) : row :=
  <["error" := VStr msg]>
  (<["annualized_return" := VNone]>
  (<["total_return" := VNone]>
  (<["bonus_allot_desc" := VStr []]>
  (<["additional_value_per_share" := VNone]>
  (<["additional_event_count" := VNone]>
  (<["additional_shares_per_share" := VNone]>
  (<["div_event_count" := VNone]>
  (<["div_sum_per_share" := VNone]>
  (<["end_close" := VNone]>
  (<["start_close" := VNone]>
  (<["end_trade_date" := VNone]>
  (<["start_trade_date" := VNone]>
  (<["code" := VStr code]>
  (<["name" := VStr name]> ∅)))))))))))))).

(** [annualized]: the conditional expression inside its [try]. *)
Definition annualized_return (total_return : float)
    (start_trade_date end_trade_date : pystr) : pyval :=
  match calendar_days start_trade_date end_trade_date with
  | Some days =>
    if 0 <? days
    then match annualize total_return days with
         | Some n => num_val n
         | None => VNone
         end
    else VNone
  | None => VNone
  end.

(** The body of the [try] for one resolved code. *)
Definition computed_row (name code : pystr) (start_date : pystr)
    (end_date : option pystr) : outcome row :=
  '(start_trade_date, end_trade_date) ←
    derive_trade_window_from_prices code start_date end_date;
  res ← compute_interval_total_return code start_trade_date end_trade_date;
  let '(add_shares, add_count, add_desc) :=
    compute_additional_and_desc code start_trade_date end_trade_date in
  let add_value_per_share := (end_close res * add_shares)%float in
  total_return ←
    total_return_formula (start_close res) (end_close res)
      (dividend_sum_per_share res) add_value_per_share;
  let annualized := annualized_return total_return start_trade_date end_trade_date in
  Ok (<["annualized_return" := annualized]>
     (<["total_return" := VFloat total_return]>
     (<["bonus_allot_desc" := VStr add_desc]>
     (<["additional_value_per_share" := VFloat add_value_per_share]>
     (<["additional_event_count" := VInt add_count]>
     (<["additional_shares_per_share" := VFloat add_shares]>
     (<["code" := VStr code]>
     (<["name" := VStr name]> (as_dict res))))))))).

Definition code_row (start_date : pystr) (end_date : option pystr)
    (entry : pystr * pystr) : row :=
  let code := fst entry in
  let name := get_stock_name code in
  match computed_row name code start_date end_date with
  | Ok r => r
  | Raise e => error_row name code e
  end.

(** The first loop: each item with the code it resolves to, if any. *)
Definition resolve_items (name_to_code : pydict) (codes : list pystr)
    : list (pystr * option pystr) :=
  map (fun item =>
         let s := strip item in
         (s, match resolve_to_code s name_to_code with
             | Some (c :: rc) => Some (c :: rc)
             | _ => None
             end)) codes.

Definition normalized (items : list (pystr * option pystr)) : list (pystr * pystr) :=
  omap (fun e => match snd e with Some rc => Some (rc, fst e) | None => None end) items.

Definition unresolved_items (items : list (pystr * option pystr)) : list pystr :=
  omap (fun e => match snd e with Some _ => None | None => Some (fst e) end) items.

Definition compute_for_codes (codes : list pystr) (start_date : pystr)
    (end_date : option pystr) : list row :=
  let name_to_code := fst build_code_maps in
  let items := resolve_items name_to_code codes in
  map (fun s => error_row s [] (utf8 "Unknown stock name or code"))
      (unresolved_items items)
  ++ map (code_row start_date end_date) (normalized items).

End WithProvider.
End GuiApp.

(* ===================================================================== *)
(** * [web_app.py]                                                        *)
(* ===================================================================== *)

Module WebApp.

(** The fields of a posted form; a missing field reads as the empty text. *)
Record form : Type := {
  f_stocks : pystr;
  f_start_date : pystr;
  f_end_date : pystr
}.

Inductive response : Type :=
  | Redirect (flash : pystr)                       (* flash, then the index page *)
  | Rendered (rows : list row) (start_date end_date : pystr)
  | Attachment (csv : pystr)                       (* the file sent *)
  | ServerError (msg : pystr).                     (* an uncaught exception *)

Inductive request : Type :=
  | PostCalculate (f : form)
  | GetExport.

(** [s.split(",")] *)
Fixpoint split_on (c : Z) (s : pystr) : list pystr :=
  match s with
  | [] => [[]]
  | x :: s' =>
    if x =? c then [] :: split_on c s'
    else match split_on c s' with
         | h :: t => (x :: h) :: t
         | [] => [[x]]
         end
  end.

Section WithProvider.
Context `{RT : Runtime} `{PV : Provider}.

Definition parse_codes_input (text : pystr) : list pystr :=
  let parts := split_on 44 (replace 32 [44] (replace 65292 [44] text)) in
  map strip (filter (fun p => GuiApp.str_truthy (strip p)) parts).

Section WithCompute.
(** The computation [/calculate] calls, which may raise. *)
Variable compute : list pystr -> pystr -> option pystr -> outcome (list row).

(** [/calculate]: the response and the new value of [LAST_ROWS]. *)
Definition calculate_with (LAST_ROWS : list row) (f : form) : response * list row :=
  let stocks_text := strip (f_stocks f) in
  let start_date := strip (f_start_date f) in
  let end_date := match strip (f_end_date f) with [] => None | e => Some e end in
  match stocks_text with
  | [] => (Redirect (utf8 "Please enter at least one stock name or 6-digit code."),
           LAST_ROWS)
  | _ =>
    match start_date with
    | [] => (Redirect (utf8 "Please enter a start date (YYYY-MM-DD)."), LAST_ROWS)
    | _ =>
      let codes_or_names := parse_codes_input stocks_text in
      match compute codes_or_names start_date end_date with
      | Raise e => (Redirect (utf8 "Error computing results: " ++ e), LAST_ROWS)
      | Ok rows => (Rendered rows start_date (default [] end_date), rows)
      end
    end
  end.

(** [/export]: it reads [LAST_ROWS] and leaves it as it is. *)
Definition export (LAST_ROWS : list row) : response * list row :=
  match LAST_ROWS with
  | [] => (Redirect (utf8 "No results to export. Please calculate first."), LAST_ROWS)
  | _ =>
    match rows_to_csv LAST_ROWS with
    | Ok csv => (Attachment csv, LAST_ROWS)
    | Raise e => (ServerError e, LAST_ROWS)
    end
  end.

Definition handle_with (LAST_ROWS : list row) (rq : request) : response * list row :=
  match rq with
  | PostCalculate f => calculate_with LAST_ROWS f
  | GetExport => export LAST_ROWS
  end.

(** The cache after a sequence of requests, oldest first. *)
Definition serve_with (LAST_ROWS : list row) (rqs : list request) : list row :=
  foldl (fun st rq => snd (handle_with st rq)) LAST_ROWS rqs.

End WithCompute.

(** The application: [compute_for_codes] handles its own failures. *)
Definition calculate : list row -> form -> response * list row :=
  calculate_with (fun codes s e => Ok (GuiApp.compute_for_codes codes s e)).

End WithProvider.
End WebApp.

(* ===================================================================== *)
(** * [gui_app.py]: the codes of the input field                          *)
(* ===================================================================== *)

Module GuiInput.
Import GuiApp WebApp.

(** [seen], [res] of the order-preserving removal of repetitions. *)
Fixpoint dedupe (seen : list pystr) (codes : list pystr) : list pystr :=
  match codes with
  | [] => []
  | c :: rest =>
    if bool_decide (c ∈ seen) then dedupe seen rest
    else c :: dedupe (c :: seen) rest
  end.

Section WithProvider.
Context `{RT : Runtime} `{PV : Provider}.

(** What one part of the input adds to [codes], if anything. *)
Definition part_code (name_to_code : pydict) (p : pystr) : option pystr :=
  if isdigit p && (length p <=? 6)%nat then Some (zfill p)
  else
    match dict_get name_to_code p with
    | Some (c :: code) => Some (c :: code)
    | _ =>
      match filter (fun kv => str_eqb (lower (fst kv)) (lower p)) name_to_code with
      | (_, v) :: _ => Some v
      | [] => None
      end
    end.

Definition parse_input_to_codes (text : pystr) (name_to_code : pydict) : list pystr :=
  match text with
  | [] => []
  | _ =>
    let parts := parse_codes_input text in
    dedupe [] (omap (part_code name_to_code) parts)
  end.

End WithProvider.
End GuiInput.

(* ===================================================================== *)
(** * [_compare_gui_cli.py]                                               *)
(* ===================================================================== *)

Module Compare.

Inductive diff : Type :=
  | GuiMissing (code : pystr)
  | CliMissing (code : pystr)
  | FieldDiffers (code : pystr) (field : string) (gv cv : pyval).

(** The exact value of a finite float against an integer. *)
Definition sf_eq_int (x : spec_float) (n : Z) : bool :=
  match x with
  | S754_zero _ => n =? 0
  | S754_finite s m e =>
    let v := if s then Z.neg m else Z.pos m in
    if 0 <=? e then v * 2 ^ e =? n else v =? n * 2 ^ (- e)
  | _ => false
  end.

(** [a == b] *)
Definition py_eq (a b : pyval) : bool :=
  match a, b with
  | VNone, VNone => true
  | VStr s, VStr t => str_eqb s t
  | VInt n, VInt m => n =? m
  | VFloat f, VFloat g => (f =? g)%float
  | VInt n, VFloat f | VFloat f, VInt n => sf_eq_int (Prim2SF f) n
  | VComplex r i, VComplex r' i' => (r =? r')%float && (i =? i')%float
  | VComplex r i, VFloat f | VFloat f, VComplex r i => (r =? f)%float && (i =? 0)%float
  | VComplex r i, VInt n | VInt n, VComplex r i =>
    sf_eq_int (Prim2SF r) n && (i =? 0)%float
  | _, _ => false
  end.

Section WithRuntime.
Context `{RT : Runtime}.

(** [float(v)]; [None] when it raises. *)
Definition to_float (v : pyval) : option float :=
  match v with
  | VFloat f => Some f
  | VInt n =>
    let f := float_of_int n in
    if is_infinity f then None else Some f
  | VStr s => float_of_str s
  | VNone | VComplex _ _ => None
  end.

Definition approx_equal (a b : pyval) : bool :=
  match a, b with
  | VNone, VNone => true
  | VNone, _ | _, VNone => false
  | _, _ =>
    match to_float a, to_float b with
    | Some x, Some y => (abs (x - y) <=? 1e-6)%float
    | _, _ => py_eq a b
    end
  end.

Definition exact_fields : list string :=
  ["bonus_allot_desc"; "error"; "start_trade_date"; "end_trade_date"]%string.

Definition checks : list string :=
  ["start_trade_date"; "end_trade_date"; "start_close"; "end_close";
   "div_sum_per_share"; "div_event_count"; "additional_shares_per_share";
   "additional_event_count"; "additional_value_per_share"; "total_return";
   "annualized_return"; "bonus_allot_desc"; "error"]%string.

Definition field_equal (field : string) (gv cv : pyval) : bool :=
  if bool_decide (field ∈ exact_fields) then py_eq gv cv else approx_equal gv cv.

(** The text of [r.get("code")].  The rows of [run] and of
    [compute_for_codes] have a text as their code; for a row without one
    the empty text stands here, whereas the source keys its dicts by the
    value itself and [sorted] raises on keys of mixed types: the properties
    of the comparison are stated for rows whose code is a text. *)
Definition row_code (r : row) : pystr :=
  match get r "code" with
  | VStr s => s
  | _ => []
  end.

(** [{r.get("code"): key_fields(r) for r in rows}.get(code)]: the last row
    of that code. *)
Definition row_of (rows : list row) (code : pystr) : option row :=
  head (filter (fun r => str_eqb (row_code r) code) (rev rows)).

Definition compare_code (gui_rows cli_rows : list row) (code : pystr) : list diff :=
  match row_of gui_rows code, row_of cli_rows code with
  | None, _ => [GuiMissing code]
  | Some _, None => [CliMissing code]
  | Some g, Some c =>
    omap (fun field =>
            if field_equal field (get g field) (get c field) then None
            else Some (FieldDiffers code field (get g field) (get c field)))
         checks
  end.

Definition compare_rows (gui_rows cli_rows : list row) : list diff :=
  let codes := sorted_set (map row_code gui_rows ++ map row_code cli_rows) in
  flat_map (compare_code gui_rows cli_rows) codes.

End WithRuntime.

Section WithProvider.
Context `{RT : Runtime} `{PV : Provider}.
Import Cli.

(** [main], for the configuration [load_config()] reads: the differences it
    prints, or the exception of the CLI run. *)
Definition main (cfg : AppConfig) : outcome (list diff) :=
  let codes := map zfill (stocks cfg) in
  let start_date := start_date cfg in
  let end_date := end_date cfg in
  let gui_rows := GuiApp.compute_for_codes codes start_date end_date in
  cli_rows ← run cfg;
  let diffs := compare_rows gui_rows cli_rows in
  Ok diffs.

End WithProvider.

End Compare.

(* ===================================================================== *)
(** * The specification's side                                            *)
(* ===================================================================== *)

(** The notions the properties are stated with, and the data the
    definitions are run on. *)

Import Cli.

(** ** Order on dates, interval membership, sums *)

Definition str_lt (a b : pystr) : Prop := str_compare a b = Lt.
Definition str_le (a b : pystr) : Prop := str_compare a b <> Gt.

(** [start < d <= end], the membership the specification words. *)
Definition within (start_trade_date end_trade_date d : pystr) : Prop :=
  str_lt start_trade_date d /\ str_le d end_trade_date.

#[global] Instance within_dec s e d : Decision (within s e d).
Proof. unfold within, str_lt, str_le. apply _. Defined.

(** The events the specification sums over, in the order of the list. *)
Definition interval_events (events : list DividendEvent) (s e : pystr)
    : list DividendEvent :=
  filter (fun ev => within s e (ex_date ev)) events.

(** A float sum, accumulated from the left as the loop does. *)
Definition float_sum (init : float) (l : list float) : float :=
  foldl PrimFloat.add init l.

(** Ascending without repetition. *)
Definition ascending (l : list pystr) : Prop := StronglySorted str_lt l.

(** ** Signs of binary64 values *)

(** Not below zero: a zero, a positive finite value or plus infinity. *)
Definition SFnonneg (x : spec_float) : Prop :=
  match x with
  | S754_zero _ => True
  | S754_infinity s => s = false
  | S754_finite s _ _ => s = false
  | S754_nan => False
  end.

(** [0 <= f] on floats. *)
Definition float_nonneg (f : float) : Prop := (0 <=? f)%float = true.

(** [approx_equal] of [_test_parsing.py]. *)
Definition approx_equal_1e9 (a b : float) : bool := (abs (a - b) <=? 1e-9)%float.

(** ** Rows *)

Definition numeric_fields : list string :=
  ["start_close"; "end_close"; "div_sum_per_share"; "div_event_count";
   "additional_shares_per_share"; "additional_event_count";
   "additional_value_per_share"; "total_return"]%string.

Definition is_number (v : pyval) : Prop :=
  match v with
  | VInt _ | VFloat _ => True
  | _ => False
  end.

Section WithProvider.
Context `{RT : Runtime} `{PV : Provider}.

(** A run of decimal digits and dots. *)
Definition amount_text (s : pystr) : Prop :=
  forallb (fun c => is_decimal c || (c =? DOT)) s = true.

(** Every group of the expression is [([\d\.]+)] or the like. *)
Fixpoint amount_groups (r : regex) : bool :=
  match r with
  | Eps | Chr _ | Cls _ | Rep _ _ => true
  | Seq a b | Alt a b => amount_groups a && amount_groups b
  | Opt a => amount_groups a
  | Grp (Rep CDigitDot _) => true
  | Grp _ => false
  end.

Definition amount_caps (res : mresult) : Prop := Forall amount_text (fst res).

(** The trading days of the fetched window: the stock's own, or those of
    the first reference stock that has some. *)
Definition window_dates (code start : pystr) (end_ : option pystr) : list pystr :=
  match get_hist_unadjusted_range code start end_ with
  | Ok (Some (r :: rows)) => trade_dates_of (r :: rows)
  | Ok _ => fallback_dates fallback_symbols start end_
  | Raise _ => []
  end.

(** At least two trading days, none after today. *)
Definition two_days_by_today (dates : list pystr) : Prop :=
  exists d1 d2, d1 ∈ dates /\ d2 ∈ dates /\ d1 <> d2
                /\ str_le d1 today_str /\ str_le d2 today_str.

(** The annualized return as the specification words it: absent if the day
    count is not positive or the total return is absent, and otherwise the
    value of [(1 + total_return) ** (365 / calendar_days) - 1]. *)
Definition spec_annualized (total_return : option float) (days : Z)
    (annualized : pyval) : Prop :=
  match total_return with
  | Some tr =>
    if days <=? 0 then annualized = VNone
    else exists n,
           float_pow (1 + tr)%float (365 / float_of_int days)%float = Some n
           /\ annualized = num_val (sub_one n)
  | None => annualized = VNone
  end.

(** The annualized return of the amended claim: the same value, absent
    also when the power has no value (Python raises on an overflow) or the
    dates give no day count. *)
Definition amended_annualized (total_return : option float) (days : option Z) : pyval :=
  match total_return, days with
  | Some tr, Some d =>
    if d <=? 0 then VNone
    else match float_pow (1 + tr)%float (365 / float_of_int d)%float with
         | Some n => num_val (sub_one n)
         | None => VNone
         end
  | _, _ => VNone
  end.

(** A row of a stock that was computed. *)
Definition computed_row_shape (r : row) : Prop :=
  get r "error" = VNone
  /\ Forall (fun k => is_number (get r k)) numeric_fields
  /\ exists tr sd ed,
       get r "total_return" = VFloat tr
       /\ get r "start_trade_date" = VStr sd
       /\ get r "end_trade_date" = VStr ed
       /\ get r "annualized_return" = amended_annualized (Some tr) (calendar_days sd ed).

(** A row of a stock that failed. *)
Definition failed_row_shape (r : row) : Prop :=
  (exists msg, get r "error" = VStr msg)
  /\ Forall (fun k => get r k = VNone) numeric_fields
  /\ get r "annualized_return" = VNone.

(** The annualized return of a row is the one the specification words,
    on the row's own total return and trade dates. *)
Definition annualized_by_spec (r : row) : Prop :=
  exists tr sd ed days,
    get r "total_return" = VFloat tr
    /\ get r "start_trade_date" = VStr sd
    /\ get r "end_trade_date" = VStr ed
    /\ calendar_days sd ed = Some days
    /\ spec_annualized (Some tr) days (get r "annualized_return").

(** The annualized return of a row is the one of the amended claim, on the
    row's own total return and trade dates. *)
Definition annualized_as_amended (r : row) : Prop :=
  exists tr sd ed,
    get r "total_return" = VFloat tr
    /\ get r "start_trade_date" = VStr sd
    /\ get r "end_trade_date" = VStr ed
    /\ get r "annualized_return" = amended_annualized (Some tr) (calendar_days sd ed).

(** Error absent and every numeric field of the result present. *)
Definition full_row (r : row) : Prop :=
  get r "error" = VNone /\ Forall (fun k => is_number (get r k)) numeric_fields.

(** Error present and every numeric field absent, the annualized return
    as well. *)
Definition error_only_row (r : row) : Prop :=
  (exists msg, get r "error" = VStr msg)
  /\ Forall (fun k => get r k = VNone) numeric_fields
  /\ get r "annualized_return" = VNone.

Definition row_invariant (r : row) : Prop :=
  (full_row r /\ ~ error_only_row r) \/ (error_only_row r /\ ~ full_row r).

(** ** The requests of the web application *)

Section WithCompute.
Import WebApp.
Variable compute : list pystr -> pystr -> option pystr -> outcome (list row).

(** The arguments [/calculate] passes to the computation. *)
Definition posted (f : form) : outcome (list row) :=
  compute (parse_codes_input (strip (f_stocks f))) (strip (f_start_date f))
    (match strip (f_end_date f) with [] => None | e => Some e end).

(** A request that fails: a blank field, or a computation that raises. *)
Definition fails (f : form) : Prop :=
  strip (f_stocks f) = [] \/ strip (f_start_date f) = []
  \/ exists e, posted f = Raise e.

(** A request that succeeds with [rows]. *)
Definition succeeds (f : form) (rows : list row) : Prop :=
  strip (f_stocks f) <> [] /\ strip (f_start_date f) <> [] /\ posted f = Ok rows.

(** The rows of the most recent successful [/calculate] of a sequence of
    requests (oldest first), [init] when there is none. *)
Inductive last_success (init : list row) : list request -> list row -> Prop :=
  | last_success_nil : last_success init [] init
  | last_success_export rqs rows :
      last_success init rqs rows ->
      last_success init (rqs ++ [GetExport]) rows
  | last_success_failed rqs rows f :
      last_success init rqs rows -> fails f ->
      last_success init (rqs ++ [PostCalculate f]) rows
  | last_success_new rqs rows f rows' :
      last_success init rqs rows -> succeeds f rows' ->
      last_success init (rqs ++ [PostCalculate f]) rows'.

End WithCompute.
End WithProvider.

(** ** The characters of an item of the stocks field *)

(** A character that is neither white space nor one of the separators. *)
Definition item_char `{RT : Runtime} (c : Z) : Prop :=
  isspace c = false /\ c <> 44 /\ c <> 65292.

#[global] Instance item_char_dec `{RT : Runtime} (c : Z) : Decision (item_char c).
Proof. unfold item_char. apply _. Defined.

(** ** Dates of the calendar *)

(** [n] written with two, and with four, decimal digits. *)
Definition two_digits (n : Z) : pystr := [48 + n / 10; 48 + n mod 10].
Definition four_digits (n : Z) : pystr :=
  [48 + n / 1000; 48 + n / 100 mod 10; 48 + n / 10 mod 10; 48 + n mod 10].

(** [date(y, m, d).strftime("%Y-%m-%d")], for a year of four digits. *)
Definition strftime_ymd (y m d : Z) : pystr :=
  four_digits y ++ [45] ++ two_digits m ++ [45] ++ two_digits d.

(** A date of the calendar with a year of four digits. *)
Definition calendar_date (y m d : Z) : Prop :=
  1000 <= y /\ valid_date y m d = true.

(** The order of the calendar. *)
Definition date_before (y1 m1 d1 y2 m2 d2 : Z) : Prop :=
  y1 < y2 \/ (y1 = y2 /\ (m1 < m2 \/ (m1 = m2 /\ d1 < d2))).

(** The day a leap year has more. *)
Definition leap_day (y : Z) : Z := if is_leap y then 1 else 0.

(** ** Plan texts *)

(** A text of ASCII characters, ideographs and full-width parentheses. *)
Definition plain_text (s : pystr) : Prop :=
  Forall (fun c => is_ascii c = true \/ is_cjk c = true \/ c = 65288 \/ c = 65289) s.

(** An amount as the plans write it: ASCII digits and dots, at least one
    character. *)
Definition amount_digits (a : pystr) : Prop :=
  a <> [] /\ Forall (fun c => 48 <= c <= 57 \/ c = 46) a.

(** The character an expression must read first, when it starts with a
    literal. *)
Fixpoint first_char (r : regex) : option Z :=
  match r with
  | Chr c => Some c
  | Seq a _ => first_char a
  | Grp a => first_char a
  | _ => None
  end.

(** What the normalisation of a plan text makes of one character of a
    plain text. *)
Definition normal_char (c : Z) : pystr :=
  if c =? 65288 then [40] else if c =? 65289 then [41]
  else if c =? 32 then [] else [ascii_lower c].

(** ** Values of a comparison *)

(** A finite binary64 value: not an infinity, not a NaN. *)
Definition finite (f : float) : Prop :=
  match Prim2SF f with
  | S754_zero _ | S754_finite _ _ _ => True
  | _ => False
  end.

(** Rows whose code is a text, as the rows of [run] and of
    [compute_for_codes] are: the keys [compare_rows] sorts. *)
Definition text_codes (rows : list row) : Prop :=
  Forall (fun r => exists code, get r "code" = VStr code) rows.

(** Some row of the list has the text [code] as its code. *)
Definition has_code (rows : list row) (code : pystr) : Prop :=
  exists r, r ∈ rows /\ get r "code" = VStr code.

(** The last row of the list whose code is the text [code]: the row a dict
    keyed by the codes keeps for it. *)
Definition last_row_of (rows : list row) (code : pystr) (r : row) : Prop :=
  exists pre post,
    rows = pre ++ r :: post /\ get r "code" = VStr code
    /\ Forall (fun r' => get r' "code" <> VStr code) post.

(** The compared fields that hold numbers. *)
Definition numeric_checks : list string :=
  ["start_close"; "end_close"; "div_sum_per_share"; "div_event_count";
   "additional_shares_per_share"; "additional_event_count";
   "additional_value_per_share"; "total_return"; "annualized_return"]%string.

(** A row whose texts are texts or absent and whose numbers are integers,
    finite floats or absent. *)
Definition plain_row (r : row) : Prop :=
  Forall (fun field => match get r field with
                       | VNone | VStr _ => True
                       | _ => False
                       end) Compare.exact_fields
  /\ Forall (fun field => match get r field with
                          | VNone | VInt _ => True
                          | VFloat f => finite f
                          | _ => False
                          end) numeric_checks.

(** ** Tables *)

(** The state of the loops of [sum_additional_shares_in_interval] is sound:
    a total that is not below zero, as many notes as events counted, and no
    empty note. *)
Definition sound_shares (st : float * Z * list pystr) : Prop :=
  let '(total, count, notes) := st in
  float_nonneg total
  /\ count = Z.of_nat (length notes)
  /\ Forall (fun note => note <> []) notes
  /\ (notes = [] -> total = 0%float).

(** The rows of a table, none when the call fails or gives no frame. *)
Definition table_rows (r : outcome (option AkTables.frame))
    : list (pystr -> AkTables.cell) :=
  match r with
  | Ok (Some df) => AkTables.rows df
  | _ => []
  end.

(** No cell of the rows reads as a date within the interval. *)
Definition no_date_within (s e : pystr) (rows : list (pystr -> AkTables.cell)) : Prop :=
  forall row col d,
    row ∈ rows -> AkTables.c_date (row col) = DateOk d -> ~ within s e d.

(** ** Codes *)

(** A code written with ASCII digits, six at most. *)
Definition digits_code (s : pystr) : Prop :=
  (length s <= 6)%nat /\ Forall (fun c => 48 <= c <= 57) s.

(** ** The provider of the tables *)

(** The provider whose dividends and additional shares are those the code
    builds from the tables. *)
Definition tables_provider `{RT : Runtime} `{TB : AkTables.Tables} (PV : Provider)
    : Provider := {|
  today_str := today_str;
  stock_zh_a_hist := stock_zh_a_hist;
  get_dividends := fun code => Ok (AkTables.get_dividends code);
  sum_additional_shares_in_interval := fun code start_trade_date end_trade_date =>
    Ok (AkTables.sum_additional_shares_in_interval code start_trade_date end_trade_date);
  lookup_stock_name := lookup_stock_name;
  code_name_rows := code_name_rows;
  spot_rows := spot_rows |}.

(** The ex-dates of the fetched events that are within the interval, each
    of them once. *)
Definition interval_dates `{RT : Runtime} `{TB : AkTables.Tables} (code s e : pystr)
    : list pystr :=
  filter (within s e) (sorted_set (map ex_date (AkTables.fetched_events code))).

(** ** Reference runtimes, providers and configurations *)

(** A runtime whose Unicode tables know nothing outside ASCII and the
    ideographs, whose [pow] always overflows and whose CSV writer accepts
    every table. *)
Definition plain_runtime : Runtime := {|
  unicode_decimal := fun _ => None;
  unicode_isdigit := fun _ => false;
  unicode_isspace := fun _ => false;
  unicode_lower := fun s => s;
  float_pow := fun _ _ => None;
  float_of_text := fun _ => None;
  rows_to_csv := fun _ => Ok [] |}.

(** A runtime whose power is exact for the exponent 1. *)
Definition unit_power_runtime : Runtime := {|
  unicode_decimal := fun _ => None;
  unicode_isdigit := fun _ => false;
  unicode_isspace := fun _ => false;
  unicode_lower := fun s => s;
  float_pow := fun x y => if (y =? 1)%float then Some (NFloat x) else None;
  float_of_text := fun _ => None;
  rows_to_csv := fun _ => Ok [] |}.

(** A runtime whose power always has a value. *)
Definition total_power_runtime : Runtime := {|
  unicode_decimal := fun _ => None;
  unicode_isdigit := fun _ => false;
  unicode_isspace := fun _ => false;
  unicode_lower := fun s => s;
  float_pow := fun x _ => Some (NFloat x);
  float_of_text := fun _ => None;
  rows_to_csv := fun _ => Ok [] |}.

Definition price (d : string) (c : float) : hist_row :=
  {| h_date := DateOk (utf8 d); h_close := Some c |}.

Definition event (d : string) (c : float) : DividendEvent :=
  {| ex_date := utf8 d; cash_per_share := c |}.

(** The ten cases of [run_tests]. *)
Definition parsing_cases : list (string * float) := [
  ("10派5元(含税)", 0.5);
  ("每10股派4.3元(含税)", 0.43);
  ("10送3股转2股派3元(含税)", 0.3);
  ("10派1.2元转4股", 0.12);
  ("每股派0.5元", 0.5);
  ("每股派息0.8元", 0.8);
  ("每10股派发现金红利5.5元", 0.55);
  ("不分配不转增", 0.0);
  ("10派0元", 0.0);
  ("每10股派  2 元", 0.2)
]%float.

Definition example_code : pystr := utf8 "600519".
Definition example_start : pystr := utf8 "2023-06-19".
Definition example_end : pystr := utf8 "2023-12-20".

(** The provider of the worked example: closes 10.0 and 12.0, one dividend
    of 0.5 inside the interval, 0.1 additional share per share. *)
Definition example_provider : Provider := {|
  today_str := utf8 "2024-06-03";
  stock_zh_a_hist := fun _ s _ =>
    if str_eqb s (utf8 "20230619") then Ok (Some [price "2023-06-19" 10])
    else if str_eqb s (utf8 "20231220") then Ok (Some [price "2023-12-20" 12])
    else Ok (Some [price "2023-06-19" 10; price "2023-12-20" 12]);
  get_dividends := fun _ =>
    Ok [ {| ex_date := utf8 "2023-06-19"; cash_per_share := 0.25 |};
         {| ex_date := utf8 "2023-12-20"; cash_per_share := 0.5 |} ];
  sum_additional_shares_in_interval := fun _ _ _ => Ok (0.1%float, 1, []);
  lookup_stock_name := fun _ => None;
  code_name_rows := [];
  spot_rows := [] |}.

(** The same stock with a start close of zero. *)
Definition zero_close_provider : Provider := {|
  today_str := utf8 "2024-06-03";
  stock_zh_a_hist := fun _ s _ =>
    if str_eqb s (utf8 "20230619") then Ok (Some [price "2023-06-19" 0])
    else Ok (Some [price "2023-12-20" 12]);
  get_dividends := fun _ => Ok [];
  sum_additional_shares_in_interval := fun _ _ _ => Ok (0%float, 0, []);
  lookup_stock_name := fun _ => None;
  code_name_rows := [];
  spot_rows := [] |}.

(** A stock first traded on 2023-03-01, asked for from 2019-01-01. *)
Definition newly_listed_provider : Provider := {|
  today_str := utf8 "2024-06-03";
  stock_zh_a_hist := fun _ _ _ =>
    Ok (Some [price "2023-03-02" 11; price "2023-03-01" 10; price "2023-03-03" 12]);
  get_dividends := fun _ => Ok [];
  sum_additional_shares_in_interval := fun _ _ _ => Ok (0%float, 0, []);
  lookup_stock_name := fun _ => None;
  code_name_rows := [];
  spot_rows := [] |}.

(** A stock that traded on the last two days, today included. *)
Definition trading_today_provider : Provider := {|
  today_str := utf8 "2024-06-03";
  stock_zh_a_hist := fun _ _ _ =>
    Ok (Some [price "2024-05-31" 10; price "2024-06-03" 11]);
  get_dividends := fun _ => Ok [];
  sum_additional_shares_in_interval := fun _ _ _ => Ok (0%float, 0, []);
  lookup_stock_name := fun _ => None;
  code_name_rows := [];
  spot_rows := [] |}.

(** Two stocks over January 2024: 600519 has its closes; 000001 has a
    history, but the one-day query for a close returns no row. *)
Definition half_failing_provider : Provider := {|
  today_str := utf8 "2024-06-03";
  stock_zh_a_hist := fun symbol s e =>
    if str_eqb symbol (utf8 "000001") && str_eqb s e then Ok (Some [])
    else Ok (Some [price "2024-01-02" 10; price "2024-01-31" 12]);
  get_dividends := fun _ => Ok [];
  sum_additional_shares_in_interval := fun _ _ _ => Ok (0%float, 0, []);
  lookup_stock_name := fun _ => None;
  code_name_rows := [];
  spot_rows := [] |}.

Definition january : AppConfig := {|
  stocks := [utf8 "600519"; utf8 "000001"];
  start_date := utf8 "2024-01-01";
  end_date := Some (utf8 "2024-01-31") |}.

Definition january_row (s_code : string) : row :=
  stock_row (RT := plain_runtime) (PV := half_failing_provider) january (utf8 s_code).

(** The worked example over a 365-day window. *)
Definition year_provider : Provider := {|
  today_str := utf8 "2024-07-01";
  stock_zh_a_hist := fun _ _ _ =>
    Ok (Some [price "2023-06-19" 10; price "2024-06-18" 12]);
  get_dividends := fun _ => Ok [event "2023-12-20" 0.5];
  sum_additional_shares_in_interval := fun _ _ _ => Ok (0.1%float, 1, []);
  lookup_stock_name := fun _ => None;
  code_name_rows := [];
  spot_rows := [] |}.

Definition one_year : AppConfig := {|
  stocks := [utf8 "600519"];
  start_date := utf8 "2023-06-19";
  end_date := Some (utf8 "2024-06-18") |}.

Definition one_year_row : row :=
  stock_row (RT := unit_power_runtime) (PV := year_provider) one_year (utf8 "600519").

(** A window of one day: start and end on 2024-01-02. *)
Definition one_day_provider : Provider := {|
  today_str := utf8 "2024-06-03";
  stock_zh_a_hist := fun _ _ _ => Ok (Some [price "2024-01-02" 10]);
  get_dividends := fun _ => Ok [];
  sum_additional_shares_in_interval := fun _ _ _ => Ok (0%float, 0, []);
  lookup_stock_name := fun _ => None;
  code_name_rows := [];
  spot_rows := [] |}.

Definition one_day : AppConfig := {|
  stocks := [utf8 "600519"];
  start_date := utf8 "2024-01-02";
  end_date := Some (utf8 "2024-01-02") |}.

Definition one_day_row : row :=
  stock_row (RT := total_power_runtime) (PV := one_day_provider) one_day (utf8 "600519").

(** A close that goes from 1 to 11 in one day. *)
Definition steep_provider : Provider := {|
  today_str := utf8 "2024-06-03";
  stock_zh_a_hist := fun _ s e =>
    if str_eqb s e
    then if str_eqb s (utf8 "20240102") then Ok (Some [price "2024-01-02" 1])
         else Ok (Some [price "2024-01-03" 11])
    else Ok (Some [price "2024-01-02" 1; price "2024-01-03" 11]);
  get_dividends := fun _ => Ok [];
  sum_additional_shares_in_interval := fun _ _ _ => Ok (0%float, 0, []);
  lookup_stock_name := fun _ => None;
  code_name_rows := [];
  spot_rows := [] |}.

Definition two_days : AppConfig := {|
  stocks := [utf8 "600519"];
  start_date := utf8 "2024-01-02";
  end_date := Some (utf8 "2024-01-03") |}.

Definition two_days_row : row :=
  stock_row (RT := plain_runtime) (PV := steep_provider) two_days (utf8 "600519").

(** A form whose stocks field holds a comma only, and a form whose stocks
    field is blank. *)
Definition comma_form : WebApp.form := {|
  WebApp.f_stocks := utf8 ",";
  WebApp.f_start_date := utf8 "2024-01-01";
  WebApp.f_end_date := [] |}.

Definition blank_form : WebApp.form := {|
  WebApp.f_stocks := utf8 "  ";
  WebApp.f_start_date := utf8 "2024-01-01";
  WebApp.f_end_date := [] |}.

(** A provider without any price history. *)
Definition silent_provider : Provider := {|
  today_str := utf8 "2024-06-03";
  stock_zh_a_hist := fun _ _ _ => Ok None;
  get_dividends := fun _ => Ok [];
  sum_additional_shares_in_interval := fun _ _ _ => Ok (0%float, 0, []);
  lookup_stock_name := fun _ => None;
  code_name_rows := [];
  spot_rows := [] |}.

(** A provider whose code-name list has two rows. *)
Definition listed_names_provider : Provider := {|
  today_str := utf8 "2024-06-03";
  stock_zh_a_hist := fun _ _ _ => Ok None;
  get_dividends := fun _ => Ok [];
  sum_additional_shares_in_interval := fun _ _ _ => Ok (0%float, 0, []);
  lookup_stock_name := fun _ => None;
  code_name_rows := [(utf8 "600519", utf8 " 贵州茅台 "); (utf8 "sz000001", utf8 "平安银行")];
  spot_rows := [] |}.

(** The stock of [zero_close_provider] from 2023-06-19 on. *)
Definition second_half : AppConfig := {|
  stocks := [utf8 "600519"];
  start_date := utf8 "2023-06-19";
  end_date := Some (utf8 "2023-12-20") |}.

(** A missing cell. *)
Definition na_cell : AkTables.cell :=
  {| AkTables.c_date := DateNaT; AkTables.c_number := nan; AkTables.c_text := utf8 "nan" |}.

(** A cell that holds a date. *)
Definition date_value (s : string) : AkTables.cell :=
  {| AkTables.c_date := DateOk (utf8 s); AkTables.c_number := nan;
     AkTables.c_text := utf8 s |}.

(** A cell that holds a number, with its text. *)
Definition number_value (v : float) (s : string) : AkTables.cell :=
  {| AkTables.c_date := DateOk (utf8 "1970-01-01"); AkTables.c_number := v;
     AkTables.c_text := utf8 s |}.

(** A row given by its cells. *)
Definition table_row (cells : list (string * AkTables.cell)) : pystr -> AkTables.cell :=
  fun col =>
    match List.find (fun p => str_eqb col (utf8 (fst p))) cells with
    | Some p => snd p
    | None => na_cell
    end.

(** The plan of 2015: one bonus share and 43.74 yuan for ten shares. *)
Definition plan_2015 : pystr -> AkTables.cell :=
  table_row [("送股", number_value 1 "1.0"); ("转增", number_value 0 "0.0");
             ("派息", number_value 43.74 "43.74");
             ("除权除息日", date_value "2015-07-17")]%string.

(** The plan of 2023: 259.11 yuan for ten shares. *)
Definition plan_2023 : pystr -> AkTables.cell :=
  table_row [("送股", number_value 0 "0.0"); ("转增", number_value 0 "0.0");
             ("派息", number_value 259.11 "259.11");
             ("除权除息日", date_value "2023-06-30")]%string.

Definition dividend_detail : AkTables.frame :=
  {| AkTables.columns := [utf8 "送股"; utf8 "转增"; utf8 "派息"; utf8 "除权除息日"];
     AkTables.rows := [plan_2015; plan_2023] |}.

(** Tables with one dividend table, no allotment and no second source; the
    sum of a group from the left, and the two amounts of shares the table
    needs written with four decimals. *)
Definition sina_tables : AkTables.Tables := {|
  AkTables.stock_history_dividend_detail := fun _ indicator =>
    if str_eqb indicator (utf8 "分红") then Ok (Some dividend_detail) else Ok None;
  AkTables.stock_fhps_detail_ths := fun _ => Raise (utf8 "no table");
  AkTables.group_sum := float_sum 0;
  AkTables.format_4f := fun x =>
    if (x =? 0)%float then utf8 "0.0000" else utf8 "0.1000" |}.

(** The computation of the application, which does not raise. *)
Definition app_compute `{RT : Runtime} `{PV : Provider}
    : list pystr -> pystr -> option pystr -> outcome (list row) :=
  fun codes start_date end_date => Ok (GuiApp.compute_for_codes codes start_date end_date).

(* ===================================================================== *)
(** * Properties                                                          *)
(* ===================================================================== *)

(** ** Total return (C1) *)

Section TotalReturn.
Context `{RT : Runtime} `{PV : Provider}.

Lemma total_return_formula_nonzero (sc ec ds av : float) :
  (sc =? 0)%float = false ->
  total_return_formula sc ec ds av = Ok ((ec + ds + av - sc) / sc)%float.
Proof.
  intros Hsc. unfold total_return_formula, float_div. now rewrite Hsc.
Qed.

Lemma total_return_formula_zero (sc ec ds av : float) :
  (sc =? 0)%float = true ->
  total_return_formula sc ec ds av = Raise (utf8 "float division by zero").
Proof.
  intros Hsc. unfold total_return_formula, float_div. now rewrite Hsc.
Qed.

End TotalReturn.

(** C1 (as amended): when the two closes, the dividends and the additional
    shares are found and the start close is not zero,
    [compute_interval_total_return] returns a result whose additional value
    is [end_close * additional_shares] and whose total return is
    [(end_close + div_sum + additional_value - start_close) / start_close],
    each operation being the binary64 one. *)
Theorem compute_interval_total_return_formula `{RT : Runtime} `{PV : Provider}
    (code s e : pystr) (sc ec a : float) (evs : list DividendEvent)
    (n : Z) (desc : pystr) :
  get_unadjusted_close_on code s = Ok sc ->
  get_unadjusted_close_on code e = Ok ec ->
  get_dividends code = Ok evs ->
  sum_additional_shares_in_interval code s e = Ok (a, n, desc) ->
  (sc =? 0)%float = false ->
  exists res,
    compute_interval_total_return code s e = Ok res
    /\ start_close res = sc
    /\ end_close res = ec
    /\ dividend_sum_per_share res = fst (sum_cash_dividends_in_interval evs s e)
    /\ additional_shares_per_share res = a
    /\ additional_value_per_share res = (ec * a)%float
    /\ total_return res =
         ((ec + fst (sum_cash_dividends_in_interval evs s e) + ec * a - sc) / sc)%float.
Proof.
  intros Hs He Hd Ha Hsc.
  unfold compute_interval_total_return.
  rewrite Hs, He, Hd. cbn [mbind outcome_bind].
  destruct (sum_cash_dividends_in_interval evs s e) as [div_sum div_count] eqn:Hsum.
  rewrite Ha. cbn [mbind outcome_bind].
  rewrite total_return_formula_nonzero by exact Hsc.
  cbn [mbind outcome_bind].
  eexists. split; [reflexivity|]. cbn. repeat split; reflexivity.
Qed.

(** The worked example of the specification, through the theorem: the
    additional value is 1.2000000000000002 and the total return
    0.36999999999999994, each within 1e-9 of the decimal figure. *)
Lemma compute_interval_total_return_example :
  exists res,
    compute_interval_total_return (RT := plain_runtime) (PV := example_provider)
      example_code example_start example_end = Ok res
    /\ start_close res = 10%float /\ end_close res = 12%float
    /\ dividend_sum_per_share res = 0.5%float
    /\ additional_shares_per_share res = 0.1%float
    /\ additional_value_per_share res = 1.2000000000000002%float
    /\ total_return res = 0.36999999999999994%float
    /\ (abs (additional_value_per_share res - 1.2) <=? 1e-9)%float = true
    /\ (abs (total_return res - 0.37) <=? 1e-9)%float = true.
Proof.
  destruct (compute_interval_total_return_formula
              (RT := plain_runtime) (PV := example_provider)
              example_code example_start example_end 10%float 12%float 0.1%float
              [ {| ex_date := utf8 "2023-06-19"; cash_per_share := 0.25 |};
                {| ex_date := utf8 "2023-12-20"; cash_per_share := 0.5 |} ]
              1 [] eq_refl eq_refl eq_refl eq_refl eq_refl)
    as (res & Hres & Hsc & Hec & Hds & Has & Hav & Htr).
  exists res. rewrite Hsc, Hec, Hds, Has, Hav, Htr.
  split; [exact Hres|].
  repeat split; vm_compute; reflexivity.
Defined.

(** C1 as stated fails: in the worked example the additional value is not
    1.2 and the total return is not 0.37, and a start close of zero makes
    the function raise although every lookup succeeded. *)
Lemma total_return_not_exact :
  (exists res,
     compute_interval_total_return (RT := plain_runtime) (PV := example_provider)
       example_code example_start example_end = Ok res
     /\ start_close res = 10%float /\ end_close res = 12%float
     /\ dividend_sum_per_share res = 0.5%float
     /\ additional_shares_per_share res = 0.1%float
     /\ additional_value_per_share res <> 1.2%float
     /\ total_return res <> 0.37%float)
  /\ get_unadjusted_close_on (RT := plain_runtime) (PV := zero_close_provider)
       example_code example_start = Ok 0%float
  /\ get_unadjusted_close_on (RT := plain_runtime) (PV := zero_close_provider)
       example_code example_end = Ok 12%float
  /\ compute_interval_total_return (RT := plain_runtime) (PV := zero_close_provider)
       example_code example_start example_end
     = Raise (utf8 "float division by zero").
Proof.
  split.
  - eexists. split; [vm_compute; reflexivity|].
    repeat split; try (vm_compute; reflexivity).
    + intros H. apply (f_equal (fun x => (x =? 1.2)%float)) in H.
      vm_compute in H. discriminate H.
    + intros H. apply (f_equal (fun x => (x =? 0.37)%float)) in H.
      vm_compute in H. discriminate H.
  - repeat split; vm_compute; reflexivity.
Qed.

(** ** Dividends of an interval (C4) *)

Lemma str_ltb_lt (a b : pystr) : str_ltb a b = true <-> str_lt a b.
Proof.
  unfold str_ltb, str_lt. destruct (str_compare a b); split; congruence.
Qed.

Lemma str_leb_le (a b : pystr) : str_leb a b = true <-> str_le a b.
Proof.
  unfold str_leb, str_le. destruct (str_compare a b); split; congruence.
Qed.

Lemma in_interval_within (s e d : pystr) : in_interval s e d = true <-> within s e d.
Proof.
  unfold in_interval, within.
  rewrite andb_true_iff, str_ltb_lt, str_leb_le. reflexivity.
Qed.

Lemma sum_cash_dividends_loop_spec (events : list DividendEvent) (s e : pystr)
    (total : float) (count : Z) :
  sum_cash_dividends_loop events s e total count
  = (float_sum total (cash_per_share <$> interval_events events s e),
     count + Z.of_nat (length (interval_events events s e))).
Proof.
  revert total count.
  induction events as [|ev events IH]; intros total count; cbn [sum_cash_dividends_loop].
  - cbn. f_equal. lia.
  - unfold interval_events in *.
    destruct (in_interval s e (ex_date ev)) eqn:Hin.
    + apply in_interval_within in Hin.
      rewrite filter_cons_True by exact Hin.
      rewrite IH. cbn. f_equal. lia.
    + assert (~ within s e (ex_date ev)) as Hout.
      { rewrite <- in_interval_within. congruence. }
      rewrite filter_cons_False by exact Hout.
      apply IH.
Qed.

(** C4: [sum_cash_dividends_in_interval] returns the sum of the cash
    amounts, and the number, of exactly the events with
    [start_trade_date < ex_date <= end_trade_date]; of two events on
    2023-06-19 and 2023-12-20, over (2023-06-19, 2023-12-20], only the
    December one is counted. *)
Theorem sum_cash_dividends_in_interval_spec :
  (forall (events : list DividendEvent) (s e : pystr),
     sum_cash_dividends_in_interval events s e
     = (float_sum 0 (cash_per_share <$> interval_events events s e),
        Z.of_nat (length (interval_events events s e)))
     /\ (forall ev, ev ∈ interval_events events s e
                    <-> ev ∈ events /\ str_lt s (ex_date ev) /\ str_le (ex_date ev) e))
  /\ (forall june december : float,
        let events := [event "2023-06-19" june; event "2023-12-20" december] in
        interval_events events (utf8 "2023-06-19") (utf8 "2023-12-20")
          = [event "2023-12-20" december]
        /\ sum_cash_dividends_in_interval events (utf8 "2023-06-19") (utf8 "2023-12-20")
          = ((0 + december)%float, 1)).
Proof.
  split.
  - intros events s e. split.
    + unfold sum_cash_dividends_in_interval.
      rewrite sum_cash_dividends_loop_spec. f_equal.
    + intros ev. unfold interval_events. rewrite list_elem_of_filter.
      unfold within. tauto.
  - intros june december events. split; reflexivity.
Qed.

(** ** The literal cases of the text parser (C2) *)

(** C2: on each of the ten literal inputs [_parse_cash_per_share_from_text]
    returns the expected amount within 1e-9, whatever the runtime's Unicode
    tables are; the blanks of the last input are removed before matching. *)
Theorem parse_cash_literal_cases `{RT : Runtime} :
  Forall (fun c => approx_equal_1e9
                     (_parse_cash_per_share_from_text (utf8 (fst c))) (snd c) = true)
         parsing_cases
  /\ normalize_plan_text (utf8 "每10股派  2 元") = utf8 "每10股派2元".
Proof.
  split.
  - repeat constructor; vm_compute; reflexivity.
  - vm_compute. reflexivity.
Qed.

(** ** The order on dates and the sorted date set *)

Lemma str_compare_refl (a : pystr) : str_compare a a = Eq.
Proof.
  induction a as [|x a IH]; cbn; [reflexivity|].
  now rewrite Z.compare_refl.
Qed.

Lemma str_compare_eq (a b : pystr) : str_compare a b = Eq -> a = b.
Proof.
  revert b. induction a as [|x a IH]; intros [|y b]; cbn; try discriminate; auto.
  destruct (x ?= y) eqn:Hxy; try discriminate.
  apply Z.compare_eq in Hxy. intros H. f_equal; auto.
Qed.

Lemma str_compare_antisym (a b : pystr) :
  str_compare b a = CompOpp (str_compare a b).
Proof.
  revert b. induction a as [|x a IH]; intros [|y b]; cbn; try reflexivity.
  rewrite (Z.compare_antisym x y).
  destruct (x ?= y); cbn; auto.
Qed.

Lemma str_lt_trans (a b c : pystr) : str_lt a b -> str_lt b c -> str_lt a c.
Proof.
  unfold str_lt. revert b c.
  induction a as [|x a IH]; intros [|y b] [|z c]; cbn; try discriminate; auto.
  destruct (x ?= y) eqn:Hxy; try discriminate;
    destruct (y ?= z) eqn:Hyz; try discriminate; intros H1 H2.
  - apply Z.compare_eq in Hxy, Hyz. subst. rewrite Z.compare_refl. eauto.
  - apply Z.compare_eq in Hxy. subst. now rewrite Hyz.
  - apply Z.compare_eq in Hyz. subst. now rewrite Hxy.
  - assert ((x ?= z) = Lt) as ->; [|reflexivity].
    rewrite Z.compare_lt_iff in *. lia.
Qed.

Lemma str_lt_irrefl (a : pystr) : ~ str_lt a a.
Proof. unfold str_lt. now rewrite str_compare_refl. Qed.

Lemma str_lt_gt (a b : pystr) : str_lt a b <-> str_compare b a = Gt.
Proof.
  unfold str_lt. rewrite (str_compare_antisym a b).
  destruct (str_compare a b); cbn; split; congruence.
Qed.

Lemma str_le_lt_eq (a b : pystr) : str_le a b <-> str_lt a b \/ a = b.
Proof.
  unfold str_le, str_lt. split.
  - destruct (str_compare a b) eqn:H; try congruence; auto.
    right. now apply str_compare_eq.
  - intros [H| ->]; [congruence|]. now rewrite str_compare_refl.
Qed.

Lemma str_le_refl (a : pystr) : str_le a a.
Proof. apply str_le_lt_eq. now right. Qed.

Lemma str_lt_le (a b : pystr) : str_lt a b -> str_le a b.
Proof. intros. apply str_le_lt_eq. now left. Qed.

Lemma str_lt_le_trans (a b c : pystr) : str_lt a b -> str_le b c -> str_lt a c.
Proof.
  intros Hab [Hbc| ->]%str_le_lt_eq; [|exact Hab]. eapply str_lt_trans; eauto.
Qed.

Lemma str_le_lt_trans (a b c : pystr) : str_le a b -> str_lt b c -> str_lt a c.
Proof.
  intros [Hab| ->]%str_le_lt_eq Hbc; [|exact Hbc]. eapply str_lt_trans; eauto.
Qed.

Lemma str_le_trans (a b c : pystr) : str_le a b -> str_le b c -> str_le a c.
Proof.
  intros [Hab| ->]%str_le_lt_eq Hbc; [|exact Hbc].
  apply str_lt_le. eapply str_lt_le_trans; eauto.
Qed.

Lemma str_ltb_false_le (a b : pystr) : str_ltb a b = false <-> str_le b a.
Proof.
  unfold str_ltb, str_le. rewrite (str_compare_antisym a b).
  destruct (str_compare a b); cbn; split; congruence.
Qed.

Lemma str_eqb_eq (a b : pystr) : str_eqb a b = true <-> a = b.
Proof.
  unfold str_eqb. split.
  - destruct (str_compare a b) eqn:H; try discriminate.
    intros _. now apply str_compare_eq.
  - intros ->. now rewrite str_compare_refl.
Qed.

Lemma insert_sorted_elem (d x : pystr) (l : list pystr) :
  x ∈ insert_sorted d l <-> x = d \/ x ∈ l.
Proof.
  induction l as [|y l IH]; cbn.
  - rewrite list_elem_of_singleton. rewrite elem_of_nil. tauto.
  - destruct (str_compare d y) eqn:Hc.
    + apply str_compare_eq in Hc. subst. rewrite elem_of_cons. tauto.
    + rewrite !elem_of_cons. tauto.
    + rewrite !elem_of_cons, IH. tauto.
Qed.

Lemma insert_sorted_ascending (d : pystr) (l : list pystr) :
  ascending l -> ascending (insert_sorted d l).
Proof.
  unfold ascending. induction 1 as [|y l Hl IH Hy]; cbn.
  - repeat constructor.
  - destruct (str_compare d y) eqn:Hc.
    + now constructor.
    + constructor; [now constructor|].
      constructor; [exact Hc|].
      eapply Forall_impl; [exact Hy|]. intros z Hz. eapply str_lt_trans; eauto.
    + constructor; [exact IH|].
      apply Forall_forall. intros z [->|Hz]%insert_sorted_elem.
      * now apply str_lt_gt.
      * rewrite Forall_forall in Hy. auto.
Qed.

Lemma sorted_set_ascending (l : list pystr) : ascending (sorted_set l).
Proof.
  induction l as [|d l IH]; cbn.
  - constructor.
  - now apply insert_sorted_ascending.
Qed.

Lemma sorted_set_elem (x : pystr) (l : list pystr) : x ∈ sorted_set l <-> x ∈ l.
Proof.
  induction l as [|d l IH]; cbn; [reflexivity|].
  rewrite insert_sorted_elem, elem_of_cons, IH. reflexivity.
Qed.

Lemma ascending_head_le (f : pystr) (rest : list pystr) (d : pystr) :
  ascending (f :: rest) -> d ∈ f :: rest -> str_le f d.
Proof.
  intros Hs [->|Hd]%elem_of_cons; [apply str_le_refl|].
  apply StronglySorted_inv in Hs as [_ Hall].
  rewrite Forall_forall in Hall. apply str_lt_le. auto.
Qed.

Lemma ascending_filter (P : pystr -> Prop) `{forall x, Decision (P x)}
    (l : list pystr) :
  ascending l -> ascending (filter P l).
Proof.
  unfold ascending. induction 1 as [|y l Hl IH Hy]; [constructor|].
  rewrite filter_cons. destruct (decide (P y)); [|exact IH].
  constructor; [exact IH|].
  apply Forall_forall. intros z [_ Hz]%list_elem_of_filter.
  rewrite Forall_forall in Hy. auto.
Qed.

Lemma last_elem (l : list pystr) (x : pystr) : last l = Some x -> x ∈ l.
Proof.
  intros H. apply last_Some in H as [l' ->]. apply elem_of_app. right.
  apply list_elem_of_singleton. reflexivity.
Qed.

Lemma str_leb_Is_true (a b : pystr) : Is_true (str_leb a b) <-> str_le a b.
Proof. rewrite Is_true_true. apply str_leb_le. Qed.

Lemma str_ltb_Is_true (a b : pystr) : Is_true (str_ltb a b) <-> str_lt a b.
Proof. rewrite Is_true_true. apply str_ltb_lt. Qed.

Lemma filter_all {A} (P : A -> Prop) `{forall x, Decision (P x)} (l : list A) :
  (forall x, x ∈ l -> P x) -> filter P l = l.
Proof.
  induction l as [|x l IH]; intros Hall; [reflexivity|].
  rewrite filter_cons_True by (apply Hall; left).
  f_equal. apply IH. intros y Hy. apply Hall. now right.
Qed.

(** Literal texts, evaluated. *)
Ltac eval_utf8 :=
  repeat match goal with
  | |- context [utf8 ?s] =>
    let l := eval vm_compute in (utf8 s) in
    replace (utf8 s) with l by (vm_compute; reflexivity)
  end.

(** ** The trading window (C5, C6) *)

Section TradeWindow.
Context `{RT : Runtime} `{PV : Provider}.

(** What a returned window of the own-history branch is made of. *)
Lemma derive_from_own_inv (code start : pystr) (end_ : option pystr)
    (dates : list pystr) (s e : pystr) :
  derive_from_own code start end_ dates = Ok (s, e) ->
  exists latest,
    head (filter (fun d => str_leb start d) dates) = Some s
    /\ last (filter (fun d => str_leb d (end_or_today end_)) dates) = Some latest
    /\ e = previous_if_today end_
             (filter (fun d => str_leb d (end_or_today end_)) dates) latest
    /\ str_le s e.
Proof.
  unfold derive_from_own. destruct dates as [|d0 dates]; [discriminate|].
  destruct (filter (fun d => str_leb start d) (d0 :: dates)) as [|s0 sc];
    [discriminate|].
  destruct (last (filter _ (d0 :: dates))) as [latest|]; [|discriminate].
  destruct (str_ltb _ s0) eqn:Hlt; [discriminate|].
  intros [= <- <-]. exists latest. repeat split. now apply str_ltb_false_le.
Qed.

(** When the own-history branch returns. *)
Lemma derive_from_own_ok (code start : pystr) (end_ : option pystr)
    (dates : list pystr) (s latest : pystr) :
  head (filter (fun d => str_leb start d) dates) = Some s ->
  last (filter (fun d => str_leb d (end_or_today end_)) dates) = Some latest ->
  str_le s (previous_if_today end_
              (filter (fun d => str_leb d (end_or_today end_)) dates) latest) ->
  derive_from_own code start end_ dates
  = Ok (s, previous_if_today end_
             (filter (fun d => str_leb d (end_or_today end_)) dates) latest).
Proof.
  intros Hs Hl Hle. unfold derive_from_own.
  destruct dates as [|d0 dates]; [discriminate|].
  destruct (filter (fun d => str_leb start d) (d0 :: dates)) as [|s0 sc];
    [discriminate|].
  injection Hs as ->. rewrite Hl.
  apply str_ltb_false_le in Hle. now rewrite Hle.
Qed.

Lemma previous_if_today_elem (end_ : option pystr) (l : list pystr) (latest : pystr) :
  last l = Some latest -> previous_if_today end_ l latest ∈ l.
Proof.
  intros Hl. unfold previous_if_today.
  destruct end_; [now apply last_elem|].
  destruct (_ && _); [|now apply last_elem].
  unfold second_to_last.
  destruct (last (removelast l)) as [x|] eqn:Hx; cbn; [|now apply last_elem].
  apply last_Some in Hx as [l' Hx].
  apply last_Some in Hl as [l'' ->].
  rewrite removelast_last in Hx. subst. set_solver.
Qed.

Lemma derive_own_history (code start : pystr) (end_ : option pystr)
    (rows : list hist_row) (first : pystr) (rest : list pystr) :
  get_hist_unadjusted_range code start end_ = Ok (Some rows) ->
  trade_dates_of rows = first :: rest ->
  derive_trade_window_from_prices code start end_
  = derive_from_own code start end_ (first :: rest).
Proof.
  intros Hh Hd.
  unfold derive_trade_window_from_prices. rewrite Hh. cbn [mbind outcome_bind].
  destruct rows as [|r rows]; [discriminate Hd|]. now rewrite Hd.
Qed.

End TradeWindow.

(** C5: for a stock whose own history over the requested window is not
    empty and whose first trading day is after the requested start date,
    a window [derive_trade_window_from_prices] returns starts on that first
    trading day (not on the requested date); the function never raises its
    "no trading date on/after start_date" error; and it does return when the
    history lies within the requested window (no day after the end
    boundary). *)
Theorem derive_window_newly_listed `{RT : Runtime} `{PV : Provider}
    (code start : pystr) (end_ : option pystr)
    (rows : list hist_row) (first : pystr) (rest : list pystr) :
  get_hist_unadjusted_range code start end_ = Ok (Some rows) ->
  trade_dates_of rows = first :: rest ->
  str_lt start first ->
  (forall s e, derive_trade_window_from_prices code start end_ = Ok (s, e) ->
               s = first /\ s <> start)
  /\ derive_trade_window_from_prices code start end_
     <> Raise (utf8 "No trading date on/after start_date " ++ start
                 ++ utf8 " for " ++ code ++ utf8 ".")
  /\ ((forall d, d ∈ first :: rest -> str_le d (end_or_today end_)) ->
      exists e, derive_trade_window_from_prices code start end_ = Ok (first, e)).
Proof.
  intros Hh Hd Hlt.
  rewrite (derive_own_history _ _ _ _ _ _ Hh Hd).
  assert (filter (fun d => str_leb start d) (first :: rest)
          = first :: filter (fun d => str_leb start d) rest) as Hsc.
  { apply filter_cons_True. apply str_leb_Is_true. now apply str_lt_le. }
  split; [|split].
  - intros s e (latest & Hs & _)%derive_from_own_inv.
    rewrite Hsc in Hs. injection Hs as <-. split; [reflexivity|].
    intros ->. now apply str_lt_irrefl in Hlt.
  - unfold derive_from_own. rewrite Hsc.
    destruct (last _); [|eval_utf8; cbn [app]; discriminate].
    destruct (str_ltb _ _); [|discriminate].
    unfold window_error. eval_utf8. cbn [app]. discriminate.
  - intros Hwin.
    assert (ascending (first :: rest)) as Hasc.
    { rewrite <- Hd. apply sorted_set_ascending. }
    assert (filter (fun d => str_leb d (end_or_today end_)) (first :: rest)
            = first :: rest) as Hec.
    { apply filter_all. intros d Hin. apply str_leb_Is_true. auto. }
    destruct (last (first :: rest)) as [latest|] eqn:Hlast;
      [|apply last_None in Hlast; discriminate].
    eexists. apply derive_from_own_ok with (latest := latest).
    + now rewrite Hsc.
    + now rewrite Hec.
    + rewrite Hec. apply (ascending_head_le first rest); [exact Hasc|].
      now apply previous_if_today_elem.
Qed.

(** The theorem at work: the window of the newly listed stock starts on
    2023-03-01. *)
Lemma derive_window_newly_listed_example :
  exists e,
    derive_trade_window_from_prices (RT := plain_runtime) (PV := newly_listed_provider)
      example_code (utf8 "2019-01-01") (Some (utf8 "2023-12-29"))
    = Ok (utf8 "2023-03-01", e).
Proof.
  refine (proj2 (proj2 (derive_window_newly_listed
    (RT := plain_runtime) (PV := newly_listed_provider)
    example_code (utf8 "2019-01-01") (Some (utf8 "2023-12-29"))
    [price "2023-03-02" 11; price "2023-03-01" 10; price "2023-03-03" 12]
    (utf8 "2023-03-01") [utf8 "2023-03-02"; utf8 "2023-03-03"]
    eq_refl eq_refl eq_refl)) _).
  intros d Hd. apply str_leb_le.
  repeat (apply elem_of_cons in Hd as [->|Hd]; [vm_compute; reflexivity|]).
  now apply elem_of_nil in Hd.
Defined.

Section DefaultEnd.
Context `{RT : Runtime} `{PV : Provider}.

Lemma fallback_dates_ascending syms start end_ :
  ascending (fallback_dates syms start end_).
Proof.
  induction syms as [|sym syms IH]; cbn [fallback_dates]; [constructor|].
  destruct (stock_zh_a_hist _ _ _) as [[[|r rows]|]|]; try exact IH.
  destruct (trade_dates_of (r :: rows)) as [|d ds] eqn:Hd; [exact IH|].
  rewrite <- Hd. apply sorted_set_ascending.
Qed.

Lemma window_dates_ascending code start end_ :
  ascending (window_dates code start end_).
Proof.
  unfold window_dates.
  destruct (get_hist_unadjusted_range _ _ _) as [[[|r rows]|]|];
    try apply fallback_dates_ascending; try apply sorted_set_ascending.
  constructor.
Qed.

Lemma derive_window_dates code start end_ :
  derive_trade_window_from_prices code start end_
  = match get_hist_unadjusted_range code start end_ with
    | Ok (Some (r :: rows)) =>
      derive_from_own code start end_ (window_dates code start end_)
    | Ok _ => derive_from_calendar code start end_ (window_dates code start end_)
    | Raise m => Raise m
    end.
Proof.
  unfold derive_trade_window_from_prices, window_dates.
  destruct (get_hist_unadjusted_range _ _ _) as [[[|r rows]|]|]; reflexivity.
Qed.

Lemma two_elems_length (l : list pystr) (d1 d2 : pystr) :
  d1 ∈ l -> d2 ∈ l -> d1 <> d2 -> (2 <= length l)%nat.
Proof.
  destruct l as [|a [|b l]]; cbn; intros H1 H2 Hne; try lia.
  - now apply elem_of_nil in H1.
  - apply list_elem_of_singleton in H1, H2. congruence.
Qed.

(** The loop of [get_default_end_trade_date]. *)
Lemma default_end_loop_lt today prev l x :
  (forall p, prev = Some p -> str_lt p today) ->
  get_default_end_trade_date_loop today prev l = Some x -> str_lt x today.
Proof.
  revert prev. induction l as [|d l IH]; intros prev Hprev; cbn.
  - auto.
  - destruct (str_ltb d today) eqn:Hd; [|auto].
    apply IH. intros p [= ->]. now apply str_ltb_lt.
Qed.

Lemma default_end_loop_elem today l x :
  get_default_end_trade_date_loop today None l = Some x -> x ∈ l.
Proof.
  assert (forall prev, (forall p, prev = Some p -> p ∈ l) ->
            forall l', (forall y, y ∈ l' -> y ∈ l) ->
            get_default_end_trade_date_loop today prev l' = Some x -> x ∈ l) as Hgen.
  { intros prev Hprev l'. revert prev Hprev.
    induction l' as [|d l' IH]; intros prev Hprev Hsub; cbn; [auto|].
    destruct (str_ltb d today); [|auto].
    apply IH.
    - intros p [= <-]. apply Hsub. now left.
    - intros y Hy. apply Hsub. now right. }
  apply (Hgen None); [discriminate|auto].
Qed.

Lemma default_end_loop_some today p l :
  is_Some (get_default_end_trade_date_loop today (Some p) l).
Proof.
  revert p. induction l as [|d l IH]; intros p; cbn; [eauto|].
  destruct (str_ltb d today); eauto.
Qed.

Lemma default_end_before_today dates :
  ascending dates -> two_days_by_today dates ->
  exists d, get_default_end_trade_date dates = Ok d /\ str_lt d today_str /\ d ∈ dates.
Proof.
  intros Hasc (d1 & d2 & H1 & H2 & Hne & Hl1 & Hl2).
  destruct dates as [|h rest]; [now apply elem_of_nil in H1|].
  assert (str_lt h today_str) as Hh.
  { pose proof (ascending_head_le h rest d1 Hasc H1) as Hhd1.
    pose proof (ascending_head_le h rest d2 Hasc H2) as Hhd2.
    apply str_le_lt_eq in Hhd1 as [Hlt| ->].
    - eapply str_lt_le_trans; eauto.
    - apply str_le_lt_eq in Hhd2 as [Hlt| ->]; [|congruence].
      eapply str_lt_le_trans; eauto. }
  unfold get_default_end_trade_date.
  destruct (get_default_end_trade_date_loop today_str None (h :: rest)) as [d|] eqn:Hloop.
  - exists d. split; [reflexivity|]. split.
    + eapply default_end_loop_lt; [|exact Hloop]. discriminate.
    + eapply default_end_loop_elem; eauto.
  - cbn in Hloop. apply str_ltb_lt in Hh. rewrite Hh in Hloop.
    destruct (default_end_loop_some today_str h rest) as [x Hx]. congruence.
Qed.

(** The step back on the stock's own dates ends before today. *)
Lemma previous_if_today_lt (ec : list pystr) (latest : pystr) :
  ascending ec -> (2 <= length ec)%nat ->
  last ec = Some latest -> str_le latest today_str ->
  str_lt (previous_if_today None ec latest) today_str.
Proof.
  intros Hasc Hlen Hlast Hle. unfold previous_if_today.
  destruct (str_eqb latest today_str) eqn:Heq; cbn [andb].
  - apply str_eqb_eq in Heq. subst latest.
    apply Nat.leb_le in Hlen. rewrite Hlen.
    apply last_Some in Hlast as [l' ->].
    unfold second_to_last. rewrite removelast_last.
    destruct (last l') as [x|] eqn:Hx.
    + cbn. apply (StronglySorted_app_1_elem_of str_lt l' [today_str]); [exact Hasc| |left].
      now apply last_elem.
    + apply last_None in Hx. subst l'. cbn in Hlen. discriminate.
  - apply str_le_lt_eq in Hle as [Hlt|Heq']; [exact Hlt|].
    apply str_eqb_eq in Heq'. congruence.
Qed.

(** C6: when no end date is given and the fetched window holds at least
    two trading days (none after today), the end of a window
    [derive_trade_window_from_prices] returns is strictly before today, on
    the stock's own history and on the reference-stock calendar alike; and
    when every fetched day lies between the start date and today the
    function does return such a window. *)
Theorem derive_default_end_before_today (code start : pystr) :
  two_days_by_today (window_dates code start None) ->
  (forall s e, derive_trade_window_from_prices code start None = Ok (s, e) ->
               str_lt e today_str)
  /\ ((forall d, d ∈ window_dates code start None -> str_le start d /\ str_le d today_str) ->
      exists s e, derive_trade_window_from_prices code start None = Ok (s, e)
                  /\ str_lt e today_str).
Proof.
  intros Htwo.
  pose proof (window_dates_ascending code start None) as Hasc.
  rewrite derive_window_dates.
  assert (Hdates := Htwo). destruct Hdates as (d1 & d2 & H1 & H2 & Hne & Hl1 & Hl2).
  set (dates := window_dates code start None) in *.
  set (ec := filter (fun d => str_leb d (end_or_today None)) dates).
  assert (ascending ec) as Hec_asc by now apply ascending_filter.
  assert ((2 <= length ec)%nat) as Hec_len.
  { apply (two_elems_length ec d1 d2); [| |exact Hne];
      apply list_elem_of_filter; split; auto; now apply str_leb_Is_true. }
  assert (forall latest, last ec = Some latest -> str_le latest today_str) as Hlatest.
  { intros latest Hl%last_elem. apply list_elem_of_filter in Hl as [Hl _].
    now apply str_leb_Is_true in Hl. }
  destruct (default_end_before_today dates Hasc Htwo) as (dflt & Hdflt & Hdflt_lt & Hdflt_in).
  split.
  - intros s e.
    unfold window_dates in dates.
    destruct (get_hist_unadjusted_range code start None) as [[[|r rows]|]|] eqn:Hh.
    2: { fold dates. intros (latest & _ & Hl & -> & _)%derive_from_own_inv.
         fold ec in Hl |- *. apply previous_if_today_lt; auto. }
    3: { intros [=]. }
    all: unfold derive_from_calendar; fold dates;
      (destruct dates as [|h rest]; [intros [=]|]);
      (destruct (pick_start_trade_date start (h :: rest)) as [s0|m];
         cbn [mbind outcome_bind truthy]; [|intros [=]]);
      rewrite Hdflt; cbn [mbind outcome_bind];
      (destruct (str_ltb dflt s0); [intros [=]|]); now intros [= <- <-].
  - intros Hwin.
    assert (forall h rest, dates = h :: rest -> str_le start h /\ forall d, d ∈ dates -> str_le h d) as Hhead.
    { intros h rest Heq. split.
      - apply Hwin. rewrite Heq. left.
      - intros d Hd. rewrite Heq in Hd, Hasc. eapply ascending_head_le; eauto. }
    unfold window_dates in dates.
    destruct (get_hist_unadjusted_range code start None) as [[[|r rows]|]|] eqn:Hh.
    2: { fold dates.
      destruct dates as [|h rest] eqn:Hd; [now apply elem_of_nil in H1|].
      destruct (Hhead h rest eq_refl) as [Hsh Hmin].
      destruct (last ec) as [latest|] eqn:Hlast.
      2: { apply last_None in Hlast. rewrite Hlast in Hec_len. cbn in Hec_len. lia. }
      exists h, (previous_if_today None ec latest). split.
      * apply derive_from_own_ok; [|exact Hlast|].
        -- rewrite filter_cons_True by now apply str_leb_Is_true. reflexivity.
        -- apply Hmin. apply (previous_if_today_elem None) in Hlast.
           apply list_elem_of_filter in Hlast. tauto.
      * apply previous_if_today_lt; auto. }
    3: { now apply elem_of_nil in H1. }
    all: fold dates; unfold derive_from_calendar;
      (destruct dates as [|h rest] eqn:Hd; [now apply elem_of_nil in H1|]);
      destruct (Hhead h rest eq_refl) as [Hsh Hmin];
      unfold pick_start_trade_date; cbn [pick_start_trade_date_loop];
      apply str_leb_le in Hsh; rewrite Hsh; cbn [mbind outcome_bind truthy];
      rewrite Hdflt; cbn [mbind outcome_bind];
      apply Hmin in Hdflt_in; apply str_ltb_false_le in Hdflt_in; rewrite Hdflt_in;
      eauto.
Qed.
End DefaultEnd.

(** The theorem at work: with trading days 2024-05-31 and 2024-06-03 and
    today 2024-06-03, the window ends before today. *)
Lemma derive_default_end_before_today_example :
  exists s e,
    derive_trade_window_from_prices (RT := plain_runtime) (PV := trading_today_provider)
      example_code (utf8 "2024-05-01") None = Ok (s, e)
    /\ str_lt e (utf8 "2024-06-03").
Proof.
  refine (proj2 (derive_default_end_before_today
    (RT := plain_runtime) (PV := trading_today_provider)
    example_code (utf8 "2024-05-01") _) _).
  - exists (utf8 "2024-05-31"), (utf8 "2024-06-03").
    repeat split; try (vm_compute; congruence).
    + apply list_elem_of_In. vm_compute. tauto.
    + apply list_elem_of_In. vm_compute. tauto.
  - intros d Hd. apply list_elem_of_In in Hd. vm_compute in Hd.
    destruct Hd as [<-|[<-|[]]]; split; vm_compute; congruence.
Defined.

(** ** Signs of binary64 results *)

Lemma SFnonneg_leb (x : spec_float) :
  SFleb (S754_zero false) x = true <-> SFnonneg x.
Proof.
  destruct x as [s|s| |s m e]; cbn; try destruct s; split; congruence || tauto.
Qed.

Lemma shr_1_nonneg (mrs : shr_record) : 0 <= shr_m mrs -> 0 <= shr_m (shr_1 mrs).
Proof.
  destruct mrs as [m r s]. destruct m as [|[p|p|]|[p|p|]]; cbn; lia.
Qed.

Lemma iter_shr_1_nonneg (n : positive) (mrs : shr_record) :
  0 <= shr_m mrs -> 0 <= shr_m (iter_pos shr_1 n mrs).
Proof.
  revert mrs. induction n as [n IH|n IH|]; intros mrs H; cbn.
  - apply IH, IH. now apply shr_1_nonneg.
  - now apply IH, IH.
  - now apply shr_1_nonneg.
Qed.

Lemma shr_fexp_nonneg (m e : Z) (l : location) :
  0 <= m -> 0 <= shr_m (fst (shr_fexp prec emax m e l)).
Proof.
  intros Hm. unfold shr_fexp, shr.
  assert (0 <= shr_m (shr_record_of_loc m l)) as H0.
  { destruct l as [|[]]; exact Hm. }
  destruct (_ - e) as [|p|p]; cbn [fst]; auto.
  now apply iter_shr_1_nonneg.
Qed.

Lemma round_nearest_even_nonneg (m : Z) (l : location) :
  0 <= m -> 0 <= round_nearest_even m l.
Proof.
  intros Hm. unfold round_nearest_even.
  destruct l as [|[]]; try destruct (Z.even m); lia.
Qed.

Lemma binary_round_aux_nonneg (mx ex : Z) (lx : location) :
  0 <= mx -> SFnonneg (binary_round_aux prec emax false mx ex lx).
Proof.
  intros Hm. unfold binary_round_aux.
  pose proof (shr_fexp_nonneg mx ex lx Hm) as H1.
  destruct (shr_fexp prec emax mx ex lx) as [mrs' e']. cbn [fst] in H1.
  pose proof (shr_fexp_nonneg _ e' loc_Exact
                (round_nearest_even_nonneg _ (loc_of_shr_record mrs') H1)) as H2.
  destruct (shr_fexp prec emax _ e' loc_Exact) as [mrs'' e'']. cbn [fst] in H2.
  destruct (shr_m mrs'') as [|p|p]; cbn; [exact I| |lia].
  destruct (e'' <=? emax - prec); reflexivity.
Qed.

Lemma binary_round_nonneg (m : positive) (e : Z) :
  SFnonneg (binary_round prec emax false m e).
Proof.
  unfold binary_round. destruct (shl_align _ _ _) as [mz ez].
  apply binary_round_aux_nonneg. lia.
Qed.

Lemma binary_normalize_nonneg (m e : Z) :
  0 <= m -> SFnonneg (binary_normalize prec emax m e false).
Proof.
  intros Hm. destruct m as [|p|p]; cbn; [exact I| |lia].
  apply binary_round_nonneg.
Qed.

Lemma SFdiv_nonneg (x : spec_float) (my : positive) (ey : Z) :
  SFnonneg x -> SFnonneg (SFdiv prec emax x (S754_finite false my ey)).
Proof.
  destruct x as [s|s| |s mx ex]; cbn [SFnonneg SFdiv]; try tauto.
  - intros ->. reflexivity.
  - intros ->. cbn [xorb].
    destruct (SFdiv_core_binary prec emax (Z.pos mx) ex (Z.pos my) ey)
      as [[mz ez] lz] eqn:Hcore.
    apply binary_round_aux_nonneg.
    unfold SFdiv_core_binary in Hcore.
    set (m' := match _ - _ - _ with Z0 => _ | Zpos _ => _ | Zneg _ => _ end) in Hcore.
    assert (0 <= m') as Hm'.
    { subst m'. destruct (_ - _ - _); try lia. apply Z.shiftl_nonneg. lia. }
    pose proof (Z.div_eucl_eq m' (Z.pos my) ltac:(lia)) as Heq.
    pose proof (Z.mod_pos_bound m' (Z.pos my) ltac:(lia)) as Hmod.
    unfold Z.modulo in Hmod.
    destruct (Z.div_eucl m' (Z.pos my)) as [q r]. injection Hcore as <- _ _.
    nia.
Qed.

Lemma SFldexp_nonneg (x : spec_float) (e : Z) :
  SFnonneg x -> SFnonneg (SFldexp prec emax x e).
Proof.
  destruct x as [s|s| |s m ex]; cbn [SFnonneg SFldexp]; try tauto.
  intros ->. apply binary_round_nonneg.
Qed.

Lemma float_nonneg_spec (f : float) : float_nonneg f <-> SFnonneg (Prim2SF f).
Proof.
  unfold float_nonneg. rewrite FloatAxioms.leb_spec.
  change (Prim2SF 0) with (S754_zero false). apply SFnonneg_leb.
Qed.

Lemma SF2Prim_nonneg (x : spec_float) : SFnonneg x -> float_nonneg (SF2Prim x).
Proof.
  intros Hx. destruct x as [s|s| |s m e]; cbn in Hx; try tauto.
  - destruct s; vm_compute; reflexivity.
  - subst s. vm_compute. reflexivity.
  - subst s. apply float_nonneg_spec. cbn [SF2Prim]. unfold Z.ldexp.
    rewrite FloatAxioms.ldshiftexp_spec. apply SFldexp_nonneg.
    rewrite FloatAxioms.of_uint63_spec. apply binary_normalize_nonneg.
    apply to_Z_bounded.
Qed.

Lemma float_div_ten_nonneg (v : float) : float_nonneg v -> float_nonneg (v / 10)%float.
Proof.
  rewrite !float_nonneg_spec, FloatAxioms.div_spec.
  change (Prim2SF 10) with (S754_finite false 5629499534213120 (-49)).
  apply SFdiv_nonneg.
Qed.

Lemma float_of_ratio_nonneg (n d : Z) : 0 <= n -> 0 < d -> float_nonneg (float_of_ratio n d).
Proof.
  intros Hn Hd. unfold float_of_ratio. apply SF2Prim_nonneg.
  destruct d as [|q|q]; try lia. cbn [Z2SF]. apply SFdiv_nonneg.
  destruct n as [|p|p]; cbn; try lia; auto.
Qed.

(** ** The text parser on every input (C10) *)

Section ParseCash.
Context `{RT : Runtime}.

Lemma rep_greedy_inv (k : cclass) (least : nat) (s : pystr)
    (kont : pystr -> option mresult) (res : mresult) :
  rep_greedy k least s kont = Some res ->
  exists pre s', s = pre ++ s' /\ forallb (in_class k) pre = true
                 /\ kont s' = Some res.
Proof.
  revert least. induction s as [|c s IH]; intros least; cbn [rep_greedy].
  - destruct least; [|discriminate]. intros H. exists [], []. auto.
  - assert (match least with O => kont (c :: s) | S _ => None end = Some res ->
            exists pre s', c :: s = pre ++ s' /\ forallb (in_class k) pre = true
                           /\ kont s' = Some res) as Hstop.
    { destruct least; [|discriminate]. intros H. exists [], (c :: s). auto. }
    destruct (in_class k c) eqn:Hc; [|exact Hstop].
    destruct (rep_greedy k (Nat.pred least) s kont) as [r|] eqn:Hrec; [|exact Hstop].
    intros [= ->]. apply IH in Hrec as (pre & s' & -> & Hpre & Hk).
    exists (c :: pre), s'. cbn. rewrite Hc, Hpre. auto.
Qed.

Lemma consumed_app (pre s' : pystr) : consumed (pre ++ s') s' = pre.
Proof.
  unfold consumed. rewrite length_app.
  replace (length pre + length s' - length s')%nat with (length pre) by lia.
  apply take_app_length.
Qed.

Lemma rmatch_amount_caps (r : regex) :
  amount_groups r = true ->
  forall (s : pystr) (caps : list pystr) (kont : mcont) (res : mresult),
    Forall amount_text caps ->
    (forall s' caps' res', Forall amount_text caps' ->
                           kont s' caps' = Some res' -> amount_caps res') ->
    rmatch r s caps kont = Some res -> amount_caps res.
Proof.
  induction r as [|c|k|a IHa b IHb|a IHa b IHb|a IHa|k least|a IHa];
    cbn [amount_groups rmatch]; intros Hg s caps kont res Hcaps Hk.
  - eauto.
  - destruct s as [|x s]; [discriminate|]. destruct (x =? c); [eauto|discriminate].
  - destruct s as [|x s]; [discriminate|]. destruct (in_class k x); [eauto|discriminate].
  - apply andb_true_iff in Hg as [Ha Hb].
    apply IHa; auto. intros s' caps' res' Hc'. apply IHb; auto.
  - apply andb_true_iff in Hg as [Ha Hb].
    destruct (rmatch a s caps kont) as [r|] eqn:Hr.
    + intros [= <-]. eapply IHa; eauto.
    + eapply IHb; eauto.
  - destruct (rmatch a s caps kont) as [r|] eqn:Hr.
    + intros [= <-]. eapply IHa; eauto.
    + eauto.
  - intros (pre & s' & -> & _ & H)%rep_greedy_inv. eauto.
  - destruct a as [| | | | | |k least|]; try discriminate.
    destruct k; try discriminate. cbn [rmatch].
    intros (pre & s' & -> & Hpre & H)%rep_greedy_inv.
    rewrite consumed_app in H. eapply Hk; [|exact H].
    apply Forall_app. split; [exact Hcaps|]. constructor; [exact Hpre|constructor].
Qed.

Lemma re_search_amount (r : regex) (s : pystr) (m : mresult) :
  amount_groups r = true -> re_search r s = Some m -> amount_text (group1 m).
Proof.
  intros Hg. induction s as [|c s IH]; cbn [re_search]; unfold re_match.
  all: destruct (rmatch r _ [] _) as [res|] eqn:Hres; try discriminate.
  all: try (intros [= <-];
    apply (rmatch_amount_caps r Hg) in Hres;
      [|constructor|intros s' caps' res' Hc [= <-]; exact Hc];
    unfold group1; destruct Hres as [|g gs Hg' _]; [reflexivity|exact Hg']).
  exact IH.
Qed.

Lemma float_of_str_amount (s : pystr) :
  amount_text s -> float_of_str s = float_of_digits s.
Proof. unfold float_of_str, amount_text. now intros ->. Qed.

Lemma digits_value_nonneg (s : pystr) (acc n : Z) :
  0 <= acc -> digits_value acc s = Some n -> 0 <= n.
Proof.
  revert acc. induction s as [|c s IH]; intros acc Hacc; cbn.
  - intros [= <-]. exact Hacc.
  - destruct (to_decimal c) as [d|]; [|discriminate].
    apply IH. destruct d; cbn; lia.
Qed.

Lemma float_of_digits_nonneg (s : pystr) (v : float) :
  float_of_digits s = Some v -> float_nonneg v.
Proof.
  unfold float_of_digits. destruct (split_dot s) as [ip rest].
  assert (match digits_value 0 (ip ++ default [] rest) with
          | Some n => Some (float_of_ratio n (10 ^ Z.of_nat (length (default [] rest))))
          | None => None
          end = Some v -> float_nonneg v) as H.
  { destruct (digits_value 0 _) as [n|] eqn:Hn; [|discriminate].
    intros [= <-]. apply float_of_ratio_nonneg.
    - eapply digits_value_nonneg; [|exact Hn]. lia.
    - apply Z.pow_pos_nonneg; lia. }
  destruct ip, (default [] rest); auto; discriminate.
Qed.

(** The amount of a match, when [float] accepts it, is not negative. *)
Lemma matched_amount_nonneg (r : regex) (s : pystr) (m : mresult) (v : float) :
  amount_groups r = true -> re_search r s = Some m ->
  float_of_str (group1 m) = Some v -> float_nonneg v.
Proof.
  intros Hg Hm. rewrite float_of_str_amount by (eapply re_search_amount; eauto).
  apply float_of_digits_nonneg.
Qed.

Lemma try_patterns_nonneg (pats : list regex) (text : pystr) (v : float) :
  Forall (fun r => amount_groups r = true) pats ->
  try_patterns pats text = Some v -> float_nonneg v.
Proof.
  induction 1 as [|pat pats Hpat _ IH]; cbn [try_patterns]; [discriminate|].
  destruct (re_search pat text) as [m|] eqn:Hm; [|exact IH].
  destruct (float_of_str (group1 m)) as [x|] eqn:Hx; [|exact IH].
  intros [= <-]. apply float_div_ten_nonneg. eapply matched_amount_nonneg; eauto.
Qed.

Lemma float_zero_nonneg : float_nonneg 0.
Proof. vm_compute. reflexivity. Qed.

(** C10: on every text [_parse_cash_per_share_from_text] returns a float
    that is not below zero (the function is total: a text [float] rejects
    is a [None] that falls through); an amount [float] rejects makes the
    loop go on to the next pattern; and on "10派1.2.3元", whose amount
    "1.2.3" has two dots, the first pattern and the generic one both match,
    [float] rejects the amount, and the result is 0.0. *)
Theorem parse_cash_total_nonneg :
  (forall plan_text : pystr,
     float_nonneg (_parse_cash_per_share_from_text plan_text))
  /\ (forall (pat : regex) (rest : list regex) (text : pystr) (m : mresult),
        re_search pat text = Some m -> float_of_str (group1 m) = None ->
        try_patterns (pat :: rest) text = try_patterns rest text)
  /\ (let text := normalize_plan_text (utf8 "10派1.2.3元") in
      (group1 <$> re_search (cat [lit (utf8 "10派"); amount; lit (utf8 "元")]) text)
        = Some (utf8 "1.2.3")
      /\ (group1 <$> re_search pat_generic text) = Some (utf8 "1.2.3")
      /\ float_of_str (utf8 "1.2.3") = None
      /\ try_patterns patterns text = None
      /\ _parse_cash_per_share_from_text (utf8 "10派1.2.3元") = 0%float).
Proof.
  split; [|split].
  - intros plan_text.
    unfold _parse_cash_per_share_from_text.
    destruct plan_text as [|c0 rest]; [apply float_zero_nonneg|].
    set (text := normalize_plan_text (c0 :: rest)).
    destruct (match re_search pat_per_share text with
              | Some m => Some m
              | None => re_search pat_per_share_interest text
              end ≫= _) as [v|] eqn:Hps.
    { apply bind_Some in Hps as (m & Hm & Hv).
      destruct (re_search pat_per_share text) as [m1|] eqn:H1.
      - injection Hm as ->. eapply (matched_amount_nonneg pat_per_share); eauto.
      - eapply (matched_amount_nonneg pat_per_share_interest); eauto. }
    destruct (try_patterns patterns text) as [v|] eqn:Hpat.
    { eapply try_patterns_nonneg; [|exact Hpat]. repeat constructor. }
    destruct (re_search pat_generic text) as [m2|] eqn:H2; [|apply float_zero_nonneg].
    destruct (_ || _); [|apply float_zero_nonneg].
    destruct (float_of_str (group1 m2)) as [v|] eqn:Hv; [|apply float_zero_nonneg].
    apply float_div_ten_nonneg. eapply (matched_amount_nonneg pat_generic); eauto.
  - intros pat rest text m Hm Hv. cbn [try_patterns]. now rewrite Hm, Hv.
  - repeat split; vm_compute; reflexivity.
Qed.

End ParseCash.

(** ** Output rows (C7, C8) *)

Section Rows.
Context `{RT : Runtime} `{PV : Provider}.

Lemma cli_annualized_amended (tr : option float) (sd ed : pystr) :
  Cli.annualized_return tr sd ed = amended_annualized tr (calendar_days sd ed).
Proof.
  unfold Cli.annualized_return, amended_annualized, annualize.
  destruct (calendar_days sd ed) as [d|], tr as [t|]; try reflexivity.
  destruct (Z.ltb_spec 0 d), (Z.leb_spec d 0); try lia; try reflexivity.
  now destruct (float_pow _ _).
Qed.

Lemma gui_annualized_amended (tr : float) (sd ed : pystr) :
  GuiApp.annualized_return tr sd ed = amended_annualized (Some tr) (calendar_days sd ed).
Proof.
  unfold GuiApp.annualized_return, amended_annualized, annualize.
  destruct (calendar_days sd ed) as [d|]; try reflexivity.
  destruct (Z.ltb_spec 0 d), (Z.leb_spec d 0); try lia; try reflexivity.
  now destruct (float_pow _ _).
Qed.

Lemma cli_error_row_shape name code sd ed msg :
  failed_row_shape (Cli.error_row name code sd ed msg).
Proof.
  split; [|split].
  - exists msg. reflexivity.
  - repeat constructor.
  - reflexivity.
Qed.

Lemma gui_error_row_shape name code msg :
  failed_row_shape (GuiApp.error_row name code msg).
Proof.
  split; [|split].
  - exists msg. reflexivity.
  - repeat constructor.
  - reflexivity.
Qed.

Lemma compute_interval_dates (code sd ed : pystr) (res : IntervalResult) :
  compute_interval_total_return code sd ed = Ok res ->
  start_trade_date res = sd /\ end_trade_date res = ed.
Proof.
  unfold compute_interval_total_return.
  destruct (get_unadjusted_close_on code sd) as [sc|]; [|intros [=]].
  destruct (get_unadjusted_close_on code ed) as [ec|]; [|intros [=]].
  destruct (get_dividends code) as [evs|]; [|intros [=]].
  cbn [mbind outcome_bind].
  destruct (sum_cash_dividends_in_interval evs sd ed) as [div_sum div_count].
  destruct (sum_additional_shares_in_interval code sd ed) as [[[a n] desc]|];
    [|intros [=]].
  cbn [mbind outcome_bind].
  destruct (total_return_formula _ _ _ _) as [tr|]; [|intros [=]].
  cbn [mbind outcome_bind]. intros [= <-]. split; reflexivity.
Qed.

Ltac field_lookups :=
  repeat match goal with
  | |- _ /\ _ => split
  | |- Forall _ numeric_fields => unfold numeric_fields
  | |- Forall _ (_ :: _) => apply List.Forall_cons; cbv beta
  | |- Forall _ [] => apply List.Forall_nil
  | |- is_number _ => vm_compute; exact I
  | |- get _ _ = _ => vm_compute; reflexivity
  end.

Lemma cli_success_row_shape res name code sd ed :
  start_trade_date res = sd -> end_trade_date res = ed ->
  computed_row_shape (success_row res name code sd ed).
Proof.
  intros <- <-. unfold success_row.
  destruct (match sum_additional_shares_in_interval _ _ _ with
            | Ok r => r | Raise _ => _ end) as [[add_shares add_count] add_desc].
  unfold computed_row_shape.
  split; [|split]; [field_lookups..|].
  eexists _, _, _. split; [|split; [|split]]; [field_lookups..|].
  rewrite <- cli_annualized_amended. unfold get. now rewrite lookup_insert_eq.
Qed.

Lemma cli_stock_row_shape (cfg : AppConfig) (s : pystr) :
  computed_row_shape (stock_row cfg s) \/ failed_row_shape (stock_row cfg s).
Proof.
  unfold stock_row.
  destruct (derive_trade_window_from_prices _ _ _) as [[sd ed]|e].
  - destruct (compute_interval_total_return _ sd ed) as [res|e] eqn:Hres.
    + left. apply compute_interval_dates in Hres as [Hs He].
      now apply cli_success_row_shape.
    + right. apply cli_error_row_shape.
  - right. apply cli_error_row_shape.
Qed.

Lemma gui_code_row_shape (start : pystr) (end_ : option pystr) (entry : pystr * pystr) :
  computed_row_shape (GuiApp.code_row start end_ entry)
  \/ failed_row_shape (GuiApp.code_row start end_ entry).
Proof.
  unfold GuiApp.code_row.
  destruct (GuiApp.computed_row _ _ _ _) as [r|e] eqn:Hr;
    [left|right; apply gui_error_row_shape].
  unfold GuiApp.computed_row in Hr.
  destruct (derive_trade_window_from_prices _ _ _) as [[sd ed]|]; [|discriminate Hr].
  cbn [mbind outcome_bind] in Hr.
  destruct (compute_interval_total_return _ sd ed) as [res|] eqn:Hres;
    [|discriminate Hr].
  cbn [mbind outcome_bind] in Hr.
  destruct (GuiApp.compute_additional_and_desc _ _ _) as [[add_shares add_count] add_desc].
  destruct (total_return_formula _ _ _ _) as [tr|]; [|discriminate Hr].
  cbn [mbind outcome_bind] in Hr. injection Hr as <-.
  apply compute_interval_dates in Hres as [<- <-].
  unfold computed_row_shape.
  split; [|split]; [field_lookups..|].
  eexists _, _, _. split; [|split; [|split]]; [field_lookups..|].
  rewrite <- gui_annualized_amended. unfold get. now rewrite lookup_insert_eq.
Qed.

Lemma gui_rows_shape (codes : list pystr) (start : pystr) (end_ : option pystr) (r : row) :
  r ∈ GuiApp.compute_for_codes codes start end_ ->
  computed_row_shape r \/ failed_row_shape r.
Proof.
  unfold GuiApp.compute_for_codes.
  intros [Hin|Hin]%elem_of_app.
  - apply list_elem_of_fmap in Hin as (s & -> & _). right. apply gui_error_row_shape.
  - apply list_elem_of_fmap in Hin as (entry & -> & _). apply gui_code_row_shape.
Qed.

Lemma cli_rows_shape (cfg : AppConfig) (rows : list row) (r : row) :
  run cfg = Ok rows -> r ∈ rows ->
  computed_row_shape r \/ failed_row_shape r.
Proof.
  unfold run. destruct (stocks cfg) eqn:Hst; [discriminate|].
  destruct (forallb _ _); [|discriminate].
  destruct (rows_to_csv _); [|discriminate].
  cbn [mbind outcome_bind]. intros [= <-].
  unfold cli_rows. intros (s & -> & _)%list_elem_of_fmap. apply cli_stock_row_shape.
Qed.

(** C7 (as amended): in the rows of the CLI run and of [compute_for_codes],
    a row without error has annualized_return =
    (1 + total_return) ** (365 / calendar_days) - 1 whenever the day count,
    the whole-day difference of its two trade dates, is positive and the
    power has a value; the value is absent when the day count is not
    positive or the total return is absent, so a 0-day interval has none
    and nothing is divided by zero, and it is absent as well when the power
    raises. *)
Theorem annualized_return_rows :
  (forall (cfg : AppConfig) (rows : list row) (r : row),
     run cfg = Ok rows -> r ∈ rows -> get r "error" = VNone ->
     annualized_as_amended r)
  /\ (forall (codes : list pystr) (start : pystr) (end_ : option pystr) (r : row),
        r ∈ GuiApp.compute_for_codes codes start end_ -> get r "error" = VNone ->
        annualized_as_amended r)
  /\ (forall (tr : option float) (d : Z),
        d <= 0 -> amended_annualized tr (Some d) = VNone)
  /\ (forall days : option Z, amended_annualized None days = VNone)
  /\ (forall (tr : option float) (day : pystr),
        amended_annualized tr (calendar_days day day) = VNone)
  /\ (forall (tr : float) (d : Z) (n : pynum),
        0 < d ->
        float_pow (1 + tr)%float (365 / float_of_int d)%float = Some n ->
        amended_annualized (Some tr) (Some d) = num_val (sub_one n))
  /\ (forall (tr : float) (d : Z),
        float_pow (1 + tr)%float (365 / float_of_int d)%float = None ->
        amended_annualized (Some tr) (Some d) = VNone).
Proof.
  assert (forall r, computed_row_shape r \/ failed_row_shape r ->
                    get r "error" = VNone -> annualized_as_amended r) as Hshape.
  { intros r [(_ & _ & H)|((msg & Hmsg) & _)] He; [exact H|congruence]. }
  assert (forall (tr : option float) (d : Z),
            d <= 0 -> amended_annualized tr (Some d) = VNone) as Hnonpos.
  { intros [tr|] d Hd; cbn; [|reflexivity].
    destruct (Z.leb_spec d 0); [reflexivity|lia]. }
  split; [|split; [|split; [|split; [|split; [|split]]]]].
  - intros cfg rows r Hrun Hin. apply Hshape. eapply cli_rows_shape; eauto.
  - intros codes start end_ r Hin. apply Hshape. eapply gui_rows_shape; eauto.
  - exact Hnonpos.
  - intros days. unfold amended_annualized. destruct days; reflexivity.
  - intros tr day. unfold calendar_days.
    destruct (strptime_ordinal day) as [o|]; cbn [mbind option_bind].
    + replace (o - o) with 0 by lia. now apply Hnonpos.
    + now destruct tr.
  - intros tr d n Hd Hpow. unfold amended_annualized.
    destruct (Z.leb_spec d 0); [lia|]. now rewrite Hpow.
  - intros tr d Hpow. unfold amended_annualized.
    destruct (d <=? 0); [reflexivity|]. now rewrite Hpow.
Qed.

Lemma row_shape_invariant (r : row) :
  computed_row_shape r \/ failed_row_shape r -> row_invariant r.
Proof.
  intros [(He & Hn & _)|((msg & Hmsg) & Hn & Ha)].
  - left. split; [split; assumption|]. intros [(msg & Hmsg) _]. congruence.
  - right. split; [split; [eauto|split; assumption]|]. intros [He _]. congruence.
Qed.

(** C8: every row of the CLI run, of [compute_for_codes] and of the page
    [/calculate] renders either has no error and all the numeric fields of
    the result (start_close, end_close, div_sum_per_share, div_event_count,
    additional_shares_per_share, additional_event_count,
    additional_value_per_share and total_return) present, or has an error
    and none of them, nor an annualized return: exactly one of the two.
    The annualized return, a decimal fraction or absent, is not one of the
    fields that a row without error must have. *)
Theorem output_row_invariant :
  (forall (cfg : AppConfig) (rows : list row) (r : row),
     run cfg = Ok rows -> r ∈ rows -> row_invariant r)
  /\ (forall (codes : list pystr) (start : pystr) (end_ : option pystr) (r : row),
        r ∈ GuiApp.compute_for_codes codes start end_ -> row_invariant r)
  /\ (forall (cache cache' : list row) (f : WebApp.form) (rows : list row)
             (sd ed : pystr) (r : row),
        WebApp.calculate cache f = (WebApp.Rendered rows sd ed, cache') ->
        r ∈ rows -> row_invariant r).
Proof.
  split; [|split].
  - intros cfg rows r Hrun Hin. apply row_shape_invariant. eapply cli_rows_shape; eauto.
  - intros codes start end_ r Hin. apply row_shape_invariant.
    eapply gui_rows_shape; eauto.
  - intros cache cache' f rows sd ed r.
    unfold WebApp.calculate, WebApp.calculate_with.
    destruct (strip (WebApp.f_stocks f)); [discriminate|].
    destruct (strip (WebApp.f_start_date f)); [discriminate|].
    intros [= <- _ _ _] Hin. apply row_shape_invariant. eapply gui_rows_shape; eauto.
Qed.

End Rows.

(** ** The cached rows of the web application (C9) *)

Section LastRows.
Context `{RT : Runtime} `{PV : Provider}.
Variable compute : list pystr -> pystr -> option pystr -> outcome (list row).

Import WebApp.

Lemma calculate_fails (cache : list row) (f : form) :
  fails compute f -> snd (calculate_with compute cache f) = cache.
Proof.
  unfold fails, posted, calculate_with.
  intros [Hs|[Hd|[e He]]].
  - now rewrite Hs.
  - rewrite Hd. now destruct (strip (f_stocks f)).
  - destruct (strip (f_stocks f)); [reflexivity|].
    destruct (strip (f_start_date f)); [reflexivity|].
    now rewrite He.
Qed.

Lemma calculate_succeeds (cache : list row) (f : form) (rows : list row) :
  succeeds compute f rows ->
  calculate_with compute cache f
  = (Rendered rows (strip (f_start_date f))
       (default [] (match strip (f_end_date f) with [] => None | e => Some e end)),
     rows).
Proof.
  unfold succeeds, posted, calculate_with. intros (Hs & Hd & Hc).
  destruct (strip (f_stocks f)); [congruence|].
  destruct (strip (f_start_date f)); [congruence|].
  now rewrite Hc.
Qed.

Lemma fails_or_succeeds (f : form) : fails compute f \/ exists rows, succeeds compute f rows.
Proof.
  unfold fails, succeeds.
  destruct (strip (f_stocks f)) eqn:Hs; [left; left; reflexivity|].
  destruct (strip (f_start_date f)) eqn:Hd; [left; right; left; reflexivity|].
  destruct (posted compute f) as [rows|e] eqn:Hp.
  - right. exists rows. repeat split; congruence.
  - left. right. right. now exists e.
Qed.

Lemma export_keeps (cache : list row) : snd (export cache) = cache.
Proof.
  unfold export. destruct cache; [reflexivity|]. now destruct (rows_to_csv _).
Qed.

(** C9 (as amended): a [/calculate] whose stocks or start date is blank,
    or whose computation raises, leaves the cached rows as they were; a
    successful one replaces them by its rows; [/export] does not change
    them; hence after any sequence of requests the cache holds the rows of
    the most recent successful [/calculate], every sequence has such rows,
    and [/export] answers from exactly these rows: it sends the file pandas
    writes of them when there is at least one row, raises the exception of
    pandas when the file cannot be written, and redirects with "No results
    to export" when the list is empty. *)
Theorem last_rows_only_on_success :
  (forall (cache : list row) (f : form),
     fails compute f -> snd (calculate_with compute cache f) = cache)
  /\ (forall (cache : list row) (f : form) (rows : list row),
        succeeds compute f rows -> snd (calculate_with compute cache f) = rows)
  /\ (forall (cache : list row) (f : form),
        snd (calculate_with compute cache f) <> cache ->
        exists rows, succeeds compute f rows /\ snd (calculate_with compute cache f) = rows)
  /\ (forall cache : list row, snd (export cache) = cache)
  /\ (forall (init : list row) (rqs : list request) (rows : list row),
        last_success compute init rqs rows ->
        serve_with compute init rqs = rows
        /\ snd (handle_with compute (serve_with compute init rqs) GetExport) = rows
        /\ (forall csv, rows <> [] -> rows_to_csv rows = Ok csv ->
              fst (handle_with compute (serve_with compute init rqs) GetExport)
              = Attachment csv)
        /\ (forall e, rows <> [] -> rows_to_csv rows = Raise e ->
              fst (handle_with compute (serve_with compute init rqs) GetExport)
              = ServerError e)
        /\ (rows = [] ->
              fst (handle_with compute (serve_with compute init rqs) GetExport)
              = Redirect (utf8 "No results to export. Please calculate first.")))
  /\ (forall (init : list row) (rqs : list request),
        last_success compute init rqs (serve_with compute init rqs)).
Proof.
  split; [|split; [|split; [|split; [|split]]]].
  - apply calculate_fails.
  - intros cache f rows H. now rewrite (calculate_succeeds cache f rows H).
  - intros cache f Hne. destruct (fails_or_succeeds f) as [Hf|[rows Hr]].
    + now rewrite calculate_fails in Hne.
    + exists rows. split; [exact Hr|]. now rewrite (calculate_succeeds cache f rows Hr).
  - apply export_keeps.
  - intros init rqs rows Hlast.
    assert (serve_with compute init rqs = rows) as Hserve.
    { induction Hlast as [|rqs rows _ IH|rqs rows f _ IH Hf|rqs rows f rows' _ IH Hs];
        unfold serve_with in *; rewrite ?foldl_snoc, ?IH; cbn [handle_with].
      - reflexivity.
      - apply export_keeps.
      - now apply calculate_fails.
      - now rewrite (calculate_succeeds rows f rows' Hs). }
    split; [exact Hserve|].
    rewrite Hserve. cbn [handle_with].
    split; [apply export_keeps|]. unfold export.
    split; [|split].
    + intros csv Hne Hcsv. destruct rows; [congruence|]. now rewrite Hcsv.
    + intros e Hne Hcsv. destruct rows; [congruence|]. now rewrite Hcsv.
    + now intros ->.
  - intros init rqs. induction rqs as [|rq rqs IH] using rev_ind.
    + constructor.
    + unfold serve_with in *. rewrite foldl_snoc.
      destruct rq as [f|]; cbn [handle_with].
      * destruct (fails_or_succeeds f) as [Hf|[rows Hr]].
        -- rewrite (calculate_fails _ f Hf). now constructor.
        -- rewrite (calculate_succeeds _ f rows Hr). cbn [snd].
           eapply last_success_new; [exact IH|exact Hr].
      * rewrite export_keeps. now constructor.
Qed.

End LastRows.

(** C9 as stated fails: a [/calculate] whose stocks field holds a comma
    only passes the validation and succeeds with no row; it replaces the
    cached rows by the empty list, a failed [/calculate] after it leaves
    that list, and the next [/export] serves no file of the rows of this
    most recent successful [/calculate]: it redirects with "No results to
    export. Please calculate first." *)
Lemma export_redirects_after_empty_result :
  WebApp.calculate (RT := plain_runtime) (PV := half_failing_provider)
    [january_row "600519"] comma_form
  = (WebApp.Rendered [] (utf8 "2024-01-01") [], [])
  /\ succeeds (RT := plain_runtime)
       (app_compute (RT := plain_runtime) (PV := half_failing_provider)) comma_form []
  /\ fails (RT := plain_runtime)
       (app_compute (RT := plain_runtime) (PV := half_failing_provider)) blank_form
  /\ last_success (RT := plain_runtime)
       (app_compute (RT := plain_runtime) (PV := half_failing_provider))
       [january_row "600519"]
       [WebApp.PostCalculate comma_form; WebApp.PostCalculate blank_form] []
  /\ WebApp.serve_with (RT := plain_runtime)
       (app_compute (RT := plain_runtime) (PV := half_failing_provider))
       [january_row "600519"]
       [WebApp.PostCalculate comma_form; WebApp.PostCalculate blank_form] = []
  /\ WebApp.handle_with (RT := plain_runtime)
       (app_compute (RT := plain_runtime) (PV := half_failing_provider))
       [] WebApp.GetExport
     = (WebApp.Redirect (utf8 "No results to export. Please calculate first."), [])
  /\ forall csv,
       fst (WebApp.handle_with (RT := plain_runtime)
              (app_compute (RT := plain_runtime) (PV := half_failing_provider))
              [] WebApp.GetExport)
       <> WebApp.Attachment csv.
Proof.
  assert (succeeds (RT := plain_runtime)
            (app_compute (RT := plain_runtime) (PV := half_failing_provider))
            comma_form []) as Hs.
  { repeat split; vm_compute; discriminate || reflexivity. }
  assert (fails (RT := plain_runtime)
            (app_compute (RT := plain_runtime) (PV := half_failing_provider))
            blank_form) as Hf.
  { left. vm_compute. reflexivity. }
  split; [vm_compute; reflexivity|]. split; [exact Hs|]. split; [exact Hf|].
  split.
  { apply (last_success_failed _ _ [WebApp.PostCalculate comma_form]); [|exact Hf].
    apply (last_success_new _ _ [] [january_row "600519"]); [constructor|exact Hs]. }
  split; [vm_compute; reflexivity|]. split; [reflexivity|].
  intros csv. discriminate.
Qed.

(** ** The two paths side by side (C3) *)

(** C3, at a failing input: with one stock computed and one whose close
    lookup fails, the CLI run and [compute_for_codes] both return their
    rows, and [compare_rows] reports three differences on the failed
    stock: the CLI row keeps the derived trade dates where the desktop row
    has none, and the desktop row has an empty bonus_allot_desc where the
    CLI row has none. *)
Lemma run_returns `{RT : Runtime} `{PV : Provider} (cfg : AppConfig) (csv : pystr) :
  stocks cfg <> [] ->
  forallb console_line_ok (cli_rows cfg) = true ->
  rows_to_csv (cli_rows cfg) = Ok csv ->
  run cfg = Ok (cli_rows cfg).
Proof.
  intros Hst Hline Hcsv. unfold run.
  destruct (stocks cfg); [congruence|].
  now rewrite Hline, Hcsv.
Qed.

Theorem gui_cli_error_rows_differ :
  exists cli_rows,
    run (RT := plain_runtime) (PV := half_failing_provider) january = Ok cli_rows
    /\ Compare.compare_rows (RT := plain_runtime)
         (GuiApp.compute_for_codes (RT := plain_runtime) (PV := half_failing_provider)
            (stocks january) (start_date january) (end_date january))
         cli_rows
       = [Compare.FieldDiffers (utf8 "000001") "start_trade_date"
            VNone (VStr (utf8 "2024-01-02"));
          Compare.FieldDiffers (utf8 "000001") "end_trade_date"
            VNone (VStr (utf8 "2024-01-31"));
          Compare.FieldDiffers (utf8 "000001") "bonus_allot_desc"
            (VStr []) VNone].
Proof.
  exists (cli_rows (RT := plain_runtime) (PV := half_failing_provider) january).
  split.
  - apply (run_returns (RT := plain_runtime) (PV := half_failing_provider)
             january []); [discriminate|vm_compute; reflexivity|reflexivity].
  - vm_compute. reflexivity.
Qed.

Section SamePath.
Context `{RT : Runtime} `{PV : Provider}.

(** Where the stock is computed, the two paths build the same row. *)
Lemma computed_rows_agree (cfg : AppConfig) (s_code label : pystr)
    (sd ed : pystr) (res : IntervalResult) :
  derive_trade_window_from_prices (zfill s_code) (start_date cfg) (end_date cfg)
    = Ok (sd, ed) ->
  compute_interval_total_return (zfill s_code) sd ed = Ok res ->
  GuiApp.code_row (start_date cfg) (end_date cfg) (zfill s_code, label)
  = stock_row cfg s_code.
Proof.
  intros Hd Hc.
  unfold GuiApp.code_row, GuiApp.computed_row, stock_row. cbn [fst].
  rewrite Hd. cbn [mbind outcome_bind]. rewrite Hc. cbn [mbind outcome_bind].
  unfold success_row, GuiApp.compute_additional_and_desc.
  destruct (match sum_additional_shares_in_interval _ _ _ with
            | Ok r => r | Raise _ => _ end) as [[add_shares add_count] add_desc].
  assert (exists tr, total_return_formula (start_close res) (end_close res)
            (dividend_sum_per_share res) (end_close res * add_shares)%float = Ok tr)
    as [tr Htr].
  { unfold total_return_formula, float_div.
    unfold compute_interval_total_return in Hc.
    destruct (get_unadjusted_close_on _ sd) as [sc|]; [|discriminate Hc].
    destruct (get_unadjusted_close_on _ ed) as [ec|]; [|discriminate Hc].
    destruct (get_dividends _) as [evs|]; [|discriminate Hc].
    cbn [mbind outcome_bind] in Hc.
    destruct (sum_cash_dividends_in_interval evs sd ed) as [div_sum div_count].
    destruct (sum_additional_shares_in_interval _ sd ed) as [[[a n] desc]|];
      [|discriminate Hc].
    cbn [mbind outcome_bind] in Hc.
    unfold total_return_formula, float_div in Hc.
    destruct (sc =? 0)%float eqn:Hz; [discriminate Hc|].
    cbn [mbind outcome_bind] in Hc. injection Hc as <-.
    cbn [start_close end_close dividend_sum_per_share].
    rewrite Hz. eauto. }
  rewrite Htr. cbn [mbind outcome_bind].
  rewrite gui_annualized_amended, cli_annualized_amended. reflexivity.
Qed.

End SamePath.

(** ** The row properties on a run *)

(** C7 on a run: a total return of 0.36999999999999994 over 365 days is
    annualized to (1 + 0.36999999999999994) ** 1 - 1 = 0.3699999999999999. *)
Lemma annualized_return_rows_example :
  run (RT := unit_power_runtime) (PV := year_provider) one_year = Ok [one_year_row]
  /\ annualized_as_amended (RT := unit_power_runtime) one_year_row
  /\ get one_year_row "total_return" = VFloat 0.36999999999999994
  /\ calendar_days (RT := unit_power_runtime) (utf8 "2023-06-19") (utf8 "2024-06-18")
     = Some 365
  /\ get one_year_row "annualized_return" = VFloat 0.3699999999999999.
Proof.
  assert (run (RT := unit_power_runtime) (PV := year_provider) one_year
          = Ok [one_year_row]) as Hrun.
  { apply (run_returns (RT := unit_power_runtime) (PV := year_provider) one_year []);
      [discriminate|vm_compute; reflexivity|reflexivity]. }
  split; [exact Hrun|]. split.
  - apply (proj1 (annualized_return_rows (RT := unit_power_runtime)
                    (PV := year_provider)) one_year [one_year_row] one_year_row Hrun).
    + apply list_elem_of_singleton. reflexivity.
    + vm_compute. reflexivity.
  - repeat split; vm_compute; reflexivity.
Defined.

(** C7 as stated fails: with closes 1 and 11 one day apart the row is
    computed on both paths, its day count is 1 and its total return 10,
    and it has no annualized return, because 11.0 ** 365.0 overflows
    (Python raises [OverflowError], which the code catches): the value is
    absent although the day count is positive and the total return
    present. *)
Lemma annualized_absent_on_overflow :
  run (RT := plain_runtime) (PV := steep_provider) two_days = Ok [two_days_row]
  /\ GuiApp.compute_for_codes (RT := plain_runtime) (PV := steep_provider)
       (stocks two_days) (start_date two_days) (end_date two_days) = [two_days_row]
  /\ get two_days_row "error" = VNone
  /\ get two_days_row "start_trade_date" = VStr (utf8 "2024-01-02")
  /\ get two_days_row "end_trade_date" = VStr (utf8 "2024-01-03")
  /\ calendar_days (RT := plain_runtime) (utf8 "2024-01-02") (utf8 "2024-01-03") = Some 1
  /\ get two_days_row "start_close" = VFloat 1
  /\ get two_days_row "end_close" = VFloat 11
  /\ get two_days_row "total_return" = VFloat 10
  /\ (1 + 10 = 11)%float /\ (365 / float_of_int 1 = 365)%float
  /\ float_pow (Runtime := plain_runtime) 11 365 = None
  /\ get two_days_row "annualized_return" = VNone
  /\ ~ annualized_by_spec (RT := plain_runtime) two_days_row.
Proof.
  assert (get two_days_row "total_return" = VFloat 10) as Htr
    by (vm_compute; reflexivity).
  assert (get two_days_row "start_trade_date" = VStr (utf8 "2024-01-02")) as Hsd
    by (vm_compute; reflexivity).
  assert (get two_days_row "end_trade_date" = VStr (utf8 "2024-01-03")) as Hed
    by (vm_compute; reflexivity).
  assert (calendar_days (RT := plain_runtime) (utf8 "2024-01-02") (utf8 "2024-01-03")
          = Some 1) as Hdays by (vm_compute; reflexivity).
  split.
  { apply (run_returns (RT := plain_runtime) (PV := steep_provider) two_days []);
      [discriminate|vm_compute; reflexivity|reflexivity]. }
  split.
  { unfold two_days_row.
    rewrite <- (computed_rows_agree (RT := plain_runtime) (PV := steep_provider)
                  two_days (utf8 "600519") (utf8 "600519")
                  (utf8 "2024-01-02") (utf8 "2024-01-03")
                  {| code := utf8 "600519";
                     start_trade_date := utf8 "2024-01-02";
                     end_trade_date := utf8 "2024-01-03";
                     start_close := 1; end_close := 11;
                     dividend_sum_per_share := 0; dividend_event_count := 0;
                     additional_shares_per_share := 0; additional_event_count := 0;
                     additional_value_per_share := 0;
                     bonus_allot_desc := []; total_return := 10 |});
      [|vm_compute; reflexivity..].
    reflexivity. }
  repeat (split; [first [exact Htr|exact Hsd|exact Hed|exact Hdays
                        |vm_compute; reflexivity]|]).
  intros (tr & sd & ed & days & Htr' & Hsd' & Hed' & Hdays' & Hspec).
  rewrite Htr in Htr'. rewrite Hsd in Hsd'. rewrite Hed in Hed'.
  injection Htr' as <-. injection Hsd' as <-. injection Hed' as <-.
  rewrite Hdays in Hdays'. injection Hdays' as <-.
  cbn in Hspec. destruct Hspec as (n & Hpow & _). discriminate Hpow.
Qed.

(** C8 on a run: of the two rows of [january], the first is full and the
    second has only its error. *)
Lemma output_row_invariant_example :
  run (RT := plain_runtime) (PV := half_failing_provider) january
    = Ok [january_row "600519"; january_row "000001"]
  /\ row_invariant (january_row "600519") /\ row_invariant (january_row "000001")
  /\ get (january_row "600519") "error" = VNone
  /\ get (january_row "000001") "error"
     = VStr (utf8 "No price data for 000001 on 2024-01-02").
Proof.
  assert (run (RT := plain_runtime) (PV := half_failing_provider) january
          = Ok [january_row "600519"; january_row "000001"]) as Hrun.
  { apply (run_returns (RT := plain_runtime) (PV := half_failing_provider) january []);
      [discriminate|vm_compute; reflexivity|reflexivity]. }
  pose proof (fun r => proj1 (output_row_invariant (RT := plain_runtime)
                       (PV := half_failing_provider)) january
                  [january_row "600519"; january_row "000001"] r Hrun) as H.
  split; [exact Hrun|]. split; [|split].
  - apply H. apply list_elem_of_here.
  - apply H. apply list_elem_of_further, list_elem_of_here.
  - split; vm_compute; reflexivity.
Defined.

(** The annualized return of a row without error may be absent: the row
    of a one-day window, on either path, has no error, has its closes and
    its total return, and has no annualized return. *)
Lemma one_day_row_lacks_annualized :
  run (RT := total_power_runtime) (PV := one_day_provider) one_day = Ok [one_day_row]
  /\ GuiApp.compute_for_codes (RT := total_power_runtime) (PV := one_day_provider)
       (stocks one_day) (start_date one_day) (end_date one_day) = [one_day_row]
  /\ get one_day_row "error" = VNone
  /\ get one_day_row "start_trade_date" = VStr (utf8 "2024-01-02")
  /\ get one_day_row "end_trade_date" = VStr (utf8 "2024-01-02")
  /\ get one_day_row "start_close" = VFloat 10
  /\ get one_day_row "end_close" = VFloat 10
  /\ get one_day_row "total_return" = VFloat 0
  /\ get one_day_row "annualized_return" = VNone.
Proof.
  split; [|split].
  - apply (run_returns (RT := total_power_runtime) (PV := one_day_provider) one_day []);
      [discriminate|vm_compute; reflexivity|reflexivity].
  - unfold one_day_row.
    rewrite <- (computed_rows_agree (RT := total_power_runtime)
                  (PV := one_day_provider) one_day (utf8 "600519") (utf8 "600519")
                  (utf8 "2024-01-02") (utf8 "2024-01-02")
                  {| code := utf8 "600519";
                     start_trade_date := utf8 "2024-01-02";
                     end_trade_date := utf8 "2024-01-02";
                     start_close := 10; end_close := 10;
                     dividend_sum_per_share := 0; dividend_event_count := 0;
                     additional_shares_per_share := 0; additional_event_count := 0;
                     additional_value_per_share := 0;
                     bonus_allot_desc := []; total_return := 0 |});
      [|vm_compute; reflexivity..].
    reflexivity.
  - repeat split; vm_compute; reflexivity.
Qed.

(** On a stock whose window derivation and interval computation succeed,
    the desktop path and the CLI path build the same row: every field of
    one is the field of the other, name and annualized return included. *)
Theorem gui_cli_computed_rows_equal `{RT : Runtime} `{PV : Provider}
    (cfg : AppConfig) (s_code label : pystr) (sd ed : pystr) (res : IntervalResult) :
  derive_trade_window_from_prices (zfill s_code) (start_date cfg) (end_date cfg)
    = Ok (sd, ed) ->
  compute_interval_total_return (zfill s_code) sd ed = Ok res ->
  GuiApp.code_row (start_date cfg) (end_date cfg) (zfill s_code, label)
    = stock_row cfg s_code
  /\ forall field : string,
       get (GuiApp.code_row (start_date cfg) (end_date cfg) (zfill s_code, label)) field
       = get (stock_row cfg s_code) field.
Proof.
  intros Hd Hc.
  pose proof (computed_rows_agree cfg s_code label sd ed res Hd Hc) as Heq.
  split; [exact Heq|]. intros field. now rewrite Heq.
Qed.

(** The agreement of the two paths on a computed stock, on the one-day run. *)
Lemma gui_cli_computed_rows_equal_example :
  GuiApp.code_row (RT := total_power_runtime) (PV := one_day_provider)
    (start_date one_day) (end_date one_day) (utf8 "600519", utf8 "600519")
  = one_day_row.
Proof.
  apply (gui_cli_computed_rows_equal (RT := total_power_runtime)
           (PV := one_day_provider) one_day (utf8 "600519") (utf8 "600519")
           (utf8 "2024-01-02") (utf8 "2024-01-02")
           {| code := utf8 "600519";
              start_trade_date := utf8 "2024-01-02";
              end_trade_date := utf8 "2024-01-02";
              start_close := 10; end_close := 10;
              dividend_sum_per_share := 0; dividend_event_count := 0;
              additional_shares_per_share := 0; additional_event_count := 0;
              additional_value_per_share := 0;
              bonus_allot_desc := []; total_return := 0 |});
    vm_compute; reflexivity.
Defined.

(** ** A failed window derivation and the console summary *)

Lemma console_line_error_row (name code msg : pystr) :
  console_line_ok (Cli.error_row name code None None msg) = false.
Proof. vm_compute. reflexivity. Qed.

(** When the trading window of a configured stock cannot be derived, the
    CLI run does not return its rows: the console line of that stock's
    error row holds [None] for the two trade dates, and joining it raises
    [TypeError]. *)
Theorem run_raises_on_underived_window `{RT : Runtime} `{PV : Provider}
    (cfg : AppConfig) (s_code msg : pystr) :
  s_code ∈ stocks cfg ->
  derive_trade_window_from_prices (zfill s_code) (start_date cfg) (end_date cfg)
    = Raise msg ->
  run cfg = Raise (utf8 "sequence item 1: expected str instance, NoneType found").
Proof.
  intros Hin Hd.
  assert (forallb console_line_ok (cli_rows cfg) = false) as Hline.
  { apply not_true_iff_false. intros Hall.
    rewrite forallb_forall in Hall.
    specialize (Hall (stock_row cfg s_code)).
    assert (stock_row cfg s_code = Cli.error_row (get_stock_name (zfill s_code))
              (zfill s_code) None None msg) as Hrow.
    { unfold stock_row. now rewrite Hd. }
    rewrite Hrow, console_line_error_row in Hall.
    assert (false = true) as Habs; [|discriminate Habs].
    apply Hall. apply list_elem_of_In. unfold cli_rows.
    apply list_elem_of_fmap. now exists s_code. }
  unfold run. rewrite Hline. clear Hline.
  destruct (stocks cfg); [|reflexivity].
  apply elem_of_nil in Hin. destruct Hin.
Qed.

(** With no price history at all, the run of [january] raises. *)
Lemma run_raises_on_underived_window_example :
  run (RT := plain_runtime) (PV := silent_provider) january
  = Raise (utf8 "sequence item 1: expected str instance, NoneType found").
Proof.
  apply (run_raises_on_underived_window (RT := plain_runtime) (PV := silent_provider)
           january (utf8 "600519")
           (utf8 "Failed to fetch price history for code 600519 to derive trade window.")).
  - apply list_elem_of_here.
  - vm_compute. reflexivity.
Defined.

(* ===================================================================== *)
(** * Further properties of the code                                      *)
(* ===================================================================== *)

(** ** Exchange symbols *)

Section Symbols.
Context `{RT : Runtime}.

Lemma isdigit_no_sign (s : pystr) : isdigit s = true -> has_sign s = false.
Proof.
  destruct s as [|c s]; [reflexivity|]. cbn [isdigit forallb has_sign].
  intros [Hc _]%andb_true_iff. unfold char_isdigit, is_decimal, to_decimal in Hc.
  destruct (c =? 43) eqn:H43.
  - apply Z.eqb_eq in H43. subst c. vm_compute in Hc. discriminate.
  - destruct (c =? 45) eqn:H45; [|reflexivity].
    apply Z.eqb_eq in H45. subst c. vm_compute in Hc. discriminate.
Qed.

Lemma zfill_length (s : pystr) : length (zfill s) = Nat.max 6 (length s).
Proof.
  unfold zfill, zfill6. destruct s as [|c s']; [reflexivity|].
  destruct (has_sign (c :: s')); cbn [length]; rewrite ?length_app, ?repeat_length;
    cbn [length]; lia.
Qed.

Lemma last6_length (s : pystr) : length (last6 s) = Nat.min 6 (length s).
Proof. unfold last6. rewrite length_drop. lia. Qed.

Lemma zfill_long (s : pystr) : (6 <= length s)%nat -> zfill s = s.
Proof.
  intros Hlen. unfold zfill, zfill6.
  replace (6 - length s)%nat with 0%nat by lia. cbn [repeat app].
  destruct s as [|c s']; [reflexivity|]. now destruct (has_sign _).
Qed.

(** [_to_exchange_symbol]: a blank code is refused; a code of digits is
    padded with zeros on the left up to six characters and is never cut;
    any other code is cut to its last six characters and padded to six. *)
Theorem to_exchange_symbol_spec (code : pystr) :
  (strip code = [] ->
     _to_exchange_symbol code = Raise (utf8 "Invalid stock code: ''"))
  /\ (isdigit (strip code) = true ->
        _to_exchange_symbol code
        = Ok (repeat 48 (6 - length (strip code)) ++ strip code))
  /\ (strip code <> [] -> isdigit (strip code) = false ->
        exists sym, _to_exchange_symbol code = Ok sym
                    /\ length sym = 6%nat
                    /\ ((6 <= length (strip code))%nat ->
                        sym = drop (length (strip code) - 6) (strip code))).
Proof.
  unfold _to_exchange_symbol. split; [|split].
  - now intros ->.
  - intros Hd. destruct (strip code) as [|c s] eqn:Hs; [discriminate|].
    rewrite Hd. f_equal. unfold zfill.
    now rewrite (isdigit_no_sign _ Hd).
  - intros Hne Hd. destruct (strip code) as [|c s] eqn:Hs; [congruence|].
    rewrite Hd. cbv beta iota zeta. eexists. split; [reflexivity|]. split.
    + rewrite zfill_length, last6_length. lia.
    + intros Hlen. apply zfill_long. rewrite length_drop. lia.
Qed.

End Symbols.

Lemma to_exchange_symbol_examples :
  _to_exchange_symbol (RT := plain_runtime) (utf8 " sh600519 ") = Ok (utf8 "600519")
  /\ _to_exchange_symbol (RT := plain_runtime) (utf8 "1") = Ok (utf8 "000001")
  /\ _to_exchange_symbol (RT := plain_runtime) (utf8 "  ")
     = Raise (utf8 "Invalid stock code: ''").
Proof.
  split; [|split].
  - destruct (proj2 (proj2 (to_exchange_symbol_spec (RT := plain_runtime)
                              (utf8 " sh600519 ")))) as (sym & -> & _ & Hsym).
    + vm_compute. discriminate.
    + vm_compute. reflexivity.
    + rewrite Hsym; [vm_compute; reflexivity|vm_compute; lia].
  - rewrite (proj1 (proj2 (to_exchange_symbol_spec (RT := plain_runtime) (utf8 "1"))));
      vm_compute; reflexivity.
  - apply (proj1 (to_exchange_symbol_spec (RT := plain_runtime) (utf8 "  "))).
    vm_compute. reflexivity.
Defined.

(** ** Picking the bounds of a window in a list of trading days *)

Lemma pick_start_loop_first (s : pystr) (dates : list pystr) :
  match pick_start_trade_date_loop s dates with
  | Some d => exists pre post, dates = pre ++ d :: post /\ str_le s d
                               /\ Forall (fun x => str_lt x s) pre
  | None => Forall (fun x => str_lt x s) dates
  end.
Proof.
  induction dates as [|x dates IH]; cbn [pick_start_trade_date_loop]; [constructor|].
  destruct (str_leb s x) eqn:Hx.
  - exists [], dates. split; [reflexivity|]. split; [now apply str_leb_le|constructor].
  - assert (str_lt x s) as Hlt.
    { apply str_lt_gt. unfold str_leb in Hx. now destruct (str_compare s x). }
    destruct (pick_start_trade_date_loop s dates) as [d|].
    + destruct IH as (pre & post & -> & Hle & Hpre).
      exists (x :: pre), post. split; [reflexivity|]. split; [exact Hle|].
      now constructor.
    + now constructor.
Qed.

(** [pick_start_trade_date] returns the first day of the list that is not
    before [start_date], which on an ascending list is the earliest such
    day of the whole list; it raises exactly when every day is before
    [start_date]. *)
Theorem pick_start_trade_date_spec (start_date : pystr) (dates : list pystr) :
  match pick_start_trade_date start_date dates with
  | Ok d =>
    (exists pre post, dates = pre ++ d :: post
                      /\ Forall (fun x => str_lt x start_date) pre)
    /\ str_le start_date d
    /\ (ascending dates -> forall x, x ∈ dates -> str_le start_date x -> str_le d x)
  | Raise msg =>
    Forall (fun x => str_lt x start_date) dates
    /\ msg = utf8 "No trading date found on/after " ++ start_date
  end.
Proof.
  unfold pick_start_trade_date.
  pose proof (pick_start_loop_first start_date dates) as H.
  destruct (pick_start_trade_date_loop start_date dates) as [d|]; [|now split].
  destruct H as (pre & post & -> & Hle & Hpre).
  split; [eauto|]. split; [exact Hle|].
  intros Hasc x Hx Hsx.
  apply elem_of_app in Hx as [Hx|Hx].
  - rewrite Forall_forall in Hpre. apply Hpre in Hx.
    exfalso. apply (str_lt_irrefl x). eapply str_lt_le_trans; eauto.
  - apply StronglySorted_app_1_r in Hasc. eapply ascending_head_le; eauto.
Qed.

Lemma pick_end_loop_spec (e : pystr) (dates : list pystr) (last0 : option pystr) :
  exists pre post,
    dates = pre ++ post
    /\ Forall (fun x => str_le x e) pre
    /\ match post with [] => True | y :: _ => str_lt e y end
    /\ pick_end_trade_date_loop e last0 dates
       = match last pre with Some d => Some d | None => last0 end.
Proof.
  revert last0. induction dates as [|x dates IH]; intros last0;
    cbn [pick_end_trade_date_loop].
  - exists [], []. repeat split; constructor.
  - destruct (str_leb x e) eqn:Hx.
    + destruct (IH (Some x)) as (pre & post & -> & Hpre & Hpost & Heq).
      exists (x :: pre), post. split; [reflexivity|].
      split; [constructor; [now apply str_leb_le|exact Hpre]|].
      split; [exact Hpost|]. rewrite Heq.
      destruct pre as [|p pre]; [reflexivity|].
      change (last (x :: p :: pre)) with (last (p :: pre)).
      destruct (last (p :: pre)) eqn:Hl; [reflexivity|].
      apply last_None in Hl. discriminate.
    + exists [], (x :: dates). split; [reflexivity|]. split; [constructor|].
      split; [|reflexivity].
      apply str_lt_gt. unfold str_leb in Hx. now destruct (str_compare x e).
Qed.

(** [pick_end_trade_date] reads the list up to the first day after
    [end_date] and returns the last day read: on an ascending list, the
    latest day that is not after [end_date].  It raises exactly when the
    list is empty or starts with a day after [end_date]. *)
Theorem pick_end_trade_date_spec (end_date : pystr) (dates : list pystr) :
  match pick_end_trade_date end_date dates with
  | Ok d =>
    (exists pre post, dates = pre ++ d :: post
                      /\ Forall (fun x => str_le x end_date) (pre ++ [d])
                      /\ match post with [] => True | y :: _ => str_lt end_date y end)
    /\ (ascending dates -> forall x, x ∈ dates -> str_le x end_date -> str_le x d)
  | Raise msg =>
    match dates with [] => True | y :: _ => str_lt end_date y end
    /\ msg = utf8 "No trading date found on/before " ++ end_date
  end.
Proof.
  unfold pick_end_trade_date.
  destruct (pick_end_loop_spec end_date dates None) as (pre & post & -> & Hpre & Hpost & ->).
  destruct (last pre) as [d|] eqn:Hl.
  - apply last_Some in Hl as [pre' ->].
    split.
    + exists pre', post. rewrite <- app_assoc. repeat split; assumption.
    + intros Hasc x Hx Hxe.
      apply elem_of_app in Hx as [Hx|Hx].
      * apply elem_of_app in Hx as [Hx|Hx].
        -- apply str_lt_le.
           apply StronglySorted_app_1_l in Hasc.
           apply (StronglySorted_app_1_elem_of str_lt pre' [d]); [exact Hasc|exact Hx|left].
        -- apply list_elem_of_singleton in Hx. subst. apply str_le_refl.
      * exfalso. destruct post as [|y post]; [now apply elem_of_nil in Hx|].
        apply StronglySorted_app_1_r in Hasc.
        pose proof (ascending_head_le y post x Hasc Hx) as Hyx.
        apply (str_lt_irrefl end_date).
        eapply str_lt_le_trans; [exact Hpost|]. eapply str_le_trans; eauto.
  - apply last_None in Hl. subst pre. cbn [app]. now split.
Qed.

Section DefaultEndDay.
Context `{RT : Runtime} `{PV : Provider}.

Lemma default_end_loop_spec (today : pystr) (dates : list pystr) (prev : option pystr) :
  exists pre post,
    dates = pre ++ post
    /\ Forall (fun x => str_lt x today) pre
    /\ match post with [] => True | y :: _ => str_le today y end
    /\ get_default_end_trade_date_loop today prev dates
       = match last pre with Some d => Some d | None => prev end.
Proof.
  revert prev. induction dates as [|x dates IH]; intros prev;
    cbn [get_default_end_trade_date_loop].
  - exists [], []. repeat split; constructor.
  - destruct (str_ltb x today) eqn:Hx.
    + destruct (IH (Some x)) as (pre & post & -> & Hpre & Hpost & Heq).
      exists (x :: pre), post. split; [reflexivity|].
      split; [constructor; [now apply str_ltb_lt|exact Hpre]|].
      split; [exact Hpost|]. rewrite Heq.
      destruct pre as [|p pre]; [reflexivity|].
      change (last (x :: p :: pre)) with (last (p :: pre)).
      destruct (last (p :: pre)) eqn:Hl; [reflexivity|].
      apply last_None in Hl. discriminate.
    + exists [], (x :: dates). split; [reflexivity|]. split; [constructor|].
      split; [|reflexivity]. now apply str_ltb_false_le.
Qed.

(** [get_default_end_trade_date] on an ascending list of trading days:
    the latest day before today when there is one; otherwise the last day
    of the list, which is then today or later; an empty list is an
    [IndexError]. *)
Theorem get_default_end_trade_date_spec (dates : list pystr) :
  ascending dates ->
  match get_default_end_trade_date dates with
  | Ok d =>
    d ∈ dates
    /\ ((exists x, x ∈ dates /\ str_lt x today_str) ->
        str_lt d today_str
        /\ forall x, x ∈ dates -> str_lt x today_str -> str_le x d)
    /\ ((forall x, x ∈ dates -> str_le today_str x) ->
        last dates = Some d /\ str_le today_str d)
  | Raise msg => dates = [] /\ msg = utf8 "list index out of range"
  end.
Proof.
  intros Hasc. unfold get_default_end_trade_date.
  destruct (default_end_loop_spec today_str dates None)
    as (pre & post & -> & Hpre & Hpost & ->).
  destruct (last pre) as [d|] eqn:Hl.
  - apply last_Some in Hl as [pre' ->].
    rewrite Forall_app, Forall_singleton in Hpre. destruct Hpre as [Hpre' Hd].
    split; [set_solver|]. split.
    + intros _. split; [exact Hd|].
      intros x Hx Hxt.
      apply elem_of_app in Hx as [Hx|Hx].
      * apply elem_of_app in Hx as [Hx|Hx].
        -- apply str_lt_le. apply StronglySorted_app_1_l in Hasc.
           apply (StronglySorted_app_1_elem_of str_lt pre' [d]); [exact Hasc|exact Hx|left].
        -- apply list_elem_of_singleton in Hx. subst. apply str_le_refl.
      * exfalso. destruct post as [|y post]; [now apply elem_of_nil in Hx|].
        apply StronglySorted_app_1_r in Hasc.
        pose proof (ascending_head_le y post x Hasc Hx) as Hyx.
        apply (str_lt_irrefl x).
        eapply str_lt_le_trans; [exact Hxt|]. eapply str_le_trans; eauto.
    + intros Hall. exfalso. apply (str_lt_irrefl d).
      eapply str_lt_le_trans; [exact Hd|]. apply Hall. set_solver.
  - apply last_None in Hl. subst pre. cbn [app] in *.
    destruct (last post) as [d|] eqn:Hlp.
    + split; [now apply last_elem|]. split.
      * intros (x & Hx & Hxt). exfalso.
        destruct post as [|y post]; [now apply elem_of_nil in Hx|].
        pose proof (ascending_head_le y post x Hasc Hx) as Hyx.
        apply (str_lt_irrefl x).
        eapply str_lt_le_trans; [exact Hxt|]. eapply str_le_trans; eauto.
      * intros Hall. split; [reflexivity|]. apply Hall. now apply last_elem.
    + apply last_None in Hlp. now split.
Qed.

End DefaultEndDay.

(** ** The bounds of the derived window *)

Lemma pick_start_least (s : pystr) (dates : list pystr) (d : pystr) :
  ascending dates -> pick_start_trade_date_loop s dates = Some d ->
  d ∈ dates /\ str_le s d /\ forall x, x ∈ dates -> str_le s x -> str_le d x.
Proof.
  intros Hasc Hp. pose proof (pick_start_loop_first s dates) as H. rewrite Hp in H.
  destruct H as (pre & post & -> & Hle & Hpre).
  split; [set_solver|]. split; [exact Hle|].
  intros x Hx Hsx. apply elem_of_app in Hx as [Hx|Hx].
  - rewrite Forall_forall in Hpre. apply Hpre in Hx.
    exfalso. apply (str_lt_irrefl x). eapply str_lt_le_trans; eauto.
  - apply StronglySorted_app_1_r in Hasc. eapply ascending_head_le; eauto.
Qed.

Lemma pick_end_greatest (e : pystr) (dates : list pystr) (d : pystr) :
  ascending dates -> pick_end_trade_date_loop e None dates = Some d ->
  d ∈ dates /\ str_le d e /\ forall x, x ∈ dates -> str_le x e -> str_le x d.
Proof.
  intros Hasc Hp.
  destruct (pick_end_loop_spec e dates None) as (pre & post & -> & Hpre & Hpost & Heq).
  rewrite Hp in Heq.
  destruct (last pre) as [d'|] eqn:Hl; [|discriminate]. injection Heq as ->.
  apply last_Some in Hl as [pre' ->].
  rewrite Forall_app, Forall_singleton in Hpre. destruct Hpre as [Hpre' Hd].
  split; [set_solver|]. split; [exact Hd|].
  intros x Hx Hxe.
  apply elem_of_app in Hx as [Hx|Hx].
  - apply elem_of_app in Hx as [Hx|Hx].
    + apply str_lt_le. apply StronglySorted_app_1_l in Hasc.
      apply (StronglySorted_app_1_elem_of str_lt pre' [d']); [exact Hasc|exact Hx|left].
    + apply list_elem_of_singleton in Hx. subst. apply str_le_refl.
  - exfalso. destruct post as [|y post]; [now apply elem_of_nil in Hx|].
    apply StronglySorted_app_1_r in Hasc.
    pose proof (ascending_head_le y post x Hasc Hx) as Hyx.
    apply (str_lt_irrefl e).
    eapply str_lt_le_trans; [exact Hpost|]. eapply str_le_trans; eauto.
Qed.

Lemma head_filter_least (P : pystr -> Prop) `{forall x, Decision (P x)}
    (dates : list pystr) (s : pystr) :
  ascending dates -> head (filter P dates) = Some s ->
  s ∈ dates /\ P s /\ forall x, x ∈ dates -> P x -> str_le s x.
Proof.
  intros Hasc Hh.
  destruct (filter P dates) as [|s' rest] eqn:Hf; [discriminate|].
  injection Hh as ->.
  assert (s ∈ filter P dates) as Hin by (rewrite Hf; left).
  apply list_elem_of_filter in Hin as [HP Hin].
  split; [exact Hin|]. split; [exact HP|].
  intros x Hx HPx.
  assert (x ∈ filter P dates) as Hxf by (apply list_elem_of_filter; auto).
  rewrite Hf in Hxf. eapply ascending_head_le; [|exact Hxf].
  rewrite <- Hf. now apply ascending_filter.
Qed.

Lemma last_filter_greatest (P : pystr -> Prop) `{forall x, Decision (P x)}
    (dates : list pystr) (e : pystr) :
  ascending dates -> last (filter P dates) = Some e ->
  e ∈ dates /\ P e /\ forall x, x ∈ dates -> P x -> str_le x e.
Proof.
  intros Hasc Hl.
  assert (e ∈ filter P dates) as Hin by now apply last_elem.
  apply list_elem_of_filter in Hin as [HP Hin].
  split; [exact Hin|]. split; [exact HP|].
  intros x Hx HPx.
  assert (x ∈ filter P dates) as Hxf by (apply list_elem_of_filter; auto).
  pose proof (ascending_filter P dates Hasc) as Hfa.
  apply last_Some in Hl as [l' Hl']. rewrite Hl' in Hxf, Hfa.
  apply elem_of_app in Hxf as [Hxf|Hxf].
  - apply str_lt_le.
    apply (StronglySorted_app_1_elem_of str_lt l' [e]); [exact Hfa|exact Hxf|left].
  - apply list_elem_of_singleton in Hxf. subst. apply str_le_refl.
Qed.

Section Window.
Context `{RT : Runtime} `{PV : Provider}.

Lemma derive_from_calendar_inv (code start : pystr) (end_ : option pystr)
    (dates : list pystr) (s e : pystr) :
  derive_from_calendar code start end_ dates = Ok (s, e) ->
  pick_start_trade_date_loop start dates = Some s
  /\ (if truthy end_
      then pick_end_trade_date_loop (default [] end_) None dates = Some e
      else get_default_end_trade_date dates = Ok e)
  /\ str_le s e.
Proof.
  unfold derive_from_calendar. destruct dates as [|d0 dates]; [discriminate|].
  unfold pick_start_trade_date.
  destruct (pick_start_trade_date_loop start (d0 :: dates)) as [s0|]; [|discriminate].
  cbn [mbind outcome_bind].
  destruct (truthy end_).
  - unfold pick_end_trade_date.
    destruct (pick_end_trade_date_loop _ None (d0 :: dates)) as [e0|]; [|discriminate].
    cbn [mbind outcome_bind].
    destruct (str_ltb e0 s0) eqn:Hlt; [discriminate|].
    intros [= <- <-]. repeat split. now apply str_ltb_false_le.
  - destruct (get_default_end_trade_date (d0 :: dates)) as [e0|]; [|discriminate].
    cbn [mbind outcome_bind].
    destruct (str_ltb e0 s0) eqn:Hlt; [discriminate|].
    intros [= <- <-]. repeat split. now apply str_ltb_false_le.
Qed.

Lemma default_end_elem (dates : list pystr) (e : pystr) :
  get_default_end_trade_date dates = Ok e -> e ∈ dates.
Proof.
  unfold get_default_end_trade_date.
  destruct (get_default_end_trade_date_loop today_str None dates) as [d|] eqn:Hl.
  - intros [= <-]. eapply default_end_loop_elem; eauto.
  - destruct (last dates) as [d|] eqn:Hd; [|discriminate].
    intros [= <-]. now apply last_elem.
Qed.

Lemma truthy_end_or_today (end_ : option pystr) :
  truthy end_ = true -> end_or_today end_ = default [] end_.
Proof. unfold end_or_today. now intros ->. Qed.

Lemma truthy_previous (end_ : option pystr) (l : list pystr) (latest : pystr) :
  truthy end_ = true -> previous_if_today end_ l latest = latest.
Proof. destruct end_; [reflexivity|discriminate]. Qed.

(** The window [derive_trade_window_from_prices] returns is made of two
    trading days of the fetched history, the first not after the second;
    its start is the earliest fetched day that is not before [start_date];
    and when an end date is given its end is the latest fetched day that is
    not after [end_date]. *)
Theorem derive_trade_window_bounds (code start : pystr) (end_ : option pystr)
    (s e : pystr) :
  derive_trade_window_from_prices code start end_ = Ok (s, e) ->
  let dates := window_dates code start end_ in
  s ∈ dates /\ e ∈ dates /\ str_le s e
  /\ str_le start s
  /\ (forall x, x ∈ dates -> str_le start x -> str_le s x)
  /\ (forall end_date, end_ = Some end_date -> end_date <> [] ->
        str_le e end_date
        /\ forall x, x ∈ dates -> str_le x end_date -> str_le x e).
Proof.
  intros Hd dates.
  pose proof (window_dates_ascending code start end_) as Hasc. fold dates in Hasc.
  rewrite derive_window_dates in Hd. fold dates in Hd.
  destruct (get_hist_unadjusted_range code start end_) as [[[|r rows]|]|];
    [| |..]; try discriminate.
  2: { (* own history *)
    apply derive_from_own_inv in Hd as (latest & Hs & Hl & He & Hse).
    apply (head_filter_least (fun d => str_leb start d)) in Hs as (Hsin & Hss & Hsmin);
      [|exact Hasc].
    pose proof (previous_if_today_elem end_ _ latest Hl) as Hein. rewrite <- He in Hein.
    apply list_elem_of_filter in Hein as [_ Hein].
    split; [exact Hsin|]. split; [exact Hein|]. split; [exact Hse|].
    split; [now apply str_leb_Is_true|].
    split.
    { intros x Hx Hsx. apply Hsmin; [exact Hx|]. now apply str_leb_Is_true. }
    intros end_date -> Hne.
    assert (truthy (Some end_date) = true) as Ht by now destruct end_date.
    rewrite (truthy_previous _ _ _ Ht) in He. subst e.
    rewrite (truthy_end_or_today _ Ht) in Hl. cbn [default] in Hl.
    apply (last_filter_greatest (fun d => str_leb d end_date)) in Hl
      as (_ & Hle & Hmax); [|exact Hasc].
    split; [now apply str_leb_Is_true|].
    intros x Hx Hxe. apply Hmax; [exact Hx|]. now apply str_leb_Is_true. }
  all: apply derive_from_calendar_inv in Hd as (Hs & He & Hse);
    apply pick_start_least in Hs as (Hsin & Hss & Hsmin); [|exact Hasc];
    (split; [exact Hsin|]);
    (split; [destruct (truthy end_);
             [now apply pick_end_greatest in He as (? & _)|now apply default_end_elem]|]);
    (split; [exact Hse|]); (split; [exact Hss|]); (split; [exact Hsmin|]);
    intros end_date -> Hne;
    assert (truthy (Some end_date) = true) as Ht by (now destruct end_date);
    rewrite Ht in He; cbn [default] in He;
    apply pick_end_greatest in He as (_ & Hle & Hmax); [|exact Hasc];
    split; [exact Hle|exact Hmax].
Qed.

Lemma derive_ordered (code start : pystr) (end_ : option pystr) (s e : pystr) :
  derive_trade_window_from_prices code start end_ = Ok (s, e) -> str_le s e.
Proof.
  rewrite derive_window_dates.
  destruct (get_hist_unadjusted_range code start end_) as [[[|r rows]|]|];
    try discriminate.
  2: { now intros (latest & _ & _ & _ & Hse)%derive_from_own_inv. }
  all: now intros (_ & _ & Hse)%derive_from_calendar_inv.
Qed.

(** [resolve_trade_window] never raises its own [ValueError]: a window
    that [derive_trade_window_from_prices] returns is already ordered, so
    the function is the derivation on the first configured stock. *)
Theorem resolve_trade_window_is_derivation (cfg : AppConfig) :
  resolve_trade_window cfg
  = match stocks cfg with
    | [] => Raise (utf8 "No stocks configured to derive trading window.")
    | first :: _ =>
      derive_trade_window_from_prices (zfill first) (start_date cfg) (end_date cfg)
    end.
Proof.
  unfold resolve_trade_window. destruct (stocks cfg) as [|first rest]; [reflexivity|].
  cbv zeta.
  destruct (derive_trade_window_from_prices _ _ _) as [[s e]|m] eqn:Hd; [|reflexivity].
  cbn [mbind outcome_bind].
  apply derive_ordered, str_ltb_false_le in Hd. now rewrite Hd.
Qed.

End Window.

(** ** The close of one day *)

Section CloseOn.
Context `{RT : Runtime} `{PV : Provider}.

Lemma normalized_dates_cons (r : hist_row) (rest : list hist_row) :
  normalized_dates (r :: rest)
  = (d ← match h_date r with
         | DateOk d => Ok (Some d)
         | DateNaT => Ok None
         | DateBad msg => Raise msg
         end;
     rest' ← normalized_dates rest;
     Ok ((d, h_close r) :: rest')).
Proof. reflexivity. Qed.

Lemma normalized_dates_cases (rows : list hist_row) :
  (Forall (fun r => forall m, h_date r <> DateBad m) rows
   /\ normalized_dates rows
      = Ok (map (fun r => (match h_date r with DateOk d => Some d | _ => None end,
                           h_close r)) rows))
  \/ (exists pre r post m,
        rows = pre ++ r :: post
        /\ Forall (fun r' => forall m', h_date r' <> DateBad m') pre
        /\ h_date r = DateBad m /\ normalized_dates rows = Raise m).
Proof.
  induction rows as [|r rows IH]; [left; split; [constructor|reflexivity]|].
  rewrite normalized_dates_cons.
  destruct (h_date r) as [d| |m] eqn:Hr.
  - destruct IH as [[Hgood ->]|(pre & r' & post & m & -> & Hpre & Hm & ->)].
    + left. split; [constructor; [congruence|exact Hgood]|].
      cbn [mbind outcome_bind map]. now rewrite Hr.
    + right. exists (r :: pre), r', post, m.
      repeat split; [constructor; [congruence|exact Hpre]|exact Hm].
  - destruct IH as [[Hgood ->]|(pre & r' & post & m & -> & Hpre & Hm & ->)].
    + left. split; [constructor; [congruence|exact Hgood]|].
      cbn [mbind outcome_bind map]. now rewrite Hr.
    + right. exists (r :: pre), r', post, m.
      repeat split; [constructor; [congruence|exact Hpre]|exact Hm].
  - right. exists [], r, rows, m. repeat split; [constructor|exact Hr].
Qed.

Lemma on_date_cell (trade_date : pystr) (r : hist_row) :
  on_date trade_date (match h_date r with DateOk d => Some d | _ => None end, h_close r)
  = true <-> h_date r = DateOk trade_date.
Proof.
  unfold on_date. cbn [fst]. destruct (h_date r) as [d| |].
  - rewrite str_eqb_eq. split; congruence.
  - split; discriminate.
  - split; discriminate.
Qed.

Lemma first_row_on_date (trade_date : pystr) (rows : list hist_row) :
  let cell (r : hist_row) :=
    (match h_date r with DateOk d => Some d | _ => None end, h_close r) in
  match filter (on_date trade_date) (map cell rows) with
  | [] => Forall (fun r => h_date r <> DateOk trade_date) rows
  | c :: _ =>
    exists pre r post,
      rows = pre ++ r :: post
      /\ Forall (fun r' => h_date r' <> DateOk trade_date) pre
      /\ h_date r = DateOk trade_date /\ c = cell r
  end.
Proof.
  intros cell. induction rows as [|r rows IH]; [constructor|].
  cbn [map]. rewrite filter_cons.
  pose proof (on_date_cell trade_date r) as Hc. fold (cell r) in Hc.
  destruct (on_date trade_date (cell r)) eqn:Hon.
  - rewrite decide_True by exact I.
    exists [], r, rows. repeat split; [constructor|now apply Hc].
  - rewrite decide_False by (intros []).
    assert (h_date r <> DateOk trade_date) as Hr.
    { intros Hd. apply Hc in Hd. discriminate. }
    destruct (filter (on_date trade_date) (map cell rows)) as [|c rest].
    + now constructor.
    + destruct IH as (pre & r' & post & -> & Hpre & Hr' & ->).
      exists (r :: pre), r', post. repeat split; [now constructor|exact Hr'].
Qed.

(** [get_unadjusted_close_on] on the frame of the one-day query, the date
    column and the close column of the frame being found: it returns the
    close of the first row dated [trade_date]; and when it raises, there is
    no frame or an empty one, or a date of the frame is unreadable (the
    exception is that of the first such date), or no row has that date, or
    the first such row has a close that is not a number.  (A frame in
    which the code cannot find the two columns is not a frame of the
    provider: there the code raises [IndexError].) *)
Theorem get_unadjusted_close_on_cases (code trade_date symbol : pystr)
    (df : option (list hist_row)) :
  _to_exchange_symbol code = Ok symbol ->
  stock_zh_a_hist symbol (ymd trade_date) (ymd trade_date) = Ok df ->
  let rows := default [] df in
  let dated (r : hist_row) := h_date r = DateOk trade_date in
  let readable (r : hist_row) := forall m, h_date r <> DateBad m in
  match get_unadjusted_close_on code trade_date with
  | Ok c =>
    Forall readable rows
    /\ exists pre r post,
         rows = pre ++ r :: post /\ Forall (fun r' => ~ dated r') pre
         /\ dated r /\ h_close r = Some c
  | Raise msg =>
    (rows = []
     /\ msg = utf8 "No price data for " ++ code ++ utf8 " on " ++ trade_date)
    \/ (exists pre r post,
          rows = pre ++ r :: post /\ Forall readable pre /\ h_date r = DateBad msg)
    \/ (rows <> [] /\ Forall readable rows /\ Forall (fun r => ~ dated r) rows
        /\ msg = utf8 "Price row not found for " ++ code ++ utf8 " on " ++ trade_date)
    \/ (exists pre r post,
          Forall readable rows
          /\ rows = pre ++ r :: post /\ Forall (fun r' => ~ dated r') pre
          /\ dated r /\ h_close r = None
          /\ msg = utf8 "Invalid close price for " ++ code ++ utf8 " on " ++ trade_date)
  end.
Proof.
  intros Hsym Hdf rows dated readable.
  unfold get_unadjusted_close_on, _get_hist_df_unadjusted.
  rewrite Hsym. cbn [mbind outcome_bind]. rewrite Hdf. cbn [mbind outcome_bind].
  destruct df as [[|r0 rows0]|]; cbn [default id] in rows; [now left|  |now left].
  destruct (normalized_dates_cases rows)
    as [[Hgood Hnd]|(pre & r & post & m & Hrows & Hpre & Hm & Hnd)];
    fold rows; rewrite Hnd; cbn [mbind outcome_bind].
  2: { right. left. exists pre, r, post. auto. }
  pose proof (first_row_on_date trade_date rows) as Hsplit. cbv zeta in Hsplit.
  destruct (filter (on_date trade_date) _) as [|c rest].
  - right. right. left. repeat split; [discriminate|exact Hgood|exact Hsplit].
  - destruct Hsplit as (pre & r & post & Hrows & Hpre & Hr & ->).
    destruct (h_close r) as [c|] eqn:Hc.
    + split; [exact Hgood|]. exists pre, r, post. auto.
    + right. right. right. exists pre, r, post. repeat split; auto.
Qed.

End CloseOn.

(** ** Dividends of adjacent intervals *)

Lemma within_split (a b c d : pystr) :
  str_le a b -> str_le b c ->
  (within a c d <-> within a b d \/ within b c d).
Proof.
  intros Hab Hbc. unfold within. split.
  - intros [Had Hdc].
    destruct (str_compare d b) eqn:Hdb.
    + left. split; [exact Had|]. unfold str_le. congruence.
    + left. split; [exact Had|]. unfold str_le. congruence.
    + right. split; [now apply str_lt_gt|exact Hdc].
  - intros [[Had Hdb]|[Hbd Hdc]].
    + split; [exact Had|]. eapply str_le_trans; eauto.
    + split; [|exact Hdc]. eapply str_le_lt_trans; eauto.
Qed.

Lemma within_disjoint (a b c d : pystr) : within a b d -> within b c d -> False.
Proof.
  intros [_ Hdb] [Hbd _]. apply (str_lt_irrefl b). eapply str_lt_le_trans; eauto.
Qed.

Lemma interval_count_split (events : list DividendEvent) (a b c : pystr) :
  str_le a b -> str_le b c ->
  length (interval_events events a c)
  = (length (interval_events events a b) + length (interval_events events b c))%nat.
Proof.
  intros Hab Hbc. unfold interval_events.
  induction events as [|ev events IH]; [reflexivity|].
  rewrite !filter_cons.
  pose proof (within_split a b c (ex_date ev) Hab Hbc) as Hs.
  pose proof (within_disjoint a b c (ex_date ev)) as Hdis.
  destruct (decide (within a c (ex_date ev))) as [Hac|Hac],
           (decide (within a b (ex_date ev))) as [H1|H1],
           (decide (within b c (ex_date ev))) as [H2|H2];
    cbn [length]; try lia; tauto.
Qed.

Lemma interval_events_reversed (events : list DividendEvent) (s e : pystr) :
  str_le e s -> interval_events events s e = [].
Proof.
  intros Hes. unfold interval_events.
  induction events as [|ev events IH]; [reflexivity|].
  rewrite filter_cons_False; [exact IH|].
  intros [Hsd Hde]. apply (str_lt_irrefl s).
  eapply str_lt_le_trans; [exact Hsd|]. eapply str_le_trans; eauto.
Qed.

(** Two adjacent intervals share no event and miss none: the number of
    events [sum_cash_dividends_in_interval] counts over (a, c] is the sum of
    its counts over (a, b] and (b, c]; and over an interval whose end is not
    after its start it returns (0.0, 0). *)
Theorem sum_cash_dividends_adjacent :
  (forall (events : list DividendEvent) (a b c : pystr),
     str_le a b -> str_le b c ->
     snd (sum_cash_dividends_in_interval events a c)
     = snd (sum_cash_dividends_in_interval events a b)
       + snd (sum_cash_dividends_in_interval events b c))
  /\ (forall (events : list DividendEvent) (s e : pystr),
        str_le e s -> sum_cash_dividends_in_interval events s e = (0%float, 0)).
Proof.
  split.
  - intros events a b c Hab Hbc. unfold sum_cash_dividends_in_interval.
    rewrite !sum_cash_dividends_loop_spec. cbn [snd].
    rewrite (interval_count_split events a b c Hab Hbc). lia.
  - intros events s e Hes. unfold sum_cash_dividends_in_interval.
    rewrite sum_cash_dividends_loop_spec, (interval_events_reversed events s e Hes).
    reflexivity.
Qed.

(** The counts over the two halves of 2023 add up to the count over the
    year. *)
Lemma sum_cash_dividends_adjacent_example :
  let events := [event "2023-03-15" 0.25; event "2023-06-30" 0.5;
                 event "2023-12-20" 0.5; event "2024-01-05" 1] in
  snd (sum_cash_dividends_in_interval events (utf8 "2022-12-31") (utf8 "2023-12-31")) = 3
  /\ snd (sum_cash_dividends_in_interval events (utf8 "2022-12-31") (utf8 "2023-06-30")) = 2
  /\ snd (sum_cash_dividends_in_interval events (utf8 "2023-06-30") (utf8 "2023-12-31")) = 1
  /\ sum_cash_dividends_in_interval events (utf8 "2023-12-31") (utf8 "2023-06-30")
     = (0%float, 0).
Proof.
  intros events.
  pose proof (proj1 sum_cash_dividends_adjacent events (utf8 "2022-12-31")
                (utf8 "2023-06-30") (utf8 "2023-12-31")) as Hadd.
  assert (snd (sum_cash_dividends_in_interval events (utf8 "2022-12-31")
                 (utf8 "2023-06-30")) = 2) as H1 by (vm_compute; reflexivity).
  assert (snd (sum_cash_dividends_in_interval events (utf8 "2023-06-30")
                 (utf8 "2023-12-31")) = 1) as H2 by (vm_compute; reflexivity).
  split; [|split; [exact H1|split; [exact H2|]]].
  - rewrite Hadd, H1, H2; [reflexivity|vm_compute; discriminate..].
  - apply (proj2 sum_cash_dividends_adjacent). vm_compute. discriminate.
Defined.

(** ** The rows of a run *)

Section RowsOfRun.
Context `{RT : Runtime} `{PV : Provider}.

Lemma cli_error_row_fields name code sd ed msg :
  get (Cli.error_row name code sd ed msg) "name" = VStr name
  /\ get (Cli.error_row name code sd ed msg) "code" = VStr code
  /\ get (Cli.error_row name code sd ed msg) "error" = VStr msg
  /\ get (Cli.error_row name code sd ed msg) "start_trade_date" = opt_str sd
  /\ get (Cli.error_row name code sd ed msg) "end_trade_date" = opt_str ed.
Proof. repeat split; vm_compute; reflexivity. Qed.

Lemma gui_error_row_fields name code msg :
  get (GuiApp.error_row name code msg) "name" = VStr name
  /\ get (GuiApp.error_row name code msg) "code" = VStr code
  /\ get (GuiApp.error_row name code msg) "error" = VStr msg.
Proof. repeat split; vm_compute; reflexivity. Qed.

Lemma success_row_fields res name code sd ed :
  get (success_row res name code sd ed) "name" = VStr name
  /\ get (success_row res name code sd ed) "code" = VStr code
  /\ get (success_row res name code sd ed) "error" = VNone.
Proof.
  unfold success_row.
  destruct (match sum_additional_shares_in_interval _ _ _ with
            | Ok r => r | Raise _ => _ end) as [[add_shares add_count] add_desc].
  repeat split; vm_compute; reflexivity.
Qed.

Lemma stock_row_name_code (cfg : AppConfig) (s : pystr) :
  get (stock_row cfg s) "name" = VStr (get_stock_name (zfill s))
  /\ get (stock_row cfg s) "code" = VStr (zfill s).
Proof.
  unfold stock_row.
  destruct (derive_trade_window_from_prices _ _ _) as [[sd ed]|e].
  - destruct (compute_interval_total_return _ sd ed) as [res|e].
    + split; apply success_row_fields.
    + split; apply cli_error_row_fields.
  - split; apply cli_error_row_fields.
Qed.

(** A run of the CLI that returns has one row per configured stock, in the
    order of the configuration, repeated stocks included; the row of a
    stock carries its code padded to six characters and the name found for
    that code. *)
Theorem run_rows_follow_config (cfg : AppConfig) (rows : list row) :
  run cfg = Ok rows ->
  length rows = length (stocks cfg)
  /\ forall (i : nat) (s : pystr), stocks cfg !! i = Some s ->
       exists r, rows !! i = Some r
                 /\ get r "code" = VStr (zfill s)
                 /\ get r "name" = VStr (get_stock_name (zfill s)).
Proof.
  unfold run. destruct (stocks cfg) as [|s0 rest] eqn:Hst; [discriminate|].
  destruct (forallb _ _); [|discriminate].
  destruct (rows_to_csv _); [|discriminate].
  cbn [mbind outcome_bind]. intros [= <-]. unfold cli_rows. rewrite Hst.
  split; [now rewrite length_map|].
  intros i s Hi. exists (stock_row cfg s). split.
  - rewrite list_lookup_fmap, Hi. reflexivity.
  - split; apply stock_row_name_code.
Qed.

(** The start close of a stock being zero, the division of the total
    return raises, and the stock gets an error row on both paths, with the
    text of [ZeroDivisionError]. *)
Theorem zero_start_close_rows (cfg : AppConfig) (s_code label sd ed : pystr)
    (sc ec : float) (events : list DividendEvent) (add : float * Z * pystr) :
  derive_trade_window_from_prices (zfill s_code) (start_date cfg) (end_date cfg)
    = Ok (sd, ed) ->
  get_unadjusted_close_on (zfill s_code) sd = Ok sc ->
  (sc =? 0)%float = true ->
  get_unadjusted_close_on (zfill s_code) ed = Ok ec ->
  get_dividends (zfill s_code) = Ok events ->
  sum_additional_shares_in_interval (zfill s_code) sd ed = Ok add ->
  compute_interval_total_return (zfill s_code) sd ed
    = Raise (utf8 "float division by zero")
  /\ stock_row cfg s_code
     = Cli.error_row (get_stock_name (zfill s_code)) (zfill s_code) (Some sd) (Some ed)
         (utf8 "float division by zero")
  /\ GuiApp.code_row (start_date cfg) (end_date cfg) (zfill s_code, label)
     = GuiApp.error_row (get_stock_name (zfill s_code)) (zfill s_code)
         (utf8 "float division by zero").
Proof.
  intros Hd Hsc Hz Hec Hev Hadd.
  assert (compute_interval_total_return (zfill s_code) sd ed
          = Raise (utf8 "float division by zero")) as Hc.
  { unfold compute_interval_total_return.
    rewrite Hsc, Hec, Hev. cbn [mbind outcome_bind].
    destruct (sum_cash_dividends_in_interval events sd ed) as [div_sum div_count].
    rewrite Hadd. destruct add as [[a n] desc]. cbn [mbind outcome_bind].
    unfold total_return_formula, float_div. now rewrite Hz. }
  split; [exact Hc|]. split.
  - unfold stock_row. now rewrite Hd, Hc.
  - unfold GuiApp.code_row, GuiApp.computed_row. cbn [fst].
    rewrite Hd. cbn [mbind outcome_bind]. now rewrite Hc.
Qed.

End RowsOfRun.

(** ** The rows of [compute_for_codes] *)

Section GuiRows.
Context `{RT : Runtime} `{PV : Provider}.
Import GuiApp.

Lemma resolved_unresolved_length (items : list (pystr * option pystr)) :
  (length (unresolved_items items) + length (normalized items))%nat = length items.
Proof.
  unfold unresolved_items, normalized.
  induction items as [|[s [rc|]] items IH]; cbn; lia.
Qed.

Lemma code_row_name_code (start : pystr) (end_ : option pystr) (entry : pystr * pystr) :
  get (code_row start end_ entry) "code" = VStr (fst entry)
  /\ get (code_row start end_ entry) "name" = VStr (get_stock_name (fst entry)).
Proof.
  unfold code_row.
  destruct (computed_row _ _ _ _) as [r|e] eqn:Hr.
  2: { split; apply gui_error_row_fields. }
  unfold computed_row in Hr.
  destruct (derive_trade_window_from_prices _ _ _) as [[sd ed]|]; [|discriminate Hr].
  cbn [mbind outcome_bind] in Hr.
  destruct (compute_interval_total_return _ sd ed) as [res|]; [|discriminate Hr].
  cbn [mbind outcome_bind] in Hr.
  destruct (compute_additional_and_desc _ _ _) as [[add_shares add_count] add_desc].
  destruct (total_return_formula _ _ _ _) as [tr|]; [|discriminate Hr].
  cbn [mbind outcome_bind] in Hr. injection Hr as <-.
  split; vm_compute; reflexivity.
Qed.

(** [compute_for_codes] answers every item it is given with exactly one
    row: first the items it cannot resolve, each with an empty code and
    the error "Unknown stock name or code", then the resolved ones, each
    with the code it resolved to. *)
Theorem compute_for_codes_rows (codes : list pystr) (start : pystr)
    (end_ : option pystr) :
  let items := resolve_items (fst build_code_maps) codes in
  length (compute_for_codes codes start end_) = length codes
  /\ exists unknown known,
       compute_for_codes codes start end_ = unknown ++ known
       /\ Forall2 (fun r s => get r "name" = VStr s /\ get r "code" = VStr []
                              /\ get r "error" = VStr (utf8 "Unknown stock name or code"))
            unknown (unresolved_items items)
       /\ Forall2 (fun r e => get r "code" = VStr (fst e)
                              /\ get r "name" = VStr (get_stock_name (fst e)))
            known (normalized items).
Proof.
  intros items. unfold compute_for_codes. fold items. split.
  - rewrite length_app, !length_map, resolved_unresolved_length.
    unfold items, resolve_items. now rewrite length_map.
  - eexists _, _. split; [reflexivity|]. split.
    + apply Forall2_fmap_l, Forall_Forall2_diag, Forall_forall.
      intros s _. cbv beta.
      exact (gui_error_row_fields s [] (utf8 "Unknown stock name or code")).
    + apply Forall2_fmap_l, Forall_Forall2_diag, Forall_forall.
      intros e _. cbv beta. exact (code_row_name_code start end_ e).
Qed.

End GuiRows.

(** ** Stripped texts *)

Section Strip.
Context `{RT : Runtime}.

Lemma lstrip_head (s : pystr) :
  match lstrip s with [] => True | c :: _ => isspace c = false end.
Proof.
  induction s as [|c s IH]; [exact I|]. cbn [lstrip].
  destruct (isspace c) eqn:Hc; [exact IH|exact Hc].
Qed.

Lemma lstrip_id (s : pystr) :
  match s with [] => True | c :: _ => isspace c = false end -> lstrip s = s.
Proof. destruct s as [|c s]; [reflexivity|]. cbn [lstrip]. now intros ->. Qed.

Lemma lstrip_idem (s : pystr) : lstrip (lstrip s) = lstrip s.
Proof. apply lstrip_id, lstrip_head. Qed.

Lemma lstrip_suffix (s : pystr) :
  exists pre, s = pre ++ lstrip s /\ Forall (fun c => isspace c = true) pre.
Proof.
  induction s as [|c s IH]; [now exists []|]. cbn [lstrip].
  destruct (isspace c) eqn:Hc.
  - destruct IH as (pre & Heq & Hpre). exists (c :: pre). split.
    + cbn [app]. now f_equal.
    + now constructor.
  - now exists [].
Qed.

Lemma strip_decompose (s : pystr) :
  exists pre post,
    s = pre ++ strip s ++ post
    /\ Forall (fun c => isspace c = true) pre
    /\ Forall (fun c => isspace c = true) post.
Proof.
  unfold strip.
  destruct (lstrip_suffix s) as (pre & Hs & Hpre).
  destruct (lstrip_suffix (rev (lstrip s))) as (post & Hr & Hpost).
  exists pre, (rev post). split; [|split; [exact Hpre|]].
  - rewrite <- rev_app_distr, <- Hr, rev_involutive. exact Hs.
  - apply Forall_forall. intros c Hc. rewrite Forall_forall in Hpost.
    apply Hpost. apply list_elem_of_In, in_rev, list_elem_of_In. exact Hc.
Qed.

Lemma strip_idem (s : pystr) : strip (strip s) = strip s.
Proof.
  unfold strip at 1.
  assert (lstrip (strip s) = strip s) as ->.
  { apply lstrip_id.
    destruct (strip s) as [|c l] eqn:Hst; [exact I|].
    destruct (lstrip_suffix (rev (lstrip s))) as (post & Hr & _).
    assert (lstrip s = strip s ++ rev post) as Hl.
    { unfold strip. rewrite <- rev_app_distr, <- Hr. now rewrite rev_involutive. }
    pose proof (lstrip_head s) as Hh. rewrite Hl, Hst in Hh. exact Hh. }
  unfold strip. rewrite rev_involutive, lstrip_idem. reflexivity.
Qed.

Lemma strip_elem (s : pystr) (c : Z) : c ∈ strip s -> c ∈ s.
Proof.
  destruct (strip_decompose s) as (pre & post & Hs & _ & _).
  intros Hc. rewrite Hs. set_solver.
Qed.

Lemma filter_spaces (P : Z -> Prop) `{forall c, Decision (P c)} (l : pystr) :
  (forall c, P c -> isspace c = false) ->
  Forall (fun c => isspace c = true) l -> filter P l = [].
Proof.
  intros HP. induction 1 as [|c l Hc _ IH]; [reflexivity|].
  rewrite filter_cons_False; [exact IH|]. intros Hp. apply HP in Hp. congruence.
Qed.

Lemma filter_strip (P : Z -> Prop) `{forall c, Decision (P c)} (s : pystr) :
  (forall c, P c -> isspace c = false) ->
  filter P (strip s) = filter P s.
Proof.
  intros HP. destruct (strip_decompose s) as (pre & post & Hs & Hpre & Hpost).
  rewrite Hs at 2. rewrite !filter_app.
  rewrite (filter_spaces P pre HP Hpre), (filter_spaces P post HP Hpost).
  now rewrite app_nil_r.
Qed.

End Strip.

(** ** The items of the stocks field *)

Lemma replace_elem (old : Z) (new s : pystr) (c : Z) :
  c ∈ replace old new s <-> (c ∈ s /\ c <> old) \/ (old ∈ s /\ c ∈ new).
Proof.
  unfold replace. induction s as [|x s IH]; cbn [flat_map].
  - rewrite !elem_of_nil. tauto.
  - rewrite elem_of_app, IH, !elem_of_cons.
    destruct (Z.eqb_spec x old) as [->|Hne].
    + intuition congruence.
    + rewrite list_elem_of_singleton. intuition congruence.
Qed.

Lemma split_on_parts (c : Z) (s : pystr) (p : pystr) :
  p ∈ WebApp.split_on c s -> forall x, x ∈ p -> x ∈ s /\ x <> c.
Proof.
  revert p. induction s as [|y s IH]; intros p; cbn [WebApp.split_on].
  - intros ->%list_elem_of_singleton x Hx. now apply elem_of_nil in Hx.
  - destruct (Z.eqb_spec y c) as [->|Hne].
    + intros [->|Hp]%elem_of_cons x Hx; [now apply elem_of_nil in Hx|].
      destruct (IH p Hp x Hx). split; [now right|assumption].
    + destruct (WebApp.split_on c s) as [|h t] eqn:Hsp.
      * intros ->%list_elem_of_singleton x ->%list_elem_of_singleton. split; [left|exact Hne].
      * intros [->|Hp]%elem_of_cons x Hx.
        -- apply elem_of_cons in Hx as [->|Hx]; [split; [left|exact Hne]|].
           destruct (IH h (list_elem_of_here _ _) x Hx). split; [now right|assumption].
        -- destruct (IH p (list_elem_of_further _ _ _ Hp) x Hx).
           split; [now right|assumption].
Qed.

Lemma split_on_concat (c : Z) (s : pystr) :
  concat (WebApp.split_on c s) = filter (fun x => x <> c) s.
Proof.
  induction s as [|y s IH]; [reflexivity|]. cbn [WebApp.split_on].
  rewrite filter_cons. destruct (Z.eqb_spec y c) as [->|Hne].
  - rewrite decide_False by congruence. exact IH.
  - rewrite decide_True by exact Hne.
    destruct (WebApp.split_on c s) as [|h t]; cbn [concat app] in *; now f_equal.
Qed.

Section Items.
Context `{RT : Runtime} `{PV : Provider}.

Lemma parts_chars (text : pystr) :
  filter item_char
    (concat (WebApp.split_on 44 (replace 32 [44] (replace 65292 [44] text))))
  = filter item_char text.
Proof.
  rewrite split_on_concat. unfold replace.
  induction text as [|c text IH]; [reflexivity|].
  cbn [flat_map]. rewrite !flat_map_app, !filter_app, IH. clear IH.
  rewrite (filter_cons _ c).
  destruct (Z.eqb_spec c 65292) as [->|H1]; cbn [flat_map app].
  - change (44 =? 32) with false. cbn [app filter].
    rewrite !filter_cons, decide_False by congruence.
    rewrite decide_False by (unfold item_char; tauto). reflexivity.
  - destruct (Z.eqb_spec c 32) as [->|H2]; cbn [app].
    + rewrite !filter_cons, decide_False by congruence.
      rewrite decide_False; [reflexivity|].
      unfold item_char. intros [Hs _]. vm_compute in Hs. discriminate.
    + rewrite !filter_cons.
      destruct (decide (c <> 44)) as [H3|H3].
      * rewrite !filter_cons. destruct (decide (item_char c)); reflexivity.
      * rewrite decide_False; [reflexivity|]. unfold item_char. tauto.
Qed.

Lemma replace_absent (old : Z) (new s : pystr) : old ∉ s -> replace old new s = s.
Proof.
  unfold replace. induction s as [|x s IH]; [reflexivity|].
  intros Hs. apply not_elem_of_cons in Hs as [Hx Hs]. cbn [flat_map].
  destruct (Z.eqb_spec x old) as [->|_]; [congruence|]. cbn [app]. now rewrite IH.
Qed.

Lemma split_on_absent (c : Z) (s : pystr) : c ∉ s -> WebApp.split_on c s = [s].
Proof.
  induction s as [|x s IH]; [reflexivity|].
  intros Hs. apply not_elem_of_cons in Hs as [Hx Hs]. cbn [WebApp.split_on].
  destruct (Z.eqb_spec x c) as [->|_]; [congruence|]. now rewrite IH.
Qed.

(** The items [parse_codes_input] returns are not blank, carry no white
    space at either end and none of the separators (comma, full-width comma,
    blank); the characters of the items that are neither white space nor a
    separator are, in order, those of the input: none of these is lost,
    added or moved.  White space other than a blank stays inside an item: a
    stripped text without separators, "a<TAB>b" for one, is a single item,
    itself. *)
Theorem parse_codes_input_items (text : pystr) :
  Forall (fun p => p <> [] /\ strip p = p
                   /\ (44 ∉ p) /\ (32 ∉ p) /\ (65292 ∉ p))
    (WebApp.parse_codes_input text)
  /\ filter item_char (concat (WebApp.parse_codes_input text))
     = filter item_char text
  /\ (text <> [] -> strip text = text ->
      (44 ∉ text) -> (32 ∉ text) -> (65292 ∉ text) ->
      WebApp.parse_codes_input text = [text]).
Proof.
  unfold WebApp.parse_codes_input.
  set (parts := WebApp.split_on 44 _). split; [|split].
  3: { intros Hne Hst H44 H32 H65292. unfold parts.
       rewrite (replace_absent 65292), (replace_absent 32), split_on_absent
         by assumption.
       rewrite filter_cons_True, filter_nil.
       - cbn [map]. now rewrite Hst.
       - rewrite Hst. now destruct text. }
  - apply Forall_forall. intros p (q & -> & Hq)%list_elem_of_fmap.
    apply list_elem_of_filter in Hq as [Hq Hin].
    split; [destruct (strip q); [destruct Hq|discriminate]|].
    split; [apply strip_idem|].
    assert (forall x, x ∈ strip q -> x <> 44 /\ x <> 32 /\ x <> 65292) as Hx.
    { intros x Hxq%strip_elem.
      destruct (split_on_parts 44 _ q Hin x Hxq) as [Hxt H44].
      split; [exact H44|].
      apply replace_elem in Hxt as [[Hxt H32]|[_ Hxt]].
      - split; [exact H32|].
        apply replace_elem in Hxt as [[_ Hf]|[_ Hxt]]; [exact Hf|].
        apply list_elem_of_singleton in Hxt. congruence.
      - apply list_elem_of_singleton in Hxt. congruence. }
    repeat split; intros Hc; apply Hx in Hc; tauto.
  - rewrite <- (parts_chars text). fold parts.
    generalize parts. clear parts. intros parts.
    induction parts as [|q parts IH]; [reflexivity|].
    rewrite filter_cons. cbn [concat]. rewrite (filter_app _ q), <- IH.
    assert (filter item_char (strip q) = filter item_char q) as Hs.
    { apply filter_strip. now intros c [Hc _]. }
    destruct (decide (Is_true (GuiApp.str_truthy (strip q)))) as [Ht|Ht].
    + cbn [map concat]. now rewrite filter_app, Hs.
    + assert (strip q = []) as Hq by (destruct (strip q); [reflexivity|destruct Ht; exact I]).
      rewrite <- Hs, Hq. reflexivity.
Qed.

End Items.

(** ** Dictionaries of names and codes *)

Section Dictionaries.
Import GuiApp.

Lemma str_eqb_refl (a : pystr) : str_eqb a a = true.
Proof. now apply str_eqb_eq. Qed.

Lemma str_eqb_neq (a b : pystr) : a <> b -> str_eqb a b = false.
Proof.
  intros Hne. destruct (str_eqb a b) eqn:H; [|reflexivity].
  apply str_eqb_eq in H. contradiction.
Qed.

Lemma dict_get_elem (d : pydict) (k v : pystr) : dict_get d k = Some v -> (k, v) ∈ d.
Proof.
  induction d as [|[k' v'] d IH]; cbn [dict_get]; [discriminate|].
  destruct (str_eqb k' k) eqn:Hk.
  - apply str_eqb_eq in Hk. intros [= ->]. subst. left.
  - intros H. right. auto.
Qed.

Lemma dict_get_set_eq (d : pydict) (k v : pystr) : dict_get (dict_set d k v) k = Some v.
Proof.
  induction d as [|[k' v'] d IH]; cbn [dict_set dict_get].
  - now rewrite str_eqb_refl.
  - destruct (str_eqb k' k) eqn:Hk; cbn [dict_get]; rewrite Hk; [reflexivity|exact IH].
Qed.

Lemma dict_get_set_ne (d : pydict) (k k' v : pystr) :
  k' <> k -> dict_get (dict_set d k v) k' = dict_get d k'.
Proof.
  intros Hne. induction d as [|[k0 v0] d IH]; cbn [dict_set dict_get].
  - rewrite str_eqb_neq by congruence. reflexivity.
  - destruct (str_eqb k0 k) eqn:Hk; cbn [dict_get].
    + apply str_eqb_eq in Hk. subst k0. rewrite str_eqb_neq by congruence. reflexivity.
    + destruct (str_eqb k0 k'); [reflexivity|exact IH].
Qed.

Lemma dict_get_setdefault_old (d : pydict) (k k' v v' : pystr) :
  dict_get d k = Some v -> dict_get (dict_setdefault d k' v') k = Some v.
Proof.
  intros Hk. unfold dict_setdefault.
  destruct (dict_get d k') as [w|] eqn:Hk'; [exact Hk|].
  rewrite dict_get_set_ne; [exact Hk|]. intros ->. congruence.
Qed.

Lemma dict_get_setdefault_new (d : pydict) (k v : pystr) :
  exists w, dict_get (dict_setdefault d k v) k = Some w
            /\ (dict_get d k = None -> w = v).
Proof.
  unfold dict_setdefault. destruct (dict_get d k) as [w|] eqn:Hk.
  - exists w. split; [exact Hk|discriminate].
  - exists v. split; [apply dict_get_set_eq|reflexivity].
Qed.

End Dictionaries.

Section CodeMaps.
Context `{RT : Runtime} `{PV : Provider}.
Import GuiApp.

Lemma add_static_keeps (l : pydict) (maps : pydict * pydict) (k v : pystr) :
  dict_get (fst maps) k = Some v ->
  dict_get (fst (foldl add_static maps l)) k = Some v.
Proof.
  revert maps. induction l as [|[nm cd] l IH]; intros maps Hk; [exact Hk|].
  cbn [foldl]. apply IH. unfold add_static. cbn [fst snd].
  now apply dict_get_setdefault_old.
Qed.

Lemma add_static_has (l : pydict) (maps : pydict * pydict) (nm cd : pystr) :
  (nm, cd) ∈ l -> is_Some (dict_get (fst (foldl add_static maps l)) nm).
Proof.
  revert maps. induction l as [|[nm' cd'] l IH]; intros maps Hin.
  - now apply elem_of_nil in Hin.
  - cbn [foldl]. apply elem_of_cons in Hin as [[= <- <-]|Hin]; [|now apply IH].
    destruct (dict_get_setdefault_new (fst maps) nm cd) as (w & Hw & _).
    exists w. apply add_static_keeps. exact Hw.
Qed.

Lemma add_primary_keeps (l : list (pystr * pystr)) (maps : pydict * pydict)
    (k v : pystr) :
  dict_get (fst maps) k = Some v ->
  Forall (fun r => strip (snd r) <> k) l ->
  dict_get (fst (foldl add_primary maps l)) k = Some v.
Proof.
  revert maps. induction l as [|[raw nm] l IH]; intros maps Hk Hl; [exact Hk|].
  apply Forall_cons in Hl as [Hr Hl]. cbn [foldl]. apply IH; [|exact Hl].
  unfold add_primary. cbn [fst snd] in *.
  destruct (str_truthy (strip nm)); [|exact Hk]. cbn [fst].
  rewrite dict_get_set_ne by congruence. exact Hk.
Qed.

(** The name table [build_code_maps] returns: the last row of the code-name
    list that carries a name decides the code of that name, whatever the spot
    list and the built-in table say; and each of the four built-in names is
    always known, with its built-in code when the two lists are empty. *)
Theorem build_code_maps_names :
  (forall (pre post : list (pystr * pystr)) (raw nm : pystr),
     code_name_rows = pre ++ (raw, nm) :: post ->
     strip nm <> [] ->
     Forall (fun r => strip (snd r) <> strip nm) post ->
     dict_get (fst build_code_maps) (strip nm) = Some (norm_code raw))
  /\ (forall nm cd : pystr,
        (nm, cd) ∈ static_map ->
        exists c, dict_get (fst build_code_maps) nm = Some c
                  /\ (code_name_rows = [] -> spot_rows = [] -> c = cd)).
Proof.
  split.
  - intros pre post raw nm Hrows Hnm Hpost. unfold build_code_maps.
    assert (dict_get (fst (foldl add_primary ([], []) code_name_rows)) (strip nm)
            = Some (norm_code raw)) as Hp.
    { rewrite Hrows, foldl_app. cbn [foldl].
      apply add_primary_keeps; [|exact Hpost].
      unfold add_primary at 1. cbn [fst snd].
      destruct (strip nm) as [|c s] eqn:Hs; [congruence|]. cbn [str_truthy fst].
      apply dict_get_set_eq. }
    destruct (fst (foldl add_primary ([], []) code_name_rows)) eqn:Hfst.
    + discriminate Hp.
    + apply add_static_keeps. rewrite Hfst. exact Hp.
  - intros nm cd Hin. unfold build_code_maps.
    match goal with |- context [foldl add_static ?b static_map] => set (both := b) end.
    destruct (add_static_has static_map both nm cd Hin) as [c Hc].
    exists c. split; [exact Hc|].
    intros Hrows Hspot. subst both. rewrite Hrows, Hspot in Hc. cbn [foldl fst] in Hc.
    apply list_elem_of_In in Hin. cbv [static_map In] in Hin.
    destruct Hin as [[= <- <-]|[[= <- <-]|[[= <- <-]|[[= <- <-]|[]]]]];
      vm_compute in Hc; injection Hc as <-; vm_compute; reflexivity.
Qed.

(** [resolve_to_code]: a blank text resolves to nothing; digits, six at
    most, resolve to themselves padded to six without the table being read;
    any other text resolves to a code of the table only, that of a name
    equal to the text, equal up to case, or containing or contained in it;
    and when no name of the table is so related it resolves to nothing. *)
Theorem resolve_to_code_cases (text : pystr) (name_to_code : pydict) :
  let s := strip text in
  match resolve_to_code text name_to_code with
  | Some c =>
    s <> []
    /\ ((isdigit s = true /\ (length s <= 6)%nat /\ c = zfill s)
        \/ ((isdigit s = false \/ (6 < length s)%nat)
            /\ exists k, (k, c) ∈ name_to_code
                 /\ (k = s \/ lower k = lower s
                     \/ contains s k = true \/ contains k s = true)))
  | None =>
    s = []
    \/ ((isdigit s = false \/ (6 < length s)%nat)
        /\ forall k c, (k, c) ∈ name_to_code ->
             lower k <> lower s /\ contains s k = false /\ contains k s = false)
  end.
Proof.
  intros s. unfold resolve_to_code. fold s.
  destruct s as [|c0 s0] eqn:Hs; [now left|]. rewrite <- Hs.
  assert (s <> []) as Hne by (rewrite Hs; discriminate).
  destruct (isdigit s && (length s <=? 6)%nat) eqn:Hd.
  { apply andb_true_iff in Hd as [Hd Hl]. apply Nat.leb_le in Hl.
    split; [exact Hne|]. left. auto. }
  assert (isdigit s = false \/ (6 < length s)%nat) as Hnd.
  { apply andb_false_iff in Hd as [Hd|Hd]; [now left|right].
    apply Nat.leb_gt in Hd. exact Hd. }
  destruct (dict_get name_to_code s) as [[|c code]|] eqn:Hg.
  2: { split; [exact Hne|]. right. split; [exact Hnd|].
       exists s. split; [now apply dict_get_elem|now left]. }
  all: destruct (filter (fun kv => Is_true (str_eqb (lower kv.1) (lower s))) name_to_code)
         as [|[k v] rest] eqn:Hf1.
  all: try (split; [exact Hne|]; right; split; [exact Hnd|];
            assert ((k, v) ∈ filter (fun kv => Is_true (str_eqb (lower kv.1) (lower s)))
                                name_to_code) as Hin by (rewrite Hf1; left);
            apply list_elem_of_filter in Hin as [Hk Hin];
            exists k; split; [exact Hin|]; right; left;
            apply str_eqb_eq; now apply Is_true_true).
  all: destruct (filter (fun kv => Is_true (contains s kv.1 || contains kv.1 s)) name_to_code)
         as [|[k v] rest] eqn:Hf2.
  all: try (split; [exact Hne|]; right; split; [exact Hnd|];
            assert ((k, v) ∈ filter (fun kv => Is_true (contains s kv.1 || contains kv.1 s))
                                name_to_code) as Hin by (rewrite Hf2; left);
            apply list_elem_of_filter in Hin as [Hk Hin];
            exists k; split; [exact Hin|]; right; right;
            apply Is_true_true, orb_true_iff in Hk; exact Hk).
  all: right; split; [exact Hnd|]; intros k c' Hin;
    assert ((k, c') ∉ filter (fun kv => Is_true (str_eqb (lower kv.1) (lower s)))
                        name_to_code) as H1 by (rewrite Hf1; apply not_elem_of_nil);
    assert ((k, c') ∉ filter (fun kv => Is_true (contains s kv.1 || contains kv.1 s))
                        name_to_code) as H2 by (rewrite Hf2; apply not_elem_of_nil);
    rewrite list_elem_of_filter in H1, H2; cbn [fst] in H1, H2;
    split; [intros Heq; apply H1; split; [|exact Hin];
            apply Is_true_true, str_eqb_eq; exact Heq|];
    destruct (contains s k) eqn:Hc1; [exfalso; apply H2; split; [exact I|exact Hin]|];
    destruct (contains k s) eqn:Hc2; [exfalso; apply H2; split; [exact I|exact Hin]|];
    split; reflexivity.
Qed.

End CodeMaps.

(** ** The codes of the input field of the desktop application *)

Section Dedupe.
Import GuiInput.

Lemma dedupe_spec (codes seen : list pystr) :
  NoDup (dedupe seen codes)
  /\ forall c, c ∈ dedupe seen codes <-> c ∈ codes /\ c ∉ seen.
Proof.
  revert seen. induction codes as [|x codes IH]; intros seen; cbn [dedupe].
  - split; [constructor|]. intros c. rewrite elem_of_nil. tauto.
  - destruct (bool_decide_reflect (x ∈ seen)) as [Hx|Hx].
    + destruct (IH seen) as [Hnd Hel]. split; [exact Hnd|].
      intros c. rewrite Hel, elem_of_cons. split; [tauto|].
      intros [[->|Hc] Hs]; [contradiction|tauto].
    + destruct (IH (x :: seen)) as [Hnd Hel]. split.
      * constructor; [|exact Hnd]. rewrite Hel. intros [_ Hns]. apply Hns. left.
      * intros c. rewrite !elem_of_cons, Hel, elem_of_cons.
        destruct (decide (c = x)) as [->|Hne]; [tauto|tauto].
Qed.

Lemma dedupe_first (codes : list pystr) (seen : list pystr) :
  dedupe seen codes `sublist_of` codes.
Proof.
  revert seen. induction codes as [|x codes IH]; intros seen; cbn [dedupe].
  - constructor.
  - destruct (bool_decide _).
    + apply sublist_cons, IH.
    + apply sublist_skip, IH.
Qed.

Lemma middle_elems {A} (c1 c2 : A) (l1 l2 l3 : list A) :
  c1 ∈ l1 ++ c1 :: l2 ++ c2 :: l3 /\ c2 ∈ l1 ++ c1 :: l2 ++ c2 :: l3.
Proof.
  split; apply elem_of_app; right; [left|right].
  apply elem_of_app. right. left.
Qed.

Lemma dedupe_order (codes seen : list pystr) (c1 c2 : pystr) (l1 l2 l3 : list pystr) :
  dedupe seen codes = l1 ++ c1 :: l2 ++ c2 :: l3 ->
  exists p q, codes = p ++ c1 :: q /\ (c1 ∉ p) /\ (c2 ∉ p) /\ c2 ∈ q.
Proof.
  revert seen l1. induction codes as [|x codes IH]; intros seen l1; cbn [dedupe].
  - intros H. now destruct l1.
  - assert (forall s c, c ∈ dedupe s codes -> c ∈ codes /\ (c ∉ s)) as Hel
      by (intros s c; apply (proj2 (dedupe_spec codes s))).
    destruct (bool_decide_reflect (x ∈ seen)) as [Hx|Hx].
    + intros H. pose proof (middle_elems c1 c2 l1 l2 l3) as [Hm1 Hm2].
      rewrite <- H in Hm1, Hm2.
      apply Hel in Hm1 as [_ Hs1]. apply Hel in Hm2 as [_ Hs2].
      destruct (IH seen l1 H) as (p & q & -> & H1 & H2 & Hq).
      exists (x :: p), q. split; [reflexivity|].
      split; [|split; [|exact Hq]];
        apply not_elem_of_cons; split; congruence || assumption.
    + destruct l1 as [|y l1]; cbn [app]; intros [= <- H].
      * exists [], codes. split; [reflexivity|].
        split; [apply not_elem_of_nil|]. split; [apply not_elem_of_nil|].
        eapply Hel. rewrite H. apply elem_of_app. right. left.
      * pose proof (middle_elems c1 c2 l1 l2 l3) as [Hm1 Hm2].
        rewrite <- H in Hm1, Hm2.
        apply Hel in Hm1 as [_ Hs1]. apply Hel in Hm2 as [_ Hs2].
        apply not_elem_of_cons in Hs1 as [Hs1 _], Hs2 as [Hs2 _].
        destruct (IH (x :: seen) l1 H) as (p & q & -> & H1 & H2 & Hq).
        exists (x :: p), q. split; [reflexivity|].
        split; [|split; [|exact Hq]];
          apply not_elem_of_cons; split; assumption.
Qed.

End Dedupe.

Section InputCodes.
Context `{RT : Runtime} `{PV : Provider}.
Import GuiApp GuiInput.

(** [parse_input_to_codes] returns no code twice; its codes are exactly
    those its parts resolve to, in the order of their first appearance: of
    two codes of the result, the first is the one that the parts give
    first; a part of at most six digits gives itself padded to six, any
    other part a code of the name table. *)
Theorem parse_input_to_codes_spec (text : pystr) (name_to_code : pydict) :
  let parts := WebApp.parse_codes_input text in
  let found := omap (part_code name_to_code) parts in
  NoDup (parse_input_to_codes text name_to_code)
  /\ parse_input_to_codes text name_to_code `sublist_of` found
  /\ (forall c, c ∈ parse_input_to_codes text name_to_code <-> c ∈ found)
  /\ (forall c1 c2 l1 l2 l3,
        parse_input_to_codes text name_to_code = l1 ++ c1 :: l2 ++ c2 :: l3 ->
        exists p q, found = p ++ c1 :: q /\ (c1 ∉ p) /\ (c2 ∉ p) /\ c2 ∈ q)
  /\ (forall p c, p ∈ parts -> part_code name_to_code p = Some c ->
        (isdigit p = true /\ (length p <= 6)%nat /\ c = zfill p)
        \/ exists k, (k, c) ∈ name_to_code /\ (k = p \/ lower k = lower p)).
Proof.
  intros parts found. unfold parse_input_to_codes.
  assert (text = [] -> found = []) as Hempty.
  { intros ->. reflexivity. }
  split; [|split; [|split; [|split]]].
  - destruct text; [constructor|]. apply dedupe_spec.
  - destruct text; [apply sublist_nil_l|]. apply dedupe_first.
  - intros c. destruct text as [|t0 text'].
    + rewrite Hempty by reflexivity. reflexivity.
    + fold parts found. rewrite (proj2 (dedupe_spec found [])).
      rewrite elem_of_nil. tauto.
  - intros c1 c2 l1 l2 l3. destruct text as [|t0 text'].
    + intros H. now destruct l1.
    + fold parts found. apply dedupe_order.
  - intros p c _. unfold part_code.
    destruct (isdigit p && (length p <=? 6)%nat) eqn:Hd.
    { apply andb_true_iff in Hd as [Hd Hl]. apply Nat.leb_le in Hl.
      intros [= <-]. left. auto. }
    destruct (dict_get name_to_code p) as [[|c1 code]|] eqn:Hg.
    2: { intros [= <-]. right. exists p. split; [now apply dict_get_elem|now left]. }
    all: destruct (filter _ name_to_code) as [|[k v] rest] eqn:Hf; [discriminate|];
      intros [= <-]; right;
      assert ((k, v) ∈ filter (fun kv => Is_true (str_eqb (lower kv.1) (lower p)))
                          name_to_code) as Hin by (rewrite Hf; left);
      apply list_elem_of_filter in Hin as [Hk Hin];
      exists k; split; [exact Hin|]; right; apply str_eqb_eq; now apply Is_true_true.
Qed.

End InputCodes.

(** ** The report of the comparison *)

Lemma elem_of_rev {A} (x : A) (l : list A) : x ∈ rev l <-> x ∈ l.
Proof. rewrite !list_elem_of_In. symmetry. apply in_rev. Qed.

Section Comparing.
Context `{RT : Runtime}.
Import Compare.

Lemma row_of_None (rows : list row) (code : pystr) :
  row_of rows code = None <-> code ∉ map row_code rows.
Proof.
  unfold row_of. rewrite head_None.
  split.
  - intros Hf Hin. apply list_elem_of_fmap in Hin as (r & -> & Hr).
    assert (r ∈ filter (fun r0 => Is_true (str_eqb (row_code r0) (row_code r))) (rev rows))
      as Hin.
    { apply list_elem_of_filter. split; [now rewrite str_eqb_refl|].
      now apply elem_of_rev. }
    rewrite Hf in Hin. now apply elem_of_nil in Hin.
  - intros Hnin.
    destruct (filter _ (rev rows)) as [|r l] eqn:Hf; [reflexivity|]. exfalso.
    assert (r ∈ filter (fun r0 => Is_true (str_eqb (row_code r0) code)) (rev rows)) as Hin
      by (rewrite Hf; left).
    apply list_elem_of_filter in Hin as [Hc Hin]. apply Hnin.
    apply Is_true_true, str_eqb_eq in Hc. subst code.
    apply list_elem_of_fmap. exists r. split; [reflexivity|].
    now apply elem_of_rev.
Qed.

Lemma row_of_Some (rows : list row) (code : pystr) (r : row) :
  row_of rows code = Some r -> r ∈ rows /\ row_code r = code.
Proof.
  unfold row_of. intros Hh.
  destruct (filter _ (rev rows)) as [|r' l] eqn:Hf; [discriminate|].
  injection Hh as ->.
  assert (r ∈ filter (fun r0 => Is_true (str_eqb (row_code r0) code)) (rev rows)) as Hin
    by (rewrite Hf; left).
  apply list_elem_of_filter in Hin as [Hc Hin]. split.
  - now apply elem_of_rev.
  - now apply Is_true_true, str_eqb_eq in Hc.
Qed.

Lemma compare_code_nil (gui_rows cli_rows : list row) (code : pystr) :
  compare_code gui_rows cli_rows code = [] <->
  exists g c, row_of gui_rows code = Some g /\ row_of cli_rows code = Some c
              /\ forall field, field ∈ checks ->
                   field_equal field (get g field) (get c field) = true.
Proof.
  unfold compare_code.
  destruct (row_of gui_rows code) as [g|]; [|split; [discriminate|intros (? & ? & [=] & _)]].
  destruct (row_of cli_rows code) as [c|];
    [|split; [discriminate|intros (? & ? & _ & [=] & _)]].
  split.
  - intros Hnil. exists g, c. split; [reflexivity|]. split; [reflexivity|].
    intros field Hf.
    destruct (field_equal field (get g field) (get c field)) eqn:He; [reflexivity|].
    exfalso.
    assert (FieldDiffers code field (get g field) (get c field)
            ∈ omap (fun field =>
                      if field_equal field (get g field) (get c field) then None
                      else Some (FieldDiffers code field (get g field) (get c field)))
                   checks) as Hin.
    { apply list_elem_of_omap. exists field. split; [exact Hf|]. now rewrite He. }
    rewrite Hnil in Hin. now apply elem_of_nil in Hin.
  - intros (g' & c' & [= <-] & [= <-] & Hall).
    generalize checks Hall. clear. intros l Hall.
    induction l as [|f l IH]; [reflexivity|].
    cbn [omap list_omap]. rewrite Hall by left. apply IH.
    intros field Hf. apply Hall. now right.
Qed.

Lemma compare_rows_nil (gui_rows cli_rows : list row) :
  compare_rows gui_rows cli_rows = [] <->
  forall code, code ∈ map row_code gui_rows ++ map row_code cli_rows ->
    exists g c, row_of gui_rows code = Some g /\ row_of cli_rows code = Some c
                /\ forall field, field ∈ checks ->
                     field_equal field (get g field) (get c field) = true.
Proof.
  unfold compare_rows.
  set (all := map row_code gui_rows ++ map row_code cli_rows).
  split.
  - intros Hnil code Hin. apply compare_code_nil.
    destruct (compare_code gui_rows cli_rows code) as [|d l] eqn:Hc; [reflexivity|].
    exfalso.
    assert (d ∈ flat_map (compare_code gui_rows cli_rows) (sorted_set all)) as Hd.
    { apply list_elem_of_In, in_flat_map. exists code. split.
      - rewrite <- list_elem_of_In, sorted_set_elem. exact Hin.
      - rewrite Hc. left. reflexivity. }
    rewrite Hnil in Hd. now apply elem_of_nil in Hd.
  - intros Hall.
    assert (forall l, (forall code, code ∈ l -> code ∈ all) ->
              flat_map (compare_code gui_rows cli_rows) l = []) as Hl.
    { induction l as [|code l IH]; intros Hsub; [reflexivity|].
      cbn [flat_map].
      rewrite (proj2 (compare_code_nil gui_rows cli_rows code)).
      - apply IH. intros c Hc. apply Hsub. now right.
      - apply Hall, Hsub. left. }
    apply Hl. intros code. apply sorted_set_elem.
Qed.

Lemma text_code_row_code (r : row) (code : pystr) :
  get r "code" = VStr code -> row_code r = code.
Proof. unfold row_code. now intros ->. Qed.

Lemma has_code_row_code (rows : list row) (code : pystr) :
  text_codes rows -> (code ∈ map row_code rows <-> has_code rows code).
Proof.
  intros Ht. unfold has_code. rewrite list_elem_of_fmap. split.
  - intros (r & -> & Hr). exists r. split; [exact Hr|].
    unfold text_codes in Ht. rewrite Forall_forall in Ht.
    destruct (Ht r Hr) as [c Hc].
    now rewrite (text_code_row_code r c Hc).
  - intros (r & Hr & Hc). exists r. split; [|exact Hr].
    symmetry. now apply text_code_row_code.
Qed.

Lemma head_filter_split {A} (P : A -> Prop) `{forall x, Decision (P x)}
    (l : list A) (x : A) :
  head (filter P l) = Some x <->
  exists l1 l2, l = l1 ++ x :: l2 /\ P x /\ Forall (fun y => ~ P y) l1.
Proof.
  induction l as [|y l IH].
  - split; [discriminate|]. intros (l1 & l2 & Hl & _). now destruct l1.
  - rewrite filter_cons. destruct (decide (P y)) as [Hy|Hy].
    + cbn [head]. split.
      * intros [= ->]. exists [], l. repeat split; [exact Hy|constructor].
      * intros (l1 & l2 & Hl & Hx & Hl1). destruct l1 as [|z l1].
        -- now injection Hl as ->.
        -- injection Hl as -> _. apply Forall_cons in Hl1 as [Hz _]. contradiction.
    + rewrite IH. split.
      * intros (l1 & l2 & -> & Hx & Hl1). exists (y :: l1), l2.
        repeat split; [exact Hx|]. now constructor.
      * intros (l1 & l2 & Hl & Hx & Hl1). destruct l1 as [|z l1].
        -- injection Hl as -> _. contradiction.
        -- injection Hl as -> ->. apply Forall_cons in Hl1 as [_ Hl1].
           exists l1, l2. auto.
Qed.

Lemma row_of_last (rows : list row) (code : pystr) (r : row) :
  text_codes rows -> (row_of rows code = Some r <-> last_row_of rows code r).
Proof.
  intros Ht. unfold row_of, last_row_of. rewrite head_filter_split.
  assert (forall r', r' ∈ rows ->
            (Is_true (str_eqb (row_code r') code) <-> get r' "code" = VStr code))
    as Hcode.
  { intros r' Hr'. unfold text_codes in Ht. rewrite Forall_forall in Ht.
    destruct (Ht r' Hr') as [c Hc].
    rewrite (text_code_row_code r' c Hc), Hc, Is_true_true, str_eqb_eq.
    split; congruence. }
  split.
  - intros (l1 & l2 & Hrev & Hr & Hl1).
    assert (rows = rev l2 ++ r :: rev l1) as Hrows.
    { rewrite <- (rev_involutive rows), Hrev, rev_app_distr. cbn [rev].
      now rewrite <- app_assoc. }
    exists (rev l2), (rev l1). split; [exact Hrows|]. split.
    + apply Hcode; [|exact Hr]. rewrite Hrows. apply elem_of_app. right. left.
    + apply Forall_forall. intros r' Hr' Hc. rewrite elem_of_rev in Hr'.
      rewrite Forall_forall in Hl1. apply (Hl1 r' Hr'). apply Hcode; [|exact Hc].
      rewrite Hrows. apply elem_of_app. right. right. now rewrite elem_of_rev.
  - intros (pre & post & Hrows & Hr & Hpost).
    exists (rev post), (rev pre). split.
    + rewrite Hrows, rev_app_distr. cbn [rev]. now rewrite <- app_assoc.
    + split.
      * apply Hcode; [|exact Hr]. rewrite Hrows. apply elem_of_app. right. left.
      * apply Forall_forall. intros r' Hr' Hc. rewrite elem_of_rev in Hr'.
        rewrite Forall_forall in Hpost. apply (Hpost r' Hr'). apply Hcode; [|exact Hc].
        rewrite Hrows. apply elem_of_app. right. now right.
Qed.

Lemma compare_missing (gui_rows cli_rows : list row) :
  (forall code, GuiMissing code ∈ compare_rows gui_rows cli_rows <->
     code ∈ map row_code cli_rows /\ code ∉ map row_code gui_rows)
  /\ (forall code, CliMissing code ∈ compare_rows gui_rows cli_rows <->
        code ∈ map row_code gui_rows /\ code ∉ map row_code cli_rows).
Proof.
  unfold compare_rows.
  set (all := map row_code gui_rows ++ map row_code cli_rows).
  assert (forall d code, d ∈ compare_code gui_rows cli_rows code ->
            match d with
            | GuiMissing c => c = code /\ row_of gui_rows code = None
            | CliMissing c => c = code /\ row_of gui_rows code <> None
                              /\ row_of cli_rows code = None
            | FieldDiffers _ _ _ _ => True
            end) as Hcode.
  { intros d code. unfold compare_code.
    destruct (row_of gui_rows code) as [g|].
    - destruct (row_of cli_rows code) as [c|].
      + intros (f & _ & Hf)%list_elem_of_omap.
        destruct (field_equal _ _ _); [discriminate|]. now injection Hf as <-.
      + intros ->%list_elem_of_singleton. repeat split. discriminate.
    - intros ->%list_elem_of_singleton. now split. }
  split.
  - intros code. split.
    + intros (code' & Hin & Hd)%list_elem_of_In%in_flat_map.
      rewrite <- list_elem_of_In, sorted_set_elem in Hin.
      rewrite <- list_elem_of_In in Hd. apply Hcode in Hd as [<- Hnone].
      apply row_of_None in Hnone. split; [|exact Hnone].
      apply elem_of_app in Hin as [Hin|Hin]; [contradiction|exact Hin].
    + intros [Hc Hg]. apply list_elem_of_In, in_flat_map. exists code. split.
      * rewrite <- list_elem_of_In, sorted_set_elem. apply elem_of_app. now right.
      * unfold compare_code. apply row_of_None in Hg. rewrite Hg. left. reflexivity.
  - intros code. split.
    + intros (code' & Hin & Hd)%list_elem_of_In%in_flat_map.
      rewrite <- list_elem_of_In in Hd. apply Hcode in Hd as (<- & Hg & Hnone).
      apply row_of_None in Hnone. split; [|exact Hnone].
      destruct (decide (code ∈ map row_code gui_rows)) as [Hy|Hn]; [exact Hy|].
      apply row_of_None in Hn. contradiction.
    + intros [Hg Hc]. apply list_elem_of_In, in_flat_map. exists code. split.
      * rewrite <- list_elem_of_In, sorted_set_elem. apply elem_of_app. now left.
      * unfold compare_code.
        destruct (row_of gui_rows code) as [g|] eqn:Hrg.
        -- apply row_of_None in Hc. rewrite Hc. left. reflexivity.
        -- apply row_of_None in Hrg. contradiction.
Qed.

(** What the comparison of two lists of rows reports, the code of every row
    being a text: nothing exactly when every code of either list has a row
    in both and the last rows of that code agree on the thirteen compared
    fields (texts and dates equal, numbers within 1e-6, both absent or both
    present); a code is reported missing from one list exactly when it
    occurs in the other list only. *)
Theorem compare_rows_report (gui_rows cli_rows : list row) :
  text_codes gui_rows -> text_codes cli_rows ->
  (compare_rows gui_rows cli_rows = [] <->
   forall code, has_code gui_rows code \/ has_code cli_rows code ->
     exists g c, last_row_of gui_rows code g /\ last_row_of cli_rows code c
                 /\ forall field, field ∈ checks ->
                      field_equal field (get g field) (get c field) = true)
  /\ (forall code, GuiMissing code ∈ compare_rows gui_rows cli_rows <->
        has_code cli_rows code /\ ~ has_code gui_rows code)
  /\ (forall code, CliMissing code ∈ compare_rows gui_rows cli_rows <->
        has_code gui_rows code /\ ~ has_code cli_rows code).
Proof.
  intros Hg Hc.
  destruct (compare_missing gui_rows cli_rows) as [Hgm Hcm].
  split; [|split].
  - rewrite compare_rows_nil. split.
    + intros Hall code Hcode.
      destruct (Hall code) as (g & c & Hrg & Hrc & Hf).
      { apply elem_of_app.
        destruct Hcode as [Hcode|Hcode]; [left|right]; now apply has_code_row_code. }
      exists g, c. split; [now apply row_of_last|]. split; [now apply row_of_last|].
      exact Hf.
    + intros Hall code Hcode.
      destruct (Hall code) as (g & c & Hrg & Hrc & Hf).
      { apply elem_of_app in Hcode as [Hcode|Hcode]; [left|right];
          now apply has_code_row_code. }
      exists g, c. split; [now apply row_of_last|]. split; [now apply row_of_last|].
      exact Hf.
  - intros code. rewrite Hgm, !has_code_row_code by assumption. reflexivity.
  - intros code. rewrite Hcm, !has_code_row_code by assumption. reflexivity.
Qed.

End Comparing.

(** ** Canonical dates *)

Lemma valid_date_bounds (y m d : Z) :
  valid_date y m d = true ->
  1 <= y <= 9999 /\ 1 <= m <= 12 /\ 1 <= d <= days_in_month y m.
Proof.
  unfold valid_date. rewrite !andb_true_iff, !Z.leb_le. tauto.
Qed.

Lemma days_in_month_bounds (y m : Z) : 28 <= days_in_month y m <= 31.
Proof.
  unfold days_in_month.
  destruct (m =? 2); [destruct (is_leap y); lia|].
  destruct (_ || _); lia.
Qed.

Lemma days_before_month_cases (y m : Z) :
  1 <= m <= 12 ->
  days_before_month y m
  = match m with
    | 1 => 0 | 2 => 31 | 3 => 59 + leap_day y | 4 => 90 + leap_day y
    | 5 => 120 + leap_day y | 6 => 151 + leap_day y | 7 => 181 + leap_day y
    | 8 => 212 + leap_day y | 9 => 243 + leap_day y | 10 => 273 + leap_day y
    | 11 => 304 + leap_day y | _ => 334 + leap_day y
    end.
Proof.
  intros Hm.
  assert (m = 1 \/ m = 2 \/ m = 3 \/ m = 4 \/ m = 5 \/ m = 6 \/ m = 7 \/ m = 8
          \/ m = 9 \/ m = 10 \/ m = 11 \/ m = 12) as Hc by lia.
  unfold leap_day.
  destruct Hc as [->|[->|[->|[->|[->|[->|[->|[->|[->|[->|[->| ->]]]]]]]]]]];
    cbv [days_before_month days_before_month_from Z.to_nat Z.sub Z.opp Z.add
         Z.pos_sub Pos.to_nat Pos.iter_op Init.Nat.add Z.of_nat Pos.of_succ_nat
         Pos.succ days_in_month Z.eqb Pos.eqb orb Pos.pred_double Z.double
         Z.succ_double Z.pred_double Pos.add Pos.double_pred_mask Pos.pred_N];
    destruct (is_leap y); reflexivity.
Qed.

Lemma days_in_month_cases (y m : Z) :
  1 <= m <= 12 ->
  days_in_month y m
  = match m with
    | 2 => 28 + leap_day y
    | 4 | 6 | 9 | 11 => 30
    | _ => 31
    end.
Proof.
  intros Hm.
  assert (m = 1 \/ m = 2 \/ m = 3 \/ m = 4 \/ m = 5 \/ m = 6 \/ m = 7 \/ m = 8
          \/ m = 9 \/ m = 10 \/ m = 11 \/ m = 12) as Hc by lia.
  unfold leap_day, days_in_month.
  destruct Hc as [->|[->|[->|[->|[->|[->|[->|[->|[->|[->|[->| ->]]]]]]]]]]];
    cbn [Z.eqb Pos.eqb orb]; destruct (is_leap y); reflexivity.
Qed.

Lemma leap_day_bounds (y : Z) : 0 <= leap_day y <= 1.
Proof. unfold leap_day. destruct (is_leap y); lia. Qed.

Lemma days_before_next_year (y : Z) :
  days_before_year (y + 1) = days_before_year y + 365 + leap_day y.
Proof.
  unfold days_before_year, leap_day, is_leap.
  replace (y + 1 - 1) with y by lia.
  destruct (Z.eqb_spec (y mod 4) 0) as [H4|H4];
  destruct (Z.eqb_spec (y mod 100) 0) as [H100|H100];
  destruct (Z.eqb_spec (y mod 400) 0) as [H400|H400]; cbn [negb andb orb];
    Z.div_mod_to_equations; lia.
Qed.

Lemma days_before_year_mono (y y' : Z) :
  y <= y' -> days_before_year y <= days_before_year y'.
Proof.
  intros H. unfold days_before_year. Z.div_mod_to_equations. lia.
Qed.

Lemma day_of_year_bounds (y m d : Z) :
  valid_date y m d = true ->
  1 <= days_before_month y m + d <= 365 + leap_day y.
Proof.
  intros (Hy & Hm & Hd)%valid_date_bounds.
  rewrite days_in_month_cases in Hd by exact Hm.
  rewrite days_before_month_cases by exact Hm.
  pose proof (leap_day_bounds y).
  assert (m = 1 \/ m = 2 \/ m = 3 \/ m = 4 \/ m = 5 \/ m = 6 \/ m = 7 \/ m = 8
          \/ m = 9 \/ m = 10 \/ m = 11 \/ m = 12) as Hc by lia.
  destruct Hc as [->|[->|[->|[->|[->|[->|[->|[->|[->|[->|[->| ->]]]]]]]]]]]; lia.
Qed.

Lemma toordinal_before (y1 m1 d1 y2 m2 d2 : Z) :
  valid_date y1 m1 d1 = true -> valid_date y2 m2 d2 = true ->
  date_before y1 m1 d1 y2 m2 d2 -> toordinal y1 m1 d1 < toordinal y2 m2 d2.
Proof.
  intros H1 H2 Hb. unfold toordinal.
  pose proof (day_of_year_bounds _ _ _ H1) as B1.
  pose proof (day_of_year_bounds _ _ _ H2) as B2.
  destruct Hb as [Hy|[<- Hb]].
  - pose proof (days_before_next_year y1) as Hn.
    pose proof (days_before_year_mono (y1 + 1) y2 ltac:(lia)). lia.
  - apply valid_date_bounds in H1 as (Hy1 & Hm1 & Hd1).
    apply valid_date_bounds in H2 as (_ & Hm2 & Hd2).
    destruct Hb as [Hm|[<- Hd]]; [|lia].
    rewrite days_in_month_cases in Hd1 by exact Hm1.
    rewrite !days_before_month_cases by assumption.
    pose proof (leap_day_bounds y1).
    assert (m1 = 1 \/ m1 = 2 \/ m1 = 3 \/ m1 = 4 \/ m1 = 5 \/ m1 = 6 \/ m1 = 7
            \/ m1 = 8 \/ m1 = 9 \/ m1 = 10 \/ m1 = 11 \/ m1 = 12) as Hc1 by lia.
    assert (m2 = 1 \/ m2 = 2 \/ m2 = 3 \/ m2 = 4 \/ m2 = 5 \/ m2 = 6 \/ m2 = 7
            \/ m2 = 8 \/ m2 = 9 \/ m2 = 10 \/ m2 = 11 \/ m2 = 12) as Hc2 by lia.
    destruct Hc1 as [->|[->|[->|[->|[->|[->|[->|[->|[->|[->|[->| ->]]]]]]]]]]];
    destruct Hc2 as [->|[->|[->|[->|[->|[->|[->|[->|[->|[->|[->| ->]]]]]]]]]]];
      lia.
Qed.

Lemma date_trichotomy (y1 m1 d1 y2 m2 d2 : Z) :
  date_before y1 m1 d1 y2 m2 d2
  \/ (y1 = y2 /\ m1 = m2 /\ d1 = d2)
  \/ date_before y2 m2 d2 y1 m1 d1.
Proof. unfold date_before. lia. Qed.

(** The order of texts on runs of digits of one length. *)
Lemma str_compare_app (a a' b b' : pystr) :
  length a = length a' ->
  str_compare (a ++ b) (a' ++ b')
  = match str_compare a a' with Eq => str_compare b b' | c => c end.
Proof.
  revert a'. induction a as [|x a IH]; intros [|x' a'] Hlen; try discriminate Hlen.
  - reflexivity.
  - cbn [app str_compare]. destruct (x ?= x'); [|reflexivity..].
    apply IH. now injection Hlen.
Qed.

Lemma two_digits_compare (n n' : Z) :
  0 <= n < 100 -> 0 <= n' < 100 ->
  str_compare (two_digits n) (two_digits n') = (n ?= n').
Proof.
  intros Hn Hn'. unfold two_digits. cbn [str_compare].
  destruct (Z.compare_spec (48 + n / 10) (48 + n' / 10)) as [H1|H1|H1];
    [destruct (Z.compare_spec (48 + n mod 10) (48 + n' mod 10)) as [H2|H2|H2]| |];
    symmetry; first [apply Z.compare_eq_iff|apply Z.compare_lt_iff|apply Z.compare_gt_iff];
    Z.div_mod_to_equations; lia.
Qed.

Lemma four_digits_compare (n n' : Z) :
  0 <= n < 10000 -> 0 <= n' < 10000 ->
  str_compare (four_digits n) (four_digits n') = (n ?= n').
Proof.
  intros Hn Hn'. unfold four_digits. cbn [str_compare].
  destruct (Z.compare_spec (48 + n / 1000) (48 + n' / 1000)) as [H1|H1|H1];
    [destruct (Z.compare_spec (48 + n / 100 mod 10) (48 + n' / 100 mod 10)) as [H2|H2|H2];
     [destruct (Z.compare_spec (48 + n / 10 mod 10) (48 + n' / 10 mod 10)) as [H3|H3|H3];
      [destruct (Z.compare_spec (48 + n mod 10) (48 + n' mod 10)) as [H4|H4|H4]| |]| |]| |];
    symmetry; first [apply Z.compare_eq_iff|apply Z.compare_lt_iff|apply Z.compare_gt_iff];
    Z.div_mod_to_equations; lia.
Qed.

Lemma strftime_compare (y1 m1 d1 y2 m2 d2 : Z) :
  valid_date y1 m1 d1 = true -> valid_date y2 m2 d2 = true ->
  str_compare (strftime_ymd y1 m1 d1) (strftime_ymd y2 m2 d2)
  = match y1 ?= y2 with
    | Eq => match m1 ?= m2 with Eq => d1 ?= d2 | c => c end
    | c => c
    end.
Proof.
  intros (Hy1 & Hm1 & Hd1)%valid_date_bounds (Hy2 & Hm2 & Hd2)%valid_date_bounds.
  pose proof (days_in_month_bounds y1 m1). pose proof (days_in_month_bounds y2 m2).
  unfold strftime_ymd.
  rewrite str_compare_app by reflexivity.
  rewrite four_digits_compare by lia.
  destruct (y1 ?= y2); [|reflexivity..].
  change ([45] ++ ?l) with (45 :: l). cbn [str_compare Z.compare Pos.compare
                                          Pos.compare_cont].
  rewrite str_compare_app by reflexivity.
  rewrite two_digits_compare by lia.
  destruct (m1 ?= m2); [|reflexivity..].
  cbn [app str_compare Z.compare Pos.compare Pos.compare_cont].
  rewrite two_digits_compare by lia. reflexivity.
Qed.

Section Strptime.
Context `{RT : Runtime}.

Lemma to_decimal_digit (k : Z) :
  0 <= k <= 9 -> exists d, to_decimal (48 + k) = Some d /\ digit_val d = k.
Proof.
  intros Hk.
  assert (k = 0 \/ k = 1 \/ k = 2 \/ k = 3 \/ k = 4 \/ k = 5 \/ k = 6 \/ k = 7
          \/ k = 8 \/ k = 9) as Hc by lia.
  destruct Hc as [->|[->|[->|[->|[->|[->|[->|[->|[->| ->]]]]]]]]];
    eexists; split; vm_compute; reflexivity.
Qed.

Lemma in_class_digit (k : Z) : 0 <= k <= 9 -> in_class CDigit (48 + k) = true.
Proof.
  intros (d & Hd & _)%to_decimal_digit. cbn [in_class]. unfold is_decimal. now rewrite Hd.
Qed.

Lemma int_of_field_digits (c : Z) (s : pystr) :
  c <> 32 -> int_of_field (c :: s) = digits_value 0 (c :: s).
Proof.
  intros Hc. unfold int_of_field.
  destruct c as [|p|p]; [reflexivity| |reflexivity].
  do 6 (try (destruct p as [p|p|]; try reflexivity)).
  contradiction.
Qed.

Lemma int_of_four_digits (n : Z) :
  0 <= n <= 9999 -> int_of_field (four_digits n) = Some n.
Proof.
  intros Hn. unfold four_digits.
  rewrite int_of_field_digits by (Z.div_mod_to_equations; lia).
  cbn [digits_value].
  destruct (to_decimal_digit (n / 1000)) as (a & -> & Ha); [Z.div_mod_to_equations; lia|].
  destruct (to_decimal_digit (n / 100 mod 10)) as (b & -> & Hb);
    [Z.div_mod_to_equations; lia|].
  destruct (to_decimal_digit (n / 10 mod 10)) as (c & -> & Hc);
    [Z.div_mod_to_equations; lia|].
  destruct (to_decimal_digit (n mod 10)) as (e & -> & He); [Z.div_mod_to_equations; lia|].
  f_equal. rewrite Ha, Hb, Hc, He. Z.div_mod_to_equations. lia.
Qed.

Lemma int_of_two_digits (n : Z) :
  0 <= n <= 99 -> int_of_field (two_digits n) = Some n.
Proof.
  intros Hn. unfold two_digits.
  rewrite int_of_field_digits by (Z.div_mod_to_equations; lia).
  cbn [digits_value].
  destruct (to_decimal_digit (n / 10)) as (a & -> & Ha); [Z.div_mod_to_equations; lia|].
  destruct (to_decimal_digit (n mod 10)) as (b & -> & Hb); [Z.div_mod_to_equations; lia|].
  f_equal. rewrite Ha, Hb. Z.div_mod_to_equations. lia.
Qed.

Lemma rmatch_year (c1 c2 c3 c4 : Z) (rest : pystr) (caps : list pystr) (kont : mcont) :
  in_class CDigit c1 = true -> in_class CDigit c2 = true ->
  in_class CDigit c3 = true -> in_class CDigit c4 = true ->
  rmatch re_Y (c1 :: c2 :: c3 :: c4 :: rest) caps kont
  = kont rest (caps ++ [[c1; c2; c3; c4]]).
Proof.
  intros H1 H2 H3 H4. unfold re_Y, cat. cbn [foldr rmatch].
  rewrite H1, H2, H3, H4. unfold consumed. cbn [length].
  replace (S (S (S (S (length rest)))) - length rest)%nat with 4%nat by lia.
  reflexivity.
Qed.

Lemma rmatch_month_day (ys : pystr) (m d : Z) :
  1 <= m <= 12 -> 1 <= d <= 31 ->
  rmatch (cat [Chr 45; re_m; Chr 45; re_d])
    (45 :: two_digits m ++ 45 :: two_digits d) [ys]
    (fun s' caps => Some (caps, s'))
  = Some ([ys; two_digits m; two_digits d], []).
Proof.
  intros Hm Hd.
  assert (m = 1 \/ m = 2 \/ m = 3 \/ m = 4 \/ m = 5 \/ m = 6 \/ m = 7 \/ m = 8
          \/ m = 9 \/ m = 10 \/ m = 11 \/ m = 12) as Hcm by lia.
  assert (d = 1 \/ d = 2 \/ d = 3 \/ d = 4 \/ d = 5 \/ d = 6 \/ d = 7 \/ d = 8
          \/ d = 9 \/ d = 10 \/ d = 11 \/ d = 12 \/ d = 13 \/ d = 14 \/ d = 15
          \/ d = 16 \/ d = 17 \/ d = 18 \/ d = 19 \/ d = 20 \/ d = 21 \/ d = 22
          \/ d = 23 \/ d = 24 \/ d = 25 \/ d = 26 \/ d = 27 \/ d = 28 \/ d = 29
          \/ d = 30 \/ d = 31) as Hcd by lia.
  clear Hm Hd.
  destruct Hcm as [->|[->|[->|[->|[->|[->|[->|[->|[->|[->|[->| ->]]]]]]]]]]];
  destruct Hcd as [->|[->|[->|[->|[->|[->|[->|[->|[->|[->|[->|[->|[->|[->|[->|
                  [->|[->|[->|[->|[->|[->|[->|[->|[->|[->|[->|[->|[->|[->|[->| ->
                  ]]]]]]]]]]]]]]]]]]]]]]]]]]]]]];
    vm_compute; reflexivity.
Qed.

Lemma strptime_strftime (y m d : Z) :
  valid_date y m d = true ->
  strptime_ordinal (strftime_ymd y m d) = Some (toordinal y m d).
Proof.
  intros Hv. pose proof (valid_date_bounds _ _ _ Hv) as (Hy & Hm & Hd).
  pose proof (days_in_month_bounds y m) as Hdim.
  unfold strptime_ordinal, re_match.
  change (rmatch re_ymd ?s [] ?k)
    with (rmatch re_Y s [] (fun s' caps' =>
            rmatch (cat [Chr 45; re_m; Chr 45; re_d]) s' caps' k)).
  unfold strftime_ymd. unfold four_digits at 1. cbn [app].
  rewrite rmatch_year by (apply in_class_digit; Z.div_mod_to_equations; lia).
  cbn [app]. fold (four_digits y).
  rewrite rmatch_month_day by lia.
  rewrite int_of_four_digits, !int_of_two_digits by lia.
  now rewrite Hv.
Qed.

(** On dates written as [strftime("%Y-%m-%d")] writes them, the order of
    texts the code compares dates with is the order of the calendar, equal
    texts are equal dates, [strptime] reads back the date written, and the
    day count of the annualized return is the difference of the two days'
    ordinals: positive exactly when the first date is before the second. *)
Theorem canonical_dates_order (y1 m1 d1 y2 m2 d2 : Z) :
  calendar_date y1 m1 d1 -> calendar_date y2 m2 d2 ->
  let a := strftime_ymd y1 m1 d1 in
  let b := strftime_ymd y2 m2 d2 in
  strptime_ordinal a = Some (toordinal y1 m1 d1)
  /\ (str_lt a b <-> date_before y1 m1 d1 y2 m2 d2)
  /\ (a = b <-> y1 = y2 /\ m1 = m2 /\ d1 = d2)
  /\ calendar_days a b = Some (toordinal y2 m2 d2 - toordinal y1 m1 d1)
  /\ (str_lt a b <-> toordinal y1 m1 d1 < toordinal y2 m2 d2).
Proof.
  intros [_ H1] [_ H2] a b.
  pose proof (strftime_compare y1 m1 d1 y2 m2 d2 H1 H2) as Hcmp. fold a b in Hcmp.
  assert (str_lt a b <-> date_before y1 m1 d1 y2 m2 d2) as Hlt.
  { unfold str_lt, date_before. rewrite Hcmp.
    destruct (Z.compare_spec y1 y2) as [Hy|Hy|Hy];
      [destruct (Z.compare_spec m1 m2) as [Hm|Hm|Hm];
       [destruct (Z.compare_spec d1 d2) as [Hd|Hd|Hd]| |]| |];
      split; try discriminate; try lia; intros _; reflexivity. }
  assert (a = b <-> y1 = y2 /\ m1 = m2 /\ d1 = d2) as Heq.
  { split; [|now intros (-> & -> & ->)].
    intros Hab. rewrite Hab, str_compare_refl in Hcmp.
    destruct (Z.compare_spec y1 y2) as [Hy|Hy|Hy]; try discriminate.
    destruct (Z.compare_spec m1 m2) as [Hm|Hm|Hm]; try discriminate.
    destruct (Z.compare_spec d1 d2) as [Hd|Hd|Hd]; try discriminate. auto. }
  split; [now apply strptime_strftime|]. split; [exact Hlt|]. split; [exact Heq|].
  split.
  - unfold calendar_days, a, b. rewrite !strptime_strftime by assumption. reflexivity.
  - rewrite Hlt. split; [now apply toordinal_before|].
    intros Hord.
    destruct (date_trichotomy y1 m1 d1 y2 m2 d2) as [Hb|[(-> & -> & ->)|Hb]];
      [exact Hb|lia|].
    apply toordinal_before in Hb; [lia|assumption..].
Qed.

End Strptime.

(** ** The phrases of a dividend plan *)

Section Phrases.
Context `{RT : Runtime}.

Lemma rmatch_first (r : regex) (c : Z) (s : pystr) (caps : list pystr) (kont : mcont) :
  first_char r = Some c -> head s <> Some c -> rmatch r s caps kont = None.
Proof.
  revert caps kont. induction r; intros caps kont Hf Hs; try discriminate Hf.
  - cbn in Hf. injection Hf as ->. cbn [rmatch].
    destruct s as [|x s']; [reflexivity|].
    destruct (Z.eqb_spec x c) as [->|Hne]; [now destruct Hs|reflexivity].
  - cbn [rmatch]. now apply IHr1.
  - cbn [rmatch]. now apply IHr.
Qed.

Lemma re_search_skip (r : regex) (c : Z) (pre s : pystr) :
  first_char r = Some c -> c ∉ pre -> re_search r (pre ++ s) = re_search r s.
Proof.
  intros Hf. induction pre as [|x pre IH]; intros Hc; [reflexivity|].
  cbn [app re_search]. unfold re_match at 1.
  rewrite (rmatch_first r c) by (try exact Hf; cbn; intros [= ->]; apply Hc; left).
  apply IH. intros Hin. apply Hc. now right.
Qed.

Lemma re_search_none (r : regex) (c : Z) (s : pystr) :
  first_char r = Some c -> c ∉ s -> re_search r s = None.
Proof.
  intros Hf Hc. rewrite <- (app_nil_r s), (re_search_skip r c s [] Hf Hc).
  cbn [re_search]. unfold re_match.
  now rewrite (rmatch_first r c) by (try exact Hf; discriminate).
Qed.

Lemma rmatch_lit (p s : pystr) (caps : list pystr) (kont : mcont) :
  rmatch (lit p) (p ++ s) caps kont = kont s caps.
Proof.
  induction p as [|c p IH]; [reflexivity|].
  cbn [lit app rmatch]. rewrite Z.eqb_refl. exact IH.
Qed.

Lemma rmatch_opt_skip (r : regex) (c : Z) (s : pystr) (caps : list pystr)
    (kont : mcont) :
  first_char r = Some c -> head s <> Some c ->
  rmatch (Opt r) s caps kont = kont s caps.
Proof. intros Hf Hs. cbn [rmatch]. now rewrite (rmatch_first r c). Qed.

Lemma rep_greedy_run (k : cclass) (least : nat) (a s' : pystr)
    (kont : pystr -> option mresult) (res : mresult) :
  Forall (fun c => in_class k c = true) a ->
  (least <= length a)%nat ->
  kont s' = Some res ->
  match s' with [] => True | c :: _ => in_class k c = false end ->
  rep_greedy k least (a ++ s') kont = Some res.
Proof.
  intros Ha. revert least. induction Ha as [|x a Hx _ IH]; intros least Hl Hk Hs'.
  - cbn [app]. assert (least = 0%nat) as -> by (cbn in Hl; lia).
    destruct s' as [|c s'']; cbn [rep_greedy]; [exact Hk|]. now rewrite Hs'.
  - cbn [app rep_greedy]. rewrite Hx.
    rewrite IH; [reflexivity| |exact Hk|exact Hs']. cbn [length] in Hl. lia.
Qed.

(** The amount group at a run of digits and dots followed by a character
    that is neither. *)
Lemma rmatch_amount (a s' : pystr) (caps : list pystr) (kont : mcont) (res : mresult) :
  a <> [] ->
  Forall (fun c => in_class CDigitDot c = true) a ->
  match s' with [] => True | c :: _ => in_class CDigitDot c = false end ->
  kont s' (caps ++ [a]) = Some res ->
  rmatch amount (a ++ s') caps kont = Some res.
Proof.
  intros Hne Ha Hs' Hk. unfold amount. cbn [rmatch].
  apply rep_greedy_run; [exact Ha| |now rewrite consumed_app|exact Hs'].
  destruct a; [congruence|cbn; lia].
Qed.

Lemma amount_in_class (a : pystr) :
  Forall (fun c => 48 <= c <= 57 \/ c = 46) a ->
  Forall (fun c => in_class CDigitDot c = true) a.
Proof.
  intros Ha. eapply Forall_impl; [exact Ha|]. cbv beta.
  intros c [Hc| ->]; [|vm_compute; reflexivity].
  cbn [in_class]. apply orb_true_iff. left.
  replace c with (48 + (c - 48)) by lia.
  destruct (to_decimal_digit (c - 48)) as (d & Hd & _); [lia|].
  unfold is_decimal. now rewrite Hd.
Qed.

(** ** Normalisation *)

Lemma replace_app (old : Z) (new s t : pystr) :
  replace old new (s ++ t) = replace old new s ++ replace old new t.
Proof. unfold replace. apply flat_map_app. Qed.

Lemma replaced_char (c : Z) :
  replace 32 [] (replace 65289 [41] (replace 65288 [40] [c]))
  = (if c =? 65288 then [40] else if c =? 65289 then [41]
     else if c =? 32 then [] else [c]).
Proof.
  unfold replace. cbn [flat_map app].
  destruct (Z.eqb_spec c 65288) as [->|H1]; [reflexivity|]. cbn [flat_map app].
  destruct (Z.eqb_spec c 65289) as [->|H2]; [reflexivity|]. cbn [flat_map app].
  destruct (Z.eqb_spec c 32) as [->|H3]; reflexivity.
Qed.

Lemma replaced_plain (s : pystr) :
  plain_text s ->
  let s' := replace 32 [] (replace 65289 [41] (replace 65288 [40] s)) in
  s' = flat_map (fun c => if c =? 65288 then [40] else if c =? 65289 then [41]
                          else if c =? 32 then [] else [c]) s
  /\ forallb (fun c => is_ascii c || is_cjk c) s' = true.
Proof.
  intros Hs. cbv zeta. induction Hs as [|c s Hc _ [IH1 IH2]]; [split; reflexivity|].
  change (c :: s) with ([c] ++ s). rewrite !replace_app, forallb_app, IH2, andb_true_r.
  rewrite IH1, replaced_char. cbn [flat_map]. split; [reflexivity|].
  destruct (Z.eqb_spec c 65288) as [->|H1]; [reflexivity|].
  destruct (Z.eqb_spec c 65289) as [->|H2]; [reflexivity|].
  destruct (Z.eqb_spec c 32) as [->|H3]; [reflexivity|].
  cbn [forallb]. apply andb_true_iff. split; [|reflexivity].
  destruct Hc as [Hc|[Hc|[Hc|Hc]]]; try congruence; rewrite Hc;
    [reflexivity|apply orb_true_r].
Qed.

Lemma normalize_plain (s : pystr) :
  plain_text s -> normalize_plan_text s = flat_map normal_char s.
Proof.
  intros Hs. unfold normalize_plan_text.
  destruct (replaced_plain s Hs) as [Heq Hall]. cbv zeta in Heq, Hall.
  unfold lower. rewrite Hall, Heq. clear.
  induction s as [|c s IH]; [reflexivity|].
  cbn [flat_map]. rewrite map_app, IH. f_equal. unfold normal_char.
  destruct (c =? 65288); [reflexivity|].
  destruct (c =? 65289); [reflexivity|].
  destruct (c =? 32); reflexivity.
Qed.

Lemma plain_text_app (s t : pystr) : plain_text (s ++ t) <-> plain_text s /\ plain_text t.
Proof. apply Forall_app. Qed.

Lemma normal_fixed (s : pystr) :
  Forall (fun c => (is_ascii c = true \/ is_cjk c = true) /\ c <> 32
                   /\ ~ 65 <= c <= 90) s ->
  plain_text s /\ flat_map normal_char s = s.
Proof.
  induction 1 as [|c s (Hc & H32 & Hup) _ [IH1 IH2]]; [split; [constructor|reflexivity]|].
  split; [constructor; [tauto|exact IH1]|].
  cbn [flat_map]. rewrite IH2. unfold normal_char, ascii_lower.
  assert (c <> 65288 /\ c <> 65289) as [H1 H2].
  { unfold is_ascii, is_cjk in Hc. lia. }
  rewrite (proj2 (Z.eqb_neq c 65288)), (proj2 (Z.eqb_neq c 65289)),
    (proj2 (Z.eqb_neq c 32)) by assumption.
  destruct (Z.leb_spec 65 c), (Z.leb_spec c 90); cbn [andb]; try reflexivity. lia.
Qed.

Lemma normal_amount (a : pystr) :
  Forall (fun c => 48 <= c <= 57 \/ c = 46) a ->
  plain_text a /\ flat_map normal_char a = a.
Proof.
  intros Ha. apply normal_fixed. eapply Forall_impl; [exact Ha|].
  cbn. intros c Hc. unfold is_ascii. split; [left|lia].
  apply andb_true_iff. split; [apply Z.leb_le|apply Z.ltb_lt]; lia.
Qed.

Lemma normal_avoids (c : Z) (s : pystr) :
  c ∉ s -> c <> 40 -> c <> 41 -> ~ 97 <= c <= 122 -> c ∉ flat_map normal_char s.
Proof.
  intros Hc H40 H41 Hlow Hin.
  apply list_elem_of_In, in_flat_map in Hin as (x & Hx & Hin).
  apply list_elem_of_In in Hx. unfold normal_char, ascii_lower in Hin.
  destruct (x =? 65288); [cbn in Hin; lia|].
  destruct (x =? 65289); [cbn in Hin; lia|].
  destruct (x =? 32); [destruct Hin|].
  destruct (Z.leb_spec 65 x), (Z.leb_spec x 90); cbn [andb] in Hin;
    destruct Hin as [Hin|[]]; subst; try contradiction; lia.
Qed.

Lemma re_search_here (r : regex) (s : pystr) (res : mresult) :
  re_match r s = Some res -> re_search r s = Some res.
Proof. intros H. destruct s; cbn [re_search]; now rewrite H. Qed.

Lemma parse_cash_nonempty (plan_text : pystr) :
  plan_text <> [] ->
  _parse_cash_per_share_from_text plan_text
  = let text := normalize_plan_text plan_text in
    let m_ps :=
      match re_search pat_per_share text with
      | Some m => Some m
      | None => re_search pat_per_share_interest text
      end in
    match m_ps ≫= (fun m => float_of_str (group1 m)) with
    | Some v => v
    | None =>
      match try_patterns patterns text with
      | Some v => v
      | None =>
        match re_search pat_generic text with
        | Some m2 =>
          if contains (utf8 "每10股") text || startswith (utf8 "10") text
          then match float_of_str (group1 m2) with
               | Some v => (v / 10)%float
               | None => 0%float
               end
          else 0%float
        | None => 0%float
        end
      end
    end.
Proof. destruct plan_text; [congruence|reflexivity]. Qed.

Lemma amount_head (a s : pystr) (c : Z) :
  amount_digits a -> ~ 48 <= c <= 57 -> c <> 46 -> head (a ++ s) <> Some c.
Proof.
  intros [Hne Ha] H1 H2. destruct a as [|x a]; [congruence|].
  apply Forall_cons in Ha as [Hx _]. cbn. intros [= ->]. lia.
Qed.

Lemma amount_avoids (a : pystr) (c : Z) :
  amount_digits a -> ~ 48 <= c <= 57 -> c <> 46 -> c ∉ a.
Proof.
  intros [_ Ha] H1 H2 Hin. rewrite Forall_forall in Ha. apply Ha in Hin. lia.
Qed.

(** The normalised form of a phrase: the literal and the amount are kept,
    what surrounds them is normalised. *)
Lemma normalize_phrase (pre lit1 a lit2 rest : pystr) :
  plain_text pre -> plain_text rest -> amount_digits a ->
  plain_text lit1 -> flat_map normal_char lit1 = lit1 ->
  plain_text lit2 -> flat_map normal_char lit2 = lit2 ->
  normalize_plan_text (pre ++ lit1 ++ a ++ lit2 ++ rest)
  = flat_map normal_char pre ++ lit1 ++ a ++ lit2 ++ flat_map normal_char rest.
Proof.
  intros Hpre Hrest [_ Ha] Hl1 Hn1 Hl2 Hn2.
  destruct (normal_amount a Ha) as [Hpa Hna].
  rewrite normalize_plain by (repeat (apply plain_text_app; split); assumption).
  rewrite !flat_map_app, Hn1, Hn2, Hna. reflexivity.
Qed.

(** The amounts of the two commonest phrases, for every amount: a text
    that says "每股派X元" before any other "每" gives X, and a text that says
    "10派X元" before any other "1", and has no "每", gives X / 10; X is a run
    of ASCII digits and dots that [float] accepts, and the rest of the text
    is made of ASCII characters, ideographs and full-width parentheses. *)
Theorem parse_cash_phrases (pre a rest : pystr) (v : float) :
  plain_text pre -> plain_text rest -> amount_digits a ->
  float_of_str a = Some v ->
  27599 ∉ pre ->
  _parse_cash_per_share_from_text (pre ++ utf8 "每股派" ++ a ++ utf8 "元" ++ rest) = v
  /\ (49 ∉ pre -> 27599 ∉ rest ->
      _parse_cash_per_share_from_text (pre ++ utf8 "10派" ++ a ++ utf8 "元" ++ rest)
      = (v / 10)%float).
Proof.
  intros Hpre Hrest Ha Hv Hmei.
  pose proof (amount_in_class a (proj2 Ha)) as Hcls.
  assert (plain_text (utf8 "元") /\ flat_map normal_char (utf8 "元") = utf8 "元")
    as [Hy1 Hy2] by (split; [repeat constructor; vm_compute; tauto|vm_compute; reflexivity]).
  assert (forall s, match utf8 "元" ++ s with
                    | [] => True
                    | c :: _ => in_class CDigitDot c = false
                    end) as Hstop by (intros s; reflexivity).
  split.
  - assert (plain_text (utf8 "每股派")
            /\ flat_map normal_char (utf8 "每股派") = utf8 "每股派") as [Hl1 Hl2]
      by (split; [repeat constructor; vm_compute; tauto|vm_compute; reflexivity]).
    rewrite parse_cash_nonempty.
    2: { intros H. apply (f_equal length) in H. rewrite !length_app in H.
         change (length (utf8 "每股派")) with 3%nat in H. cbn in H. lia. }
    cbv zeta. rewrite normalize_phrase by assumption.
    set (pre' := flat_map normal_char pre). set (rest' := flat_map normal_char rest).
    assert (re_search pat_per_share (pre' ++ utf8 "每股派" ++ a ++ utf8 "元" ++ rest')
            = Some ([a], rest')) as ->.
    { rewrite (re_search_skip _ 27599);
        [|vm_compute; reflexivity|apply normal_avoids; [exact Hmei|lia..]].
      apply re_search_here. unfold re_match, pat_per_share, opt_lit.
      cbn [cat foldr rmatch]. rewrite rmatch_lit.
      rewrite (rmatch_first (lit (utf8 "发")) 21457);
        [|vm_compute; reflexivity|apply amount_head; [exact Ha|lia..]].
      rewrite (rmatch_first (lit (utf8 "现金")) 29616);
        [|vm_compute; reflexivity|apply amount_head; [exact Ha|lia..]].
      rewrite (rmatch_first (lit (utf8 "红利")) 32418);
        [|vm_compute; reflexivity|apply amount_head; [exact Ha|lia..]].
      apply rmatch_amount; [apply Ha|exact Hcls|apply Hstop|].
      cbv beta. rewrite rmatch_lit. reflexivity. }
    cbn [mbind option_bind]. change (group1 ([a], rest')) with a. now rewrite Hv.
  - intros Hone Hmei'.
    assert (plain_text (utf8 "10派")
            /\ flat_map normal_char (utf8 "10派") = utf8 "10派") as [Hl1 Hl2]
      by (split; [repeat constructor; vm_compute; tauto|vm_compute; reflexivity]).
    rewrite parse_cash_nonempty.
    2: { intros H. apply (f_equal length) in H. rewrite !length_app in H.
         change (length (utf8 "10派")) with 3%nat in H. cbn in H. lia. }
    cbv zeta. rewrite normalize_phrase by assumption.
    set (pre' := flat_map normal_char pre). set (rest' := flat_map normal_char rest).
    set (text := pre' ++ utf8 "10派" ++ a ++ utf8 "元" ++ rest').
    assert (27599 ∉ text) as Hno.
    { unfold text. rewrite !elem_of_app. intros [H|[H|[H|[H|H]]]].
      - revert H. apply normal_avoids; [exact Hmei|lia..].
      - vm_compute in H. apply list_elem_of_In in H. cbn in H. lia.
      - revert H. apply amount_avoids; [exact Ha|lia..].
      - vm_compute in H. apply list_elem_of_In in H. cbn in H. lia.
      - revert H. apply normal_avoids; [exact Hmei'|lia..]. }
    rewrite (re_search_none pat_per_share 27599) by (try exact Hno; vm_compute; reflexivity).
    rewrite (re_search_none pat_per_share_interest 27599)
      by (try exact Hno; vm_compute; reflexivity).
    cbn [mbind option_bind].
    unfold patterns. cbn [try_patterns].
    assert (re_search (cat [lit (utf8 "10派"); amount; lit (utf8 "元")]) text
            = Some ([a], rest')) as ->.
    { unfold text. rewrite (re_search_skip _ 49);
        [|vm_compute; reflexivity|apply normal_avoids; [exact Hone|lia..]].
      apply re_search_here. unfold re_match.
      cbn [cat foldr rmatch]. rewrite rmatch_lit.
      apply rmatch_amount; [apply Ha|exact Hcls|apply Hstop|].
      cbv beta. rewrite rmatch_lit. reflexivity. }
    change (group1 ([a], rest')) with a. now rewrite Hv.
Qed.

End Phrases.

(** ** The properties on reference data *)

Ltac ascending_dates :=
  repeat (constructor; try (vm_compute; reflexivity)).

(** With trading days 2024-05-31 and 2024-06-03 and today 2024-06-03 the
    default end is 2024-05-31. *)
Lemma get_default_end_trade_date_example :
  get_default_end_trade_date (PV := trading_today_provider)
    [utf8 "2024-05-31"; utf8 "2024-06-03"] = Ok (utf8 "2024-05-31")
  /\ exists d, get_default_end_trade_date (PV := trading_today_provider)
                 [utf8 "2024-05-31"; utf8 "2024-06-03"] = Ok d
               /\ str_lt d (utf8 "2024-06-03").
Proof.
  split; [vm_compute; reflexivity|].
  pose proof (get_default_end_trade_date_spec (PV := trading_today_provider)
                [utf8 "2024-05-31"; utf8 "2024-06-03"] ltac:(ascending_dates)) as H.
  destruct (get_default_end_trade_date _) as [d|msg].
  - exists d. split; [reflexivity|]. destruct H as (_ & H & _).
    apply H. exists (utf8 "2024-05-31"). split; [left|vm_compute; reflexivity].
  - destruct H as [H _]. discriminate H.
Defined.

(** The window of the stock first traded on 2023-03-01, asked for from
    2019-01-01 to 2023-03-02. *)
Lemma derive_trade_window_bounds_example :
  derive_trade_window_from_prices (RT := plain_runtime) (PV := newly_listed_provider)
    example_code (utf8 "2019-01-01") (Some (utf8 "2023-03-02"))
  = Ok (utf8 "2023-03-01", utf8 "2023-03-02")
  /\ str_le (utf8 "2019-01-01") (utf8 "2023-03-01")
  /\ str_le (utf8 "2023-03-01") (utf8 "2023-03-02")
  /\ str_le (utf8 "2023-03-02") (utf8 "2023-03-02").
Proof.
  assert (derive_trade_window_from_prices (RT := plain_runtime)
            (PV := newly_listed_provider)
            example_code (utf8 "2019-01-01") (Some (utf8 "2023-03-02"))
          = Ok (utf8 "2023-03-01", utf8 "2023-03-02")) as Hd
    by (vm_compute; reflexivity).
  split; [exact Hd|].
  pose proof (derive_trade_window_bounds (RT := plain_runtime)
                (PV := newly_listed_provider) _ _ _ _ _ Hd)
    as (_ & _ & Hse & Hs & _ & He).
  split; [exact Hs|]. split; [exact Hse|].
  destruct (He (utf8 "2023-03-02") eq_refl ltac:(vm_compute; discriminate)) as [Hle _].
  exact Hle.
Defined.

(** The close of the worked example on its start day. *)
Lemma get_unadjusted_close_on_example :
  get_unadjusted_close_on (RT := plain_runtime) (PV := example_provider)
    example_code example_start = Ok 10%float
  /\ exists pre r post,
       [price "2023-06-19" 10] = pre ++ r :: post
       /\ h_date r = DateOk example_start /\ h_close r = Some 10%float.
Proof.
  assert (get_unadjusted_close_on (RT := plain_runtime) (PV := example_provider)
            example_code example_start = Ok 10%float) as Hc
    by (vm_compute; reflexivity).
  split; [exact Hc|].
  pose proof (get_unadjusted_close_on_cases (RT := plain_runtime)
                (PV := example_provider) example_code example_start example_code
                (Some [price "2023-06-19" 10])
                ltac:(vm_compute; reflexivity) ltac:(vm_compute; reflexivity)) as H.
  cbv zeta in H. rewrite Hc in H.
  destruct H as (_ & pre & r & post & Hrows & _ & Hr & Hcl).
  exists pre, r, post. auto.
Defined.

(** The run over January 2024 has a row for each of its two stocks. *)
Lemma run_rows_follow_config_example :
  run (RT := plain_runtime) (PV := half_failing_provider) january
    = Ok [january_row "600519"; january_row "000001"]
  /\ length [january_row "600519"; january_row "000001"] = length (stocks january)
  /\ exists r, [january_row "600519"; january_row "000001"] !! 1%nat = Some r
               /\ get r "code" = VStr (utf8 "000001").
Proof.
  assert (run (RT := plain_runtime) (PV := half_failing_provider) january
          = Ok [january_row "600519"; january_row "000001"]) as Hrun.
  { apply (run_returns (RT := plain_runtime) (PV := half_failing_provider) january []);
      [discriminate|vm_compute; reflexivity|reflexivity]. }
  split; [exact Hrun|].
  destruct (run_rows_follow_config (RT := plain_runtime) (PV := half_failing_provider)
              january _ Hrun) as [Hlen Hrows].
  split; [exact Hlen|].
  destruct (Hrows 1%nat (utf8 "000001") eq_refl) as (r & Hr & Hcode & _).
  exists r. split; [exact Hr|exact Hcode].
Defined.

(** A start close of zero in the run of [second_half]. *)
Lemma zero_start_close_rows_example :
  get (stock_row (RT := plain_runtime) (PV := zero_close_provider) second_half
         (utf8 "600519")) "error"
  = VStr (utf8 "float division by zero")
  /\ get (GuiApp.code_row (RT := plain_runtime) (PV := zero_close_provider)
            (start_date second_half) (end_date second_half)
            (utf8 "600519", utf8 "600519")) "error"
     = VStr (utf8 "float division by zero").
Proof.
  destruct (zero_start_close_rows (RT := plain_runtime) (PV := zero_close_provider)
              second_half (utf8 "600519") (utf8 "600519")
              (utf8 "2023-06-19") (utf8 "2023-06-19") 0%float 0%float [] (0%float, 0, []))
    as (_ & Hcli & Hgui); try (vm_compute; reflexivity).
  change (zfill (utf8 "600519")) with (utf8 "600519") in Hgui.
  rewrite Hcli, Hgui. split; vm_compute; reflexivity.
Defined.

(** The second row of the code-name list decides the code of its name. *)
Lemma build_code_maps_names_example :
  GuiApp.dict_get (fst (GuiApp.build_code_maps (RT := plain_runtime)
                          (PV := listed_names_provider))) (utf8 "平安银行")
  = Some (utf8 "000001")
  /\ GuiApp.dict_get (fst (GuiApp.build_code_maps (RT := plain_runtime)
                             (PV := listed_names_provider))) (utf8 "贵州茅台")
     = Some (utf8 "600519").
Proof.
  split.
  - apply (proj1 (build_code_maps_names (RT := plain_runtime)
                    (PV := listed_names_provider))
             [(utf8 "600519", utf8 " 贵州茅台 ")] [] (utf8 "sz000001") (utf8 "平安银行"));
      [reflexivity|vm_compute; discriminate|constructor].
  - apply (proj1 (build_code_maps_names (RT := plain_runtime)
                    (PV := listed_names_provider))
             [] [(utf8 "sz000001", utf8 "平安银行")] (utf8 "600519") (utf8 " 贵州茅台 "));
      [reflexivity|vm_compute; discriminate|].
    repeat constructor. vm_compute. discriminate.
Defined.

(** 2023-06-19 and 2023-12-20: the order of the texts, and 184 days. *)
Lemma canonical_dates_order_example :
  str_lt (utf8 "2023-06-19") (utf8 "2023-12-20")
  /\ calendar_days (RT := plain_runtime) (utf8 "2023-06-19") (utf8 "2023-12-20")
     = Some 184.
Proof.
  destruct (canonical_dates_order (RT := plain_runtime) 2023 6 19 2023 12 20)
    as (_ & Hlt & _ & Hdays & _); try (split; [lia|vm_compute; reflexivity]).
  split.
  - apply Hlt. unfold date_before. lia.
  - exact Hdays.
Defined.

(** The two phrases with the amount 4.3. *)
Lemma parse_cash_phrases_example :
  _parse_cash_per_share_from_text (RT := plain_runtime) (utf8 "每股派4.3元(含税)")
  = 4.3%float
  /\ _parse_cash_per_share_from_text (RT := plain_runtime) (utf8 "10派4.3元(含税)")
     = (4.3 / 10)%float.
Proof.
  destruct (parse_cash_phrases (RT := plain_runtime) [] (utf8 "4.3") (utf8 "(含税)")
              4.3%float) as [H1 H2].
  - constructor.
  - repeat constructor; vm_compute; tauto.
  - split; [vm_compute; discriminate|].
    apply Forall_forall. intros c Hc. apply list_elem_of_In in Hc.
    vm_compute in Hc. lia.
  - vm_compute. reflexivity.
  - apply not_elem_of_nil.
  - split; [exact H1|]. apply H2; [apply not_elem_of_nil|].
    intros Hin. apply list_elem_of_In in Hin. vm_compute in Hin. lia.
Defined.

(** ** Values that are not NaN *)

Lemma binary_round_aux_not_nan (s : bool) (mx ex : Z) (lx : location) :
  0 <= mx -> binary_round_aux prec emax s mx ex lx <> S754_nan.
Proof.
  intros Hm. unfold binary_round_aux.
  pose proof (shr_fexp_nonneg mx ex lx Hm) as H1.
  destruct (shr_fexp prec emax mx ex lx) as [mrs' e']. cbn [fst] in H1.
  pose proof (shr_fexp_nonneg _ e' loc_Exact
                (round_nearest_even_nonneg _ (loc_of_shr_record mrs') H1)) as H2.
  destruct (shr_fexp prec emax _ e' loc_Exact) as [mrs'' e'']. cbn [fst] in H2.
  destruct (shr_m mrs'') as [|p|p]; [discriminate| |lia].
  destruct (e'' <=? emax - prec); discriminate.
Qed.

Lemma binary_round_not_nan (s : bool) (m : positive) (e : Z) :
  binary_round prec emax s m e <> S754_nan.
Proof.
  unfold binary_round. destruct (shl_align _ _ _) as [mz ez].
  apply binary_round_aux_not_nan. lia.
Qed.

Lemma binary_normalize_not_nan (m e : Z) (sz : bool) :
  binary_normalize prec emax m e sz <> S754_nan.
Proof.
  destruct m as [|p|p]; cbn; [discriminate|apply binary_round_not_nan..].
Qed.

Lemma SFldexp_not_nan (x : spec_float) (e : Z) :
  x <> S754_nan -> SFldexp prec emax x e <> S754_nan.
Proof.
  destruct x as [s|s| |s m ex]; cbn [SFldexp]; try congruence.
  intros _. apply binary_round_not_nan.
Qed.

Lemma float_of_int_not_nan (n : Z) : Prim2SF (float_of_int n) <> S754_nan.
Proof.
  unfold float_of_int.
  pose proof (binary_normalize_not_nan n 0 false) as Hx.
  destruct (binary_normalize prec emax n 0 false) as [s|s| |s m e]; [..|congruence|].
  - destruct s; vm_compute; discriminate.
  - destruct s; vm_compute; discriminate.
  - cbn [SF2Prim]. cbv zeta.
    assert (Prim2SF (Z.ldexp (of_uint63 (Uint63Axioms.of_Z (Z.pos m))) e) <> S754_nan)
      as Hf.
    { unfold Z.ldexp. rewrite FloatAxioms.ldshiftexp_spec. apply SFldexp_not_nan.
      rewrite FloatAxioms.of_uint63_spec. apply binary_normalize_not_nan. }
    destruct s; [|exact Hf].
    rewrite FloatAxioms.opp_spec.
    destruct (Prim2SF _) as [s'|s'| |s' m' e']; cbn; congruence.
Qed.

Lemma not_infinity_finite (f : float) :
  Prim2SF f <> S754_nan -> is_infinity f = false -> finite f.
Proof.
  unfold is_infinity, finite.
  rewrite FloatAxioms.eqb_spec, FloatAxioms.abs_spec.
  change (Prim2SF infinity) with (S754_infinity false).
  destruct (Prim2SF f) as [s|s| |s m e]; cbn; congruence || tauto.
Qed.

Lemma finite_near_itself (f : float) :
  finite f -> (abs (f - f) <=? 1e-6)%float = true.
Proof.
  unfold finite.
  rewrite FloatAxioms.leb_spec, FloatAxioms.abs_spec, FloatAxioms.sub_spec.
  unfold SF64sub.
  destruct (Prim2SF f) as [s|s| |s m e]; intros H;
    [destruct s; vm_compute; reflexivity|destruct H|destruct H|].
  cbn [SFsub]. cbv zeta. rewrite Z.sub_diag. vm_compute. reflexivity.
Qed.

Lemma not_finite_far_from_itself (f : float) :
  ~ finite f -> (abs (f - f) <=? 1e-6)%float = false.
Proof.
  unfold finite.
  rewrite FloatAxioms.leb_spec, FloatAxioms.abs_spec, FloatAxioms.sub_spec.
  unfold SF64sub.
  destruct (Prim2SF f) as [s|s| |s m e]; intros H;
    [destruct H; exact I|destruct s; reflexivity|reflexivity|destruct H; exact I].
Qed.

Section ComparingItself.
Context `{RT : Runtime}.
Import Compare.

Lemma plain_field_equal (r : row) (field : string) :
  plain_row r -> field ∈ checks ->
  field_equal field (get r field) (get r field) = true.
Proof.
  intros [Hexact Hnum] Hf.
  assert (forall f, f ∈ exact_fields -> py_eq (get r f) (get r f) = true) as He.
  { intros f Hin. rewrite Forall_forall in Hexact. apply Hexact in Hin.
    destruct (get r f) as [|s|n|x|re im];
      [reflexivity|cbn; apply str_eqb_refl|exact (False_ind _ Hin)..]. }
  assert (forall f, f ∈ numeric_checks -> approx_equal (get r f) (get r f) = true) as Hn.
  { intros f Hin. rewrite Forall_forall in Hnum. apply Hnum in Hin.
    destruct (get r f) as [|s|n|x|re im];
      [reflexivity|exact (False_ind _ Hin)| | |exact (False_ind _ Hin)].
    - unfold approx_equal, to_float.
      destruct (is_infinity (float_of_int n)) eqn:Hinf; [cbn; apply Z.eqb_refl|].
      apply finite_near_itself, not_infinity_finite;
        [apply float_of_int_not_nan|exact Hinf].
    - cbn [approx_equal to_float]. now apply finite_near_itself. }
  apply list_elem_of_In in Hf. cbv [checks In] in Hf.
  repeat (destruct Hf as [<-|Hf];
    [first [ apply He; apply list_elem_of_In; vm_compute; tauto
           | apply Hn; apply list_elem_of_In; vm_compute; tauto ]|]).
  destruct Hf.
Qed.

Lemma plain_rows_same (rows : list row) :
  Forall plain_row rows -> compare_rows rows rows = [].
Proof.
  intros Hrows. apply compare_rows_nil. intros code Hin.
  assert (code ∈ map row_code rows) as Hc by (apply elem_of_app in Hin; tauto).
  destruct (row_of rows code) as [g|] eqn:Hg.
  - exists g, g. split; [reflexivity|]. split; [reflexivity|].
    intros field Hf. apply plain_field_equal; [|exact Hf].
    apply row_of_Some in Hg as [Hg _]. rewrite Forall_forall in Hrows. auto.
  - apply row_of_None in Hg. contradiction.
Qed.

(** Comparing a list of rows with itself reports nothing as long as their
    codes are texts and their numbers are finite; a row whose
    [total_return] is an infinity or a NaN is reported as different from
    itself. *)
Theorem compare_rows_with_itself :
  (forall rows : list row,
     text_codes rows -> Forall plain_row rows -> compare_rows rows rows = [])
  /\ (forall (r : row) (f : float),
        get r "total_return" = VFloat f -> ~ finite f ->
        compare_rows [r] [r] <> []).
Proof.
  split; [intros rows _; apply plain_rows_same|].
  - intros r f Hr Hf Hnil.
    rewrite compare_rows_nil in Hnil.
    destruct (Hnil (row_code r)) as (g & c & Hg & Hc & Hall); [left|].
    apply row_of_Some in Hg as [Hg _]. apply row_of_Some in Hc as [Hc _].
    apply list_elem_of_singleton in Hg, Hc. subst g c.
    specialize (Hall "total_return"%string).
    rewrite Hr in Hall.
    assert (field_equal "total_return" (VFloat f) (VFloat f) = false) as Hne.
    { change (field_equal "total_return" (VFloat f) (VFloat f))
        with (abs (f - f) <=? 1e-6)%float.
      now apply not_finite_far_from_itself. }
    rewrite Hne in Hall. discriminate Hall.
    apply list_elem_of_In. vm_compute. tauto.
Qed.

End ComparingItself.

(** ** Blanks and parentheses of a plan text *)

Section Blanks.
Context `{RT : Runtime}.

Lemma normalize_nil : normalize_plan_text [] = [].
Proof. reflexivity. Qed.

Lemma parse_cash_normal_nil (t : pystr) :
  normalize_plan_text t = [] -> _parse_cash_per_share_from_text t = 0%float.
Proof.
  intros Hn. destruct t as [|c t]; [reflexivity|].
  rewrite parse_cash_nonempty by discriminate. rewrite Hn. reflexivity.
Qed.

Lemma parse_cash_normal_eq (t1 t2 : pystr) :
  normalize_plan_text t1 = normalize_plan_text t2 ->
  _parse_cash_per_share_from_text t1 = _parse_cash_per_share_from_text t2.
Proof.
  intros Hn. destruct t1 as [|c1 t1].
  - rewrite normalize_nil in Hn. symmetry. now rewrite parse_cash_normal_nil.
  - destruct t2 as [|c2 t2].
    + rewrite normalize_nil in Hn. now rewrite parse_cash_normal_nil.
    + rewrite !parse_cash_nonempty by discriminate. now rewrite Hn.
Qed.

Lemma replaced_again (old : Z) (new t : pystr) :
  (old = 32 /\ new = []) \/ (old = 65288 /\ new = [40]) \/ (old = 65289 /\ new = [41]) ->
  replace 32 [] (replace 65289 [41] (replace 65288 [40] (replace old new t)))
  = replace 32 [] (replace 65289 [41] (replace 65288 [40] t)).
Proof.
  intros Hold. induction t as [|c t IH]; [reflexivity|].
  change (c :: t) with ([c] ++ t). rewrite !replace_app, IH. f_equal.
  unfold replace at 4. cbn [flat_map].
  destruct Hold as [[-> ->]|[[-> ->]|[-> ->]]].
  - destruct (Z.eqb_spec c 32) as [->|H]; [reflexivity|]. now rewrite app_nil_r.
  - destruct (Z.eqb_spec c 65288) as [->|H]; [reflexivity|]. now rewrite app_nil_r.
  - destruct (Z.eqb_spec c 65289) as [->|H]; [reflexivity|]. now rewrite app_nil_r.
Qed.

(** The blanks of a plan text and the width of its parentheses do not
    matter: the text without its blanks (U+0020), or with its full-width
    parentheses replaced by the ASCII ones, parses to the same amount. *)
Theorem parse_cash_ignores_blanks (t : pystr) :
  _parse_cash_per_share_from_text (replace 32 [] t)
  = _parse_cash_per_share_from_text t
  /\ _parse_cash_per_share_from_text (replace 65288 [40] t)
     = _parse_cash_per_share_from_text t
  /\ _parse_cash_per_share_from_text (replace 65289 [41] t)
     = _parse_cash_per_share_from_text t.
Proof.
  split; [|split]; apply parse_cash_normal_eq; unfold normalize_plan_text; f_equal;
    apply replaced_again; tauto.
Qed.

End Blanks.

(** ** Signs of sums *)

Lemma float_pos_cases (v : float) :
  (0 <? v)%float = true ->
  float_nonneg v /\ (v =? v)%float = true /\ (v <=? 0)%float = false.
Proof.
  unfold float_nonneg.
  rewrite FloatAxioms.ltb_spec, FloatAxioms.eqb_spec, !FloatAxioms.leb_spec.
  change (Prim2SF 0) with (S754_zero false).
  destruct (Prim2SF v) as [s|s| |s m e]; cbn; try discriminate.
  - destruct s; [discriminate|]. auto.
  - destruct s; [discriminate|]. intros _.
    unfold SFeqb, SFleb. cbn.
    rewrite Z.compare_refl, Pos.compare_cont_refl. auto.
Qed.

Lemma SFadd_nonneg (x y : spec_float) :
  SFnonneg x -> SFnonneg y -> SFnonneg (SFadd prec emax x y).
Proof.
  destruct x as [sx|sx| |sx mx ex], y as [sy|sy| |sy my ey]; cbn [SFnonneg SFadd];
    try tauto.
  - intros _ _. destruct sx, sy; exact I.
  - intros -> ->. reflexivity.
  - intros -> ->. cbv zeta. cbn [cond_Zopp]. apply binary_normalize_nonneg. lia.
Qed.

Lemma float_add_nonneg (a b : float) :
  float_nonneg a -> float_nonneg b -> float_nonneg (a + b)%float.
Proof.
  rewrite !float_nonneg_spec, FloatAxioms.add_spec. apply SFadd_nonneg.
Qed.

Section Tables.
Context `{RT : Runtime} `{TB : AkTables.Tables}.
Import AkTables.

Lemma has_column_elem (df : frame) (c : pystr) :
  has_column df c = true <-> c ∈ columns df.
Proof.
  unfold has_column. rewrite existsb_exists. split.
  - intros (x & Hin & Heq). apply str_eqb_eq in Heq. subst.
    now apply list_elem_of_In.
  - intros Hin. exists c. split; [now apply list_elem_of_In|apply str_eqb_refl].
Qed.

Lemma first_column_elem (cands : list pystr) (df : frame) (c : pystr) :
  first_column cands df = Some c -> c ∈ cands /\ c ∈ columns df.
Proof.
  unfold first_column. intros H. apply find_some in H as [Hin Hc].
  split; [now apply list_elem_of_In|now apply has_column_elem].
Qed.

Lemma frame_not_empty (df : frame) (row : pystr -> cell) (c : pystr) :
  row ∈ rows df -> has_column df c = true -> frame_empty df = false.
Proof.
  intros Hr Hc. apply has_column_elem in Hc. unfold frame_empty.
  destruct (rows df); [now apply elem_of_nil in Hr|].
  destruct (columns df); [now apply elem_of_nil in Hc|reflexivity].
Qed.

(** ** The events of the two sources *)

Lemma fallback_event_positive (ex_col : pystr) (cash_col plan_text_col : option pystr)
    (row : pystr -> cell) (e : DividendEvent) :
  fallback_event ex_col cash_col plan_text_col row = Some e ->
  (0 <? cash_per_share e)%float = true /\ c_date (row ex_col) = DateOk (ex_date e).
Proof.
  unfold fallback_event. destruct (c_date (row ex_col)) as [d| |]; try discriminate.
  cbv zeta.
  match goal with |- (if ?c then _ else _) = _ -> _ => destruct c eqn:Hpos end;
    [|discriminate].
  intros [= <-]. cbn. auto.
Qed.

Lemma ths_event_positive (ex_col : pystr) (plan_text_col : option pystr)
    (row : pystr -> cell) (e : DividendEvent) :
  ths_event ex_col plan_text_col row = Some e ->
  (0 <? cash_per_share e)%float = true /\ c_date (row ex_col) = DateOk (ex_date e).
Proof.
  unfold ths_event. destruct (c_date (row ex_col)) as [d| |]; try discriminate.
  cbv zeta.
  match goal with |- (if ?c then _ else _) = _ -> _ => destruct c eqn:Hpos end;
    [|discriminate].
  intros [= <-]. cbn. auto.
Qed.

Lemma fetch_fallback_positive (code : pystr) :
  Forall (fun e => (0 <? cash_per_share e)%float = true)
    (fetch_dividends_ths_fallback code).
Proof.
  unfold fetch_dividends_ths_fallback.
  destruct (stock_history_dividend_detail _ _) as [[df|]|]; try constructor.
  destruct (frame_empty df); [constructor|].
  destruct (first_column _ df) as [ex_col|]; [|constructor].
  cbv zeta. apply Forall_forall. intros e He.
  apply list_elem_of_omap in He as (row & _ & He).
  now apply fallback_event_positive in He.
Qed.

Lemma fetch_ths_positive (code : pystr) :
  Forall (fun e => (0 <? cash_per_share e)%float = true) (fetch_dividends_ths code).
Proof.
  unfold fetch_dividends_ths.
  destruct (stock_fhps_detail_ths _) as [[df|]|]; try constructor.
  destruct (frame_empty df); [constructor|].
  destruct (first_column _ df) as [ex_col|]; [|constructor].
  cbv zeta. apply Forall_forall. intros e He.
  apply list_elem_of_omap in He as (row & _ & He).
  now apply ths_event_positive in He.
Qed.

Lemma fetched_events_positive (code : pystr) :
  Forall (fun e => (0 <? cash_per_share e)%float = true) (fetched_events code).
Proof.
  unfold fetched_events.
  pose proof (fetch_fallback_positive code) as H1.
  destruct (fetch_dividends_ths_fallback code); [apply fetch_ths_positive|exact H1].
Qed.

Lemma numeric_cash_not_positive (cash_col : option pystr) (row : pystr -> cell) :
  (forall c, cash_col = Some c -> (0 <? c_number (row c))%float = false) ->
  numeric_cash cash_col row = 0%float.
Proof.
  intros H. unfold numeric_cash. destruct cash_col as [c|]; [|reflexivity].
  cbv zeta. rewrite (H c eq_refl), andb_false_r. reflexivity.
Qed.

(** What a row of the first table gives, its ex-date being readable: the
    value of a per-share column as it is; the value of the column "派息",
    which is per ten shares, divided by ten; and the amount parsed from the
    plan text when no numeric column gives a positive value. *)
Theorem fetch_dividends_fallback_amounts (code : pystr) (df : frame)
    (row : pystr -> cell) (d : pystr) :
  stock_history_dividend_detail code (utf8 "分红") = Ok (Some df) ->
  row ∈ rows df ->
  has_column df (utf8 "除权除息日") = true ->
  c_date (row (utf8 "除权除息日")) = DateOk d ->
  (forall v,
     has_column df (utf8 "每股派息(税前)") = true ->
     c_number (row (utf8 "每股派息(税前)")) = v -> (0 <? v)%float = true ->
     {| ex_date := d; cash_per_share := v |} ∈ fetch_dividends_ths_fallback code)
  /\ (forall v,
        has_column df (utf8 "每股派息(税前)") = false ->
        has_column df (utf8 "每股税前") = false ->
        has_column df (utf8 "派息") = true ->
        c_number (row (utf8 "派息")) = v ->
        (0 <? v)%float = true -> (0 <? v / 10)%float = true ->
        {| ex_date := d; cash_per_share := (v / 10)%float |}
          ∈ fetch_dividends_ths_fallback code)
  /\ (forall col p,
        first_column plan_text_columns df = Some col ->
        (forall c, c ∈ cash_columns -> has_column df c = true ->
                   (0 <? c_number (row c))%float = false) ->
        _parse_cash_per_share_from_text (c_text (row col)) = p ->
        (0 <? p)%float = true ->
        {| ex_date := d; cash_per_share := p |} ∈ fetch_dividends_ths_fallback code).
Proof.
  intros Hdf Hrow Hex Hd.
  assert (first_column [utf8 "除权除息日"; utf8 "A股除权除息日"] df
          = Some (utf8 "除权除息日")) as Hcol.
  { unfold first_column. cbn [List.find]. now rewrite Hex. }
  assert (forall e,
            fallback_event (utf8 "除权除息日")
              (first_column cash_columns df)
              (first_column plan_text_columns df) row = Some e ->
            e ∈ fetch_dividends_ths_fallback code) as Hin.
  { intros e He. unfold fetch_dividends_ths_fallback.
    rewrite Hdf, (frame_not_empty df row _ Hrow Hex), Hcol. cbv zeta.
    apply list_elem_of_omap. exists row. split; [exact Hrow|exact He]. }
  split; [|split].
  - intros v Hc Hv Hpos. apply Hin.
    assert (first_column cash_columns df = Some (utf8 "每股派息(税前)")) as ->.
    { unfold first_column, cash_columns. cbn [List.find]. now rewrite Hc. }
    destruct (float_pos_cases v Hpos) as (_ & Hna & Hle).
    unfold fallback_event. rewrite Hd. unfold numeric_cash. cbv zeta.
    rewrite Hv. unfold notna. rewrite Hna, Hpos. cbn [andb].
    replace (str_eqb (utf8 "每股派息(税前)") (utf8 "派息")) with false
      by (vm_compute; reflexivity).
    rewrite Hle. destruct (first_column plan_text_columns df); now rewrite Hpos.
  - intros v Hc1 Hc2 Hc3 Hv Hpos Hten. apply Hin.
    assert (first_column cash_columns df = Some (utf8 "派息")) as ->.
    { unfold first_column, cash_columns. cbn [List.find]. now rewrite Hc1, Hc2, Hc3. }
    destruct (float_pos_cases v Hpos) as (_ & Hna & _).
    destruct (float_pos_cases _ Hten) as (_ & _ & Hle).
    unfold fallback_event. rewrite Hd. unfold numeric_cash. cbv zeta.
    rewrite Hv. unfold notna. rewrite Hna, Hpos. cbn [andb].
    rewrite str_eqb_refl, Hle.
    destruct (first_column plan_text_columns df); now rewrite Hten.
  - intros col p Hplan Hnum Hp Hpos. apply Hin.
    unfold fallback_event. rewrite Hd, Hplan. cbv zeta.
    rewrite numeric_cash_not_positive.
    + replace (0 <=? 0)%float with true by (vm_compute; reflexivity).
      now rewrite Hp, Hpos.
    + intros c Hc. apply first_column_elem in Hc as [Hc1 Hc2].
      apply Hnum; [exact Hc1|now apply has_column_elem].
Qed.

(** ** The events of [get_dividends] *)

Lemma group_cash_dates (events : list DividendEvent) :
  map ex_date (group_cash events) = sorted_set (map ex_date events).
Proof.
  unfold group_cash. rewrite map_map. cbn [ex_date]. apply map_id.
Qed.

Lemma get_dividends_group (code : pystr) :
  get_dividends code = group_cash (fetched_events code).
Proof.
  unfold get_dividends. destruct (fetched_events code); reflexivity.
Qed.

(** [get_dividends] returns one event per ex-date, the dates in ascending
    order; the dates are those of the events of the first source, or of the
    second when the first has none; the amount of a date is the sum pandas
    gives for the amounts of that date, every one of them positive; and
    there is no event exactly when neither source has one. *)
Theorem get_dividends_dates (code : pystr) :
  ascending (map ex_date (get_dividends code))
  /\ (forall d, d ∈ map ex_date (get_dividends code)
                <-> d ∈ map ex_date (fetched_events code))
  /\ (forall e, e ∈ get_dividends code ->
        exists amounts,
          cash_per_share e = group_sum amounts /\ amounts <> []
          /\ Forall (fun a => (0 <? a)%float = true) amounts)
  /\ (fetch_dividends_ths_fallback code <> [] ->
      fetched_events code = fetch_dividends_ths_fallback code)
  /\ (get_dividends code = [] <->
      fetch_dividends_ths_fallback code = [] /\ fetch_dividends_ths code = []).
Proof.
  rewrite get_dividends_group.
  split; [|split; [|split; [|split]]].
  - rewrite group_cash_dates. apply sorted_set_ascending.
  - intros d. rewrite group_cash_dates. apply sorted_set_elem.
  - intros e He. unfold group_cash in He.
    apply list_elem_of_In, in_map_iff in He as (d & <- & Hd).
    apply list_elem_of_In, sorted_set_elem, list_elem_of_In, in_map_iff in Hd
      as (e0 & He0 & Hin).
    eexists. split; [reflexivity|]. split.
    + intros Hnil. apply map_eq_nil in Hnil.
      assert (In e0 (List.filter (fun e => str_eqb (ex_date e) d)
                       (fetched_events code))) as Hf.
      { apply filter_In. split; [exact Hin|]. rewrite He0. apply str_eqb_refl. }
      rewrite Hnil in Hf. destruct Hf.
    + apply Forall_forall. intros a Ha.
      apply list_elem_of_In, in_map_iff in Ha as (e1 & <- & He1).
      apply filter_In in He1 as [He1 _].
      pose proof (fetched_events_positive code) as Hpos.
      rewrite Forall_forall in Hpos. apply Hpos. now apply list_elem_of_In.
  - unfold fetched_events. destruct (fetch_dividends_ths_fallback code); congruence.
  - unfold fetched_events. split.
    + intros Hnil. apply (f_equal (map ex_date)) in Hnil.
      rewrite group_cash_dates in Hnil. cbn in Hnil.
      assert (forall l, sorted_set l = [] -> l = []) as Hs.
      { intros [|x l] Hl; [reflexivity|].
        assert (x ∈ sorted_set (x :: l)) as Hx by (apply sorted_set_elem; left).
        rewrite Hl in Hx. now apply elem_of_nil in Hx. }
      apply Hs, map_eq_nil in Hnil.
      destruct (fetch_dividends_ths_fallback code); [auto|discriminate].
    + intros [-> ->]. reflexivity.
Qed.

(** ** Bonus shares and allotments *)

Lemma join_nil (sep : pystr) (notes : list pystr) :
  Forall (fun note => note <> []) notes -> join sep notes = [] -> notes = [].
Proof.
  intros Hne Hj. destruct notes as [|n rest]; [reflexivity|].
  apply Forall_cons in Hne as [Hn _]. exfalso. apply Hn.
  cbn [join] in Hj. destruct rest; [exact Hj|].
  now apply app_eq_nil in Hj as [Hj _].
Qed.

Lemma note_not_empty (a b : pystr) (s : string) :
  utf8 s <> [] -> a ++ utf8 s ++ b <> [].
Proof.
  intros Hs H. apply app_eq_nil in H as [_ H]. now apply app_eq_nil in H as [H _].
Qed.

Lemma add_tenth_nonneg (acc : float) (val : option float) :
  float_nonneg acc -> float_nonneg (add_tenth acc val).
Proof.
  intros Hacc. unfold add_tenth. destruct val as [v|]; [|exact Hacc].
  destruct (notna v); [|exact Hacc]. cbn [andb].
  destruct (0 <? v)%float eqn:Hpos; [|exact Hacc].
  apply float_add_nonneg; [exact Hacc|].
  apply float_div_ten_nonneg. now apply float_pos_cases.
Qed.

Lemma sound_shares_add (total : float) (count : Z) (notes : list pystr)
    (added : float) (note : pystr) :
  sound_shares (total, count, notes) -> float_nonneg added -> note <> [] ->
  sound_shares ((total + added)%float, count + 1, notes ++ [note]).
Proof.
  intros (Ht & Hc & Hn & _) Ha Hnote. unfold sound_shares.
  split; [now apply float_add_nonneg|]. split.
  - rewrite length_app. cbn [length]. lia.
  - split.
    + apply Forall_app. split; [exact Hn|]. now apply Forall_singleton.
    + intros Hnil. now apply app_eq_nil in Hnil as [_ Hnil].
Qed.

Lemma bonus_row_sound (s e : pystr) (ex_col send_col transfer_col : option pystr)
    (st : float * Z * list pystr) (row : pystr -> cell) :
  sound_shares st -> sound_shares (bonus_row s e ex_col send_col transfer_col st row).
Proof.
  destruct st as [[total count] notes]. intros Hst. unfold bonus_row.
  destruct (row_ex_date ex_col row) as [d|]; [|exact Hst].
  destruct (in_interval s e d); [|exact Hst]. cbv zeta.
  destruct (0 <? _)%float eqn:Hpos; [|exact Hst].
  apply sound_shares_add; [exact Hst|now apply float_pos_cases|].
  apply note_not_empty. vm_compute. intros H. discriminate H.
Qed.

Lemma allot_row_sound (s e : pystr) (ex_col2 allot_col : option pystr)
    (st : float * Z * list pystr) (row : pystr -> cell) :
  sound_shares st -> sound_shares (allot_row s e ex_col2 allot_col st row).
Proof.
  destruct st as [[total count] notes]. intros Hst. unfold allot_row.
  destruct (row_ex_date ex_col2 row) as [d|]; [|exact Hst].
  destruct (in_interval s e d); [|exact Hst]. cbv zeta.
  destruct (numeric_cell allot_col row) as [v|]; [|exact Hst].
  destruct (notna v); [|exact Hst]. cbn [andb].
  destruct (0 <? v)%float eqn:Hpos; [|exact Hst].
  apply sound_shares_add; [exact Hst| |].
  - apply float_div_ten_nonneg. now apply float_pos_cases.
  - apply note_not_empty. vm_compute. intros H. discriminate H.
Qed.

Lemma foldl_sound {B} (f : float * Z * list pystr -> B -> float * Z * list pystr)
    (l : list B) (st : float * Z * list pystr) :
  (forall st b, sound_shares st -> sound_shares (f st b)) ->
  sound_shares st -> sound_shares (foldl f st l).
Proof.
  intros Hf. revert st. induction l as [|b l IH]; intros st Hst; [exact Hst|].
  cbn [foldl]. apply IH, Hf, Hst.
Qed.

Lemma foldl_count {B} (f : float * Z * list pystr -> B -> float * Z * list pystr)
    (l : list B) (st : float * Z * list pystr) :
  (forall st b, snd (fst (f st b)) <= snd (fst st) + 1) ->
  snd (fst (foldl f st l)) <= snd (fst st) + Z.of_nat (length l).
Proof.
  intros Hf. revert st. induction l as [|b l IH]; intros st; [cbn; lia|].
  cbn [foldl length]. specialize (IH (f st b)). specialize (Hf st b). lia.
Qed.

Lemma bonus_row_count (s e : pystr) (ex_col send_col transfer_col : option pystr)
    (st : float * Z * list pystr) (row : pystr -> cell) :
  snd (fst (bonus_row s e ex_col send_col transfer_col st row)) <= snd (fst st) + 1.
Proof.
  destruct st as [[total count] notes]. unfold bonus_row.
  destruct (row_ex_date ex_col row) as [d|]; [|cbn; lia].
  destruct (in_interval s e d); [|cbn; lia]. cbv zeta.
  destruct (0 <? _)%float; cbn; lia.
Qed.

Lemma allot_row_count (s e : pystr) (ex_col2 allot_col : option pystr)
    (st : float * Z * list pystr) (row : pystr -> cell) :
  snd (fst (allot_row s e ex_col2 allot_col st row)) <= snd (fst st) + 1.
Proof.
  destruct st as [[total count] notes]. unfold allot_row.
  destruct (row_ex_date ex_col2 row) as [d|]; [|cbn; lia].
  destruct (in_interval s e d); [|cbn; lia]. cbv zeta.
  destruct (numeric_cell allot_col row) as [v|]; [|cbn; lia].
  destruct (notna v && (0 <? v)%float); cbn; lia.
Qed.

Lemma bonus_rows_sound (code s e : pystr) (st : float * Z * list pystr) :
  sound_shares st -> sound_shares (bonus_rows code s e st).
Proof.
  intros Hst. unfold bonus_rows.
  destruct (frame_or_empty _) as [df|]; [|exact Hst].
  destruct (frame_empty df); [exact Hst|]. cbv zeta.
  apply foldl_sound; [|exact Hst]. intros st' b. apply bonus_row_sound.
Qed.

Lemma allot_rows_sound (code s e : pystr) (st : float * Z * list pystr) :
  sound_shares st -> sound_shares (allot_rows code s e st).
Proof.
  intros Hst. unfold allot_rows.
  destruct (frame_or_empty _) as [df|]; [|exact Hst].
  destruct (frame_empty df); [exact Hst|]. cbv zeta.
  apply foldl_sound; [|exact Hst]. intros st' b. apply allot_row_sound.
Qed.

Lemma bonus_rows_count (code s e : pystr) (st : float * Z * list pystr) :
  snd (fst (bonus_rows code s e st))
  <= snd (fst st)
     + Z.of_nat (length (table_rows (stock_history_dividend_detail code (utf8 "分红")))).
Proof.
  unfold bonus_rows, table_rows, frame_or_empty.
  destruct (stock_history_dividend_detail _ _) as [[df|]|msg];
    [|cbn; lia|cbn; lia].
  destruct (frame_empty df); [lia|]. cbv zeta.
  apply foldl_count. intros st' b. apply bonus_row_count.
Qed.

Lemma allot_rows_count (code s e : pystr) (st : float * Z * list pystr) :
  snd (fst (allot_rows code s e st))
  <= snd (fst st)
     + Z.of_nat (length (table_rows (stock_history_dividend_detail code (utf8 "配股")))).
Proof.
  unfold allot_rows, table_rows, frame_or_empty.
  destruct (stock_history_dividend_detail _ _) as [[df|]|msg];
    [|cbn; lia|cbn; lia].
  destruct (frame_empty df); [lia|]. cbv zeta.
  apply foldl_count. intros st' b. apply allot_row_count.
Qed.

(** What [sum_additional_shares_in_interval] returns: a total that is not
    below zero (and not a NaN); a count that is the number of notes joined
    in the description, at most the number of rows of the two tables; a
    description that is empty exactly when nothing was counted, and then
    the total is [0.0]. *)
Theorem sum_additional_shares_spec (code s e : pystr) :
  let bonus := table_rows (stock_history_dividend_detail code (utf8 "分红")) in
  let allot := table_rows (stock_history_dividend_detail code (utf8 "配股")) in
  let '(total, count, desc) := sum_additional_shares_in_interval code s e in
  float_nonneg total
  /\ 0 <= count <= Z.of_nat (length bonus) + Z.of_nat (length allot)
  /\ (count = 0 <-> desc = [])
  /\ (count = 0 -> total = 0%float).
Proof.
  intros bonus allot. unfold sum_additional_shares_in_interval. cbv zeta.
  pose proof (bonus_rows_count code s e (0%float, 0, [])) as Hb.
  pose proof (allot_rows_count code s e (bonus_rows code s e (0%float, 0, []))) as Ha.
  assert (sound_shares (allot_rows code s e (bonus_rows code s e (0%float, 0, []))))
    as Hs.
  { apply allot_rows_sound, bonus_rows_sound. unfold sound_shares.
    split; [apply float_zero_nonneg|]. repeat split; constructor. }
  destruct (allot_rows code s e _) as [[total count] notes].
  destruct Hs as (Ht & Hc & Hn & Hz). cbn [fst snd] in Ha, Hb.
  fold bonus in Hb. fold allot in Ha.
  split; [exact Ht|]. split; [lia|]. split.
  - split.
    + intros H0. assert (notes = []) as -> by (destruct notes; [reflexivity|cbn in Hc; lia]).
      reflexivity.
    + intros Hd. apply join_nil in Hd; [|exact Hn]. subst notes. exact Hc.
  - intros H0. apply Hz. destruct notes; [reflexivity|cbn in Hc; lia].
Qed.

Lemma row_ex_date_within (s e : pystr) (rows : list (pystr -> cell))
    (ex_col : option pystr) (row : pystr -> cell) :
  no_date_within s e rows -> row ∈ rows ->
  match row_ex_date ex_col row with
  | Some d => in_interval s e d = false
  | None => True
  end.
Proof.
  intros Hno Hrow. unfold row_ex_date. destruct ex_col as [col|]; [|exact I].
  destruct (c_date (row col)) as [d| |] eqn:Hd; try exact I.
  destruct (in_interval s e d) eqn:Hin; [|reflexivity].
  apply in_interval_within in Hin. now apply Hno in Hd.
Qed.

Lemma within_reversed (s e d : pystr) : str_le e s -> ~ within s e d.
Proof.
  intros Hes [Hsd Hde]. apply (str_lt_irrefl s).
  apply (str_lt_le_trans s d s Hsd). exact (str_le_trans d e s Hde Hes).
Qed.

Lemma foldl_unchanged {A B} (f : A -> B -> A) (l : list B) (a : A) :
  (forall a b, b ∈ l -> f a b = a) -> foldl f a l = a.
Proof.
  induction l as [|b l IH]; intros Hf; [reflexivity|].
  cbn [foldl]. rewrite Hf by left. apply IH. intros a' b' Hb'. apply Hf. now right.
Qed.

(** Rows whose date is not within (start, end] count for nothing: when no
    row of the two tables has a date within the interval, and so whenever
    the end is not after the start, [sum_additional_shares_in_interval]
    returns [(0.0, 0, "")]. *)
Theorem sum_additional_shares_outside (code s e : pystr) :
  (no_date_within s e (table_rows (stock_history_dividend_detail code (utf8 "分红"))) ->
   no_date_within s e (table_rows (stock_history_dividend_detail code (utf8 "配股"))) ->
   sum_additional_shares_in_interval code s e = (0%float, 0, []))
  /\ (str_le e s -> sum_additional_shares_in_interval code s e = (0%float, 0, [])).
Proof.
  assert (no_date_within s e (table_rows (stock_history_dividend_detail code (utf8 "分红"))) ->
          no_date_within s e (table_rows (stock_history_dividend_detail code (utf8 "配股"))) ->
          sum_additional_shares_in_interval code s e = (0%float, 0, [])) as Hgen.
  { intros Hb Ha. unfold sum_additional_shares_in_interval. cbv zeta.
    assert (bonus_rows code s e (0%float, 0, []) = (0%float, 0, [])) as ->.
    { unfold bonus_rows, frame_or_empty. unfold table_rows in Hb.
      destruct (stock_history_dividend_detail code (utf8 "分红")) as [[df|]|msg];
        try reflexivity.
      destruct (frame_empty df); [reflexivity|]. cbv zeta.
      apply foldl_unchanged. intros [[t c] n] row Hrow. unfold bonus_row.
      pose proof (row_ex_date_within s e _
                    (first_column [utf8 "除权除息日"; utf8 "A股除权除息日"] df)
                    row Hb Hrow) as Hd.
      destruct (row_ex_date _ row) as [d|]; [|reflexivity]. now rewrite Hd. }
    assert (allot_rows code s e (0%float, 0, []) = (0%float, 0, [])) as ->.
    { unfold allot_rows, frame_or_empty. unfold table_rows in Ha.
      destruct (stock_history_dividend_detail code (utf8 "配股")) as [[df|]|msg];
        try reflexivity.
      destruct (frame_empty df); [reflexivity|]. cbv zeta.
      apply foldl_unchanged. intros [[t c] n] row Hrow. unfold allot_row.
      pose proof (row_ex_date_within s e _
                    (first_column [utf8 "除权日"; utf8 "股权登记日"] df)
                    row Ha Hrow) as Hd.
      destruct (row_ex_date _ row) as [d|]; [|reflexivity]. now rewrite Hd. }
    reflexivity. }
  split; [exact Hgen|].
  intros Hes. apply Hgen; intros row col d _ _; now apply within_reversed.
Qed.

End Tables.

(** ** The tables on reference data *)

Lemma table_row_cell (cells : list (string * AkTables.cell)) (col : pystr) :
  table_row cells col = na_cell \/ exists p, In p cells /\ table_row cells col = snd p.
Proof.
  unfold table_row.
  destruct (List.find _ cells) as [p|] eqn:Hf; [right|left; reflexivity].
  exists p. split; [|reflexivity]. now apply find_some in Hf as [Hf _].
Qed.

Lemma table_row_dates (cells : list (string * AkTables.cell)) (P : pystr -> Prop)
    (col d : pystr) :
  (forall p d, In p cells -> AkTables.c_date (snd p) = DateOk d -> P d) ->
  AkTables.c_date (table_row cells col) = DateOk d -> P d.
Proof.
  intros Hall Hd. destruct (table_row_cell cells col) as [Hc|(p & Hp & Hc)];
    rewrite Hc in Hd; [discriminate Hd|eauto].
Qed.

(** The plan of 2015 pays 43.74 / 10 a share. *)
Lemma fetch_dividends_fallback_amounts_example :
  {| ex_date := utf8 "2015-07-17"; cash_per_share := (43.74 / 10)%float |}
    ∈ AkTables.fetch_dividends_ths_fallback (RT := plain_runtime) (TB := sina_tables)
        example_code.
Proof.
  apply (proj1 (proj2 (fetch_dividends_fallback_amounts (RT := plain_runtime)
                         (TB := sina_tables) example_code dividend_detail plan_2015
                         (utf8 "2015-07-17") eq_refl (list_elem_of_here _ _)
                         ltac:(vm_compute; reflexivity) ltac:(vm_compute; reflexivity))));
    vm_compute; reflexivity.
Defined.

(** The two plans give two events, in the order of their dates. *)
Lemma get_dividends_dates_example :
  map ex_date (AkTables.get_dividends (RT := plain_runtime) (TB := sina_tables)
                 example_code)
  = [utf8 "2015-07-17"; utf8 "2023-06-30"]
  /\ ascending [utf8 "2015-07-17"; utf8 "2023-06-30"].
Proof.
  assert (map ex_date (AkTables.get_dividends (RT := plain_runtime)
                         (TB := sina_tables) example_code)
          = [utf8 "2015-07-17"; utf8 "2023-06-30"]) as H by (vm_compute; reflexivity).
  split; [exact H|]. rewrite <- H.
  apply (get_dividends_dates (RT := plain_runtime) (TB := sina_tables) example_code).
Defined.

(** The bonus share of 2015. *)
Lemma sum_additional_shares_spec_example :
  AkTables.sum_additional_shares_in_interval (TB := sina_tables)
    example_code (utf8 "2015-01-05") (utf8 "2015-12-31")
  = ((0 + (0 + 1 / 10))%float, 1, utf8 "2015-07-17: 送0.1000股/股, 转0.0000股/股")
  /\ float_nonneg (0 + (0 + 1 / 10))%float.
Proof.
  assert (AkTables.sum_additional_shares_in_interval
            (TB := sina_tables) example_code (utf8 "2015-01-05") (utf8 "2015-12-31")
          = ((0 + (0 + 1 / 10))%float, 1,
             utf8 "2015-07-17: 送0.1000股/股, 转0.0000股/股")) as H
    by (vm_compute; reflexivity).
  split; [exact H|].
  pose proof (sum_additional_shares_spec (TB := sina_tables)
                example_code (utf8 "2015-01-05") (utf8 "2015-12-31")) as Hs.
  cbv zeta in Hs. rewrite H in Hs. exact (proj1 Hs).
Defined.

(** Nothing is counted in January 2024. *)
Lemma sum_additional_shares_outside_example :
  AkTables.sum_additional_shares_in_interval (TB := sina_tables)
    example_code (utf8 "2024-01-02") (utf8 "2024-01-31") = (0%float, 0, []).
Proof.
  apply (proj1 (sum_additional_shares_outside (TB := sina_tables)
                  example_code (utf8 "2024-01-02") (utf8 "2024-01-31"))).
  - intros row col d Hrow Hd [Hlt _].
    assert (str_lt d (utf8 "2024-01-02")) as Hdl.
    { change (table_rows _) with [plan_2015; plan_2023] in Hrow.
      apply list_elem_of_In in Hrow. cbv [In] in Hrow.
      destruct Hrow as [<-|[<-|[]]]; revert Hd;
        apply (table_row_dates _ (fun d => str_lt d (utf8 "2024-01-02")));
        intros p d' Hp Hd'; cbv [In] in Hp;
        repeat (destruct Hp as [<-|Hp]; [vm_compute in Hd'; injection Hd' as <-;
                                         vm_compute; reflexivity|]);
        destruct Hp. }
    apply (str_lt_irrefl d). eapply str_lt_trans; eauto.
  - intros row col d Hrow. vm_compute in Hrow. now apply elem_of_nil in Hrow.
Defined.

(** ** The comparison script *)

Section Digits.
Context `{RT : Runtime}.

Lemma digit_char (c : Z) :
  48 <= c <= 57 -> char_isdigit c = true /\ isspace c = false /\ c <> 43 /\ c <> 45.
Proof.
  intros Hc.
  assert (c = 48 \/ c = 49 \/ c = 50 \/ c = 51 \/ c = 52 \/ c = 53 \/ c = 54
          \/ c = 55 \/ c = 56 \/ c = 57) as H by lia.
  repeat (destruct H as [->|H]; [repeat split; (reflexivity || lia)|]).
  subst c. repeat split; (reflexivity || lia).
Qed.

Lemma digits_isdigit (s : pystr) :
  Forall (fun c => 48 <= c <= 57) s -> s <> [] -> isdigit s = true.
Proof.
  intros Hs Hne. destruct s as [|c s]; [congruence|].
  unfold isdigit. apply forallb_forall. intros x Hx.
  rewrite Forall_forall in Hs. apply digit_char, Hs. now apply list_elem_of_In.
Qed.

Lemma digits_strip (s : pystr) : Forall (fun c => 48 <= c <= 57) s -> strip s = s.
Proof.
  intros Hs. unfold strip.
  assert (forall l, Forall (fun c => 48 <= c <= 57) l -> lstrip l = l) as Hl.
  { intros l Hl. apply lstrip_id. destruct l as [|c l]; [exact I|].
    apply Forall_cons in Hl as [Hc _]. now apply digit_char. }
  rewrite (Hl s Hs), Hl, rev_involutive; [reflexivity|].
  apply Forall_forall. intros x Hx. rewrite Forall_forall in Hs.
  apply Hs. now apply elem_of_rev.
Qed.

Lemma zfill_digits (s : pystr) :
  digits_code s ->
  zfill s = repeat 48 (6 - length s) ++ s
  /\ Forall (fun c => 48 <= c <= 57) (zfill s) /\ length (zfill s) = 6%nat.
Proof.
  intros [Hlen Hs].
  assert (zfill s = repeat 48 (6 - length s) ++ s) as Hz.
  { unfold zfill, zfill6. destruct s as [|c s']; [reflexivity|].
    apply Forall_cons in Hs as [Hc _]. apply digit_char in Hc as (_ & _ & H43 & H45).
    cbn [has_sign]. apply Z.eqb_neq in H43, H45. now rewrite H43, H45. }
  split; [exact Hz|]. split.
  - rewrite Hz. apply Forall_app. split; [|exact Hs].
    apply Forall_forall. intros x Hx. apply list_elem_of_In, repeat_spec in Hx. lia.
  - rewrite zfill_length. lia.
Qed.

End Digits.

Section ComparingPaths.
Context `{RT : Runtime} `{PV : Provider}.
Import GuiApp Compare.

Lemma resolve_digits (s : pystr) (name_to_code : pydict) :
  digits_code s -> resolve_to_code (zfill s) name_to_code = Some (zfill s).
Proof.
  intros Hs. destruct (zfill_digits s Hs) as (_ & Hd & Hlen).
  unfold resolve_to_code. cbv zeta. rewrite (digits_strip _ Hd).
  destruct (zfill s) as [|c z] eqn:Hz; [discriminate Hlen|].
  rewrite digits_isdigit by (exact Hd || discriminate).
  rewrite Hlen. cbn [Nat.leb andb]. f_equal.
  rewrite <- Hz. apply zfill_long. rewrite <- Hz in Hlen. lia.
Qed.

Lemma gui_rows_of_digits (stocks : list pystr) (start : pystr) (end_ : option pystr) :
  Forall digits_code stocks ->
  compute_for_codes (map zfill stocks) start end_
  = map (fun s => code_row start end_ (zfill s, zfill s)) stocks.
Proof.
  intros Hst. unfold compute_for_codes. cbv zeta.
  assert (resolve_items (fst build_code_maps) (map zfill stocks)
          = map (fun s => (zfill s, Some (zfill s))) stocks) as ->.
  { unfold resolve_items. rewrite map_map. apply map_ext_in. intros s Hs.
    rewrite Forall_forall in Hst. apply list_elem_of_In, Hst in Hs.
    destruct (zfill_digits s Hs) as (_ & Hd & Hlen). cbv zeta.
    rewrite (digits_strip _ Hd), (resolve_digits s _ Hs).
    destruct (zfill s); [discriminate Hlen|reflexivity]. }
  assert (unresolved_items (map (fun s => (zfill s, Some (zfill s))) stocks) = []) as ->.
  { unfold unresolved_items. induction stocks as [|s l IH]; [reflexivity|].
    cbn. apply IH. now apply Forall_cons in Hst as [_ Hst]. }
  assert (normalized (map (fun s => (zfill s, Some (zfill s))) stocks)
          = map (fun s => (zfill s, zfill s)) stocks) as ->.
  { unfold normalized. clear Hst. induction stocks as [|s l IH]; [reflexivity|].
    cbn. now rewrite <- IH. }
  cbn [map app]. now rewrite map_map.
Qed.

Lemma run_rows (cfg : AppConfig) (rows : list row) :
  run cfg = Ok rows -> rows = cli_rows cfg.
Proof.
  unfold run. destruct (stocks cfg); [discriminate|].
  destruct (forallb console_line_ok _); [|discriminate].
  destruct (rows_to_csv _); [|discriminate]. cbn. now intros [= <-].
Qed.

Lemma stock_row_computed (cfg : AppConfig) (s : pystr) :
  get (stock_row cfg s) "error" = VNone ->
  GuiApp.code_row (start_date cfg) (end_date cfg) (zfill s, zfill s) = stock_row cfg s.
Proof.
  intros He.
  destruct (derive_trade_window_from_prices (zfill s) (start_date cfg) (end_date cfg))
    as [[sd ed]|e] eqn:Hd.
  - destruct (compute_interval_total_return (zfill s) sd ed) as [res|e] eqn:Hc.
    + eapply computed_rows_agree; eauto.
    + unfold stock_row in He. rewrite Hd, Hc in He.
      now rewrite (proj1 (proj2 (proj2 (cli_error_row_fields _ _ _ _ _)))) in He.
  - unfold stock_row in He. rewrite Hd in He.
    now rewrite (proj1 (proj2 (proj2 (cli_error_row_fields _ _ _ _ _)))) in He.
Qed.

(** The comparison script reports no difference when every configured stock
    is a code of at most six digits, the CLI run returns, every stock is
    computed on it, and the numbers of its rows are finite. *)
Theorem main_reports_nothing (cfg : AppConfig) (rows : list row) :
  Forall digits_code (stocks cfg) ->
  run cfg = Ok rows ->
  Forall (fun r => get r "error" = VNone) rows ->
  Forall plain_row rows ->
  main cfg = Ok [].
Proof.
  intros Hst Hrun Herr Hplain. unfold main. cbv zeta.
  rewrite Hrun. cbn [mbind outcome_bind]. f_equal.
  rewrite gui_rows_of_digits by exact Hst.
  pose proof (run_rows cfg rows Hrun) as Hrows. unfold cli_rows in Hrows.
  assert (map (fun s => code_row (start_date cfg) (end_date cfg) (zfill s, zfill s))
            (stocks cfg) = rows) as ->.
  { rewrite Hrows. apply map_ext_in. intros s Hs. apply stock_row_computed.
    rewrite Forall_forall in Herr. apply Herr. rewrite Hrows.
    apply list_elem_of_In, in_map, Hs. }
  now apply plain_rows_same.
Qed.

Lemma row_of_same (rows : list row) (code : pystr) (r : row) :
  r ∈ rows -> row_code r = code ->
  (forall r', r' ∈ rows -> row_code r' = code -> r' = r) ->
  row_of rows code = Some r.
Proof.
  intros Hr Hc Hall. destruct (row_of rows code) as [r'|] eqn:Hof.
  - apply row_of_Some in Hof as [Hin Hc']. f_equal. now apply Hall.
  - apply row_of_None in Hof. exfalso. apply Hof.
    apply list_elem_of_fmap. exists r. auto.
Qed.

Lemma stock_row_zfill (cfg : AppConfig) (s s' : pystr) :
  zfill s' = zfill s -> stock_row cfg s' = stock_row cfg s.
Proof. intros Hz. unfold stock_row. now rewrite Hz. Qed.

Lemma compare_code_in (gui_rows cli_rows : list row) (code : pystr) (d : diff) :
  code ∈ map row_code gui_rows ++ map row_code cli_rows ->
  d ∈ compare_code gui_rows cli_rows code ->
  d ∈ compare_rows gui_rows cli_rows.
Proof.
  intros Hc Hd. unfold compare_rows. cbv zeta.
  apply list_elem_of_In, in_flat_map. exists code. split.
  - now apply list_elem_of_In, sorted_set_elem.
  - now apply list_elem_of_In.
Qed.

(** The comparison script reports every stock whose computation fails after
    its window was derived: the CLI keeps the two trade dates in the error
    row and has no [bonus_allot_desc], the desktop row holds [None] and an
    empty text. *)
Theorem main_reports_failed_stock (cfg : AppConfig) (rows : list row)
    (s sd ed e : pystr) :
  Forall digits_code (stocks cfg) ->
  run cfg = Ok rows ->
  s ∈ stocks cfg ->
  derive_trade_window_from_prices (zfill s) (start_date cfg) (end_date cfg)
    = Ok (sd, ed) ->
  compute_interval_total_return (zfill s) sd ed = Raise e ->
  exists diffs,
    main cfg = Ok diffs
    /\ FieldDiffers (zfill s) "start_trade_date" VNone (VStr sd) ∈ diffs
    /\ FieldDiffers (zfill s) "end_trade_date" VNone (VStr ed) ∈ diffs
    /\ FieldDiffers (zfill s) "bonus_allot_desc" (VStr []) VNone ∈ diffs.
Proof.
  intros Hst Hrun Hs Hd Hc. unfold main. cbv zeta.
  rewrite Hrun. cbn [mbind outcome_bind]. eexists. split; [reflexivity|].
  rewrite gui_rows_of_digits by exact Hst.
  pose proof (run_rows cfg rows Hrun) as ->. unfold cli_rows.
  set (gui_rows := map _ (stocks cfg)).
  set (cli := map (stock_row cfg) (stocks cfg)).
  set (name := get_stock_name (zfill s)).
  assert (code_row (start_date cfg) (end_date cfg) (zfill s, zfill s)
          = GuiApp.error_row name (zfill s) e) as Hg.
  { unfold code_row, computed_row. cbn [fst]. rewrite Hd. cbn [mbind outcome_bind].
    rewrite Hc. reflexivity. }
  assert (stock_row cfg s = Cli.error_row name (zfill s) (Some sd) (Some ed) e) as Hcl.
  { unfold stock_row. cbv zeta. now rewrite Hd, Hc. }
  assert (row_of gui_rows (zfill s) = Some (GuiApp.error_row name (zfill s) e)) as Hgr.
  { apply row_of_same.
    - rewrite <- Hg. unfold gui_rows. apply list_elem_of_fmap. exists s. auto.
    - unfold row_code. now rewrite (proj1 (proj2 (gui_error_row_fields _ _ _))).
    - intros r' Hr' Hcode. unfold gui_rows in Hr'.
      apply list_elem_of_fmap in Hr' as (s' & -> & Hs').
      unfold row_code in Hcode.
      rewrite (proj1 (code_row_name_code _ _ _)) in Hcode. cbn [fst] in Hcode.
      rewrite Hcode. exact Hg. }
  assert (row_of cli (zfill s)
          = Some (Cli.error_row name (zfill s) (Some sd) (Some ed) e)) as Hcr.
  { apply row_of_same.
    - rewrite <- Hcl. unfold cli. apply list_elem_of_fmap. exists s. auto.
    - unfold row_code. now rewrite (proj1 (proj2 (cli_error_row_fields _ _ _ _ _))).
    - intros r' Hr' Hcode. unfold cli in Hr'.
      apply list_elem_of_fmap in Hr' as (s' & -> & Hs').
      unfold row_code in Hcode.
      rewrite (proj2 (stock_row_name_code _ _)) in Hcode.
      rewrite (stock_row_zfill cfg s s' Hcode). exact Hcl. }
  assert (zfill s ∈ map row_code gui_rows ++ map row_code cli) as Hin.
  { apply elem_of_app. right. apply list_elem_of_fmap. exists (stock_row cfg s).
    split.
    - unfold row_code. now rewrite (proj2 (stock_row_name_code _ _)).
    - unfold cli. apply list_elem_of_fmap. exists s. auto. }
  assert (compare_code gui_rows cli (zfill s)
          = [FieldDiffers (zfill s) "start_trade_date" VNone (VStr sd);
             FieldDiffers (zfill s) "end_trade_date" VNone (VStr ed);
             FieldDiffers (zfill s) "bonus_allot_desc" (VStr []) VNone]) as Hcmp.
  { unfold compare_code. rewrite Hgr, Hcr. vm_compute.
    rewrite !str_compare_refl. reflexivity. }
  repeat split; apply (compare_code_in _ _ _ _ Hin); rewrite Hcmp;
    repeat constructor.
Qed.

End ComparingPaths.

(** ** The comparison script on reference data *)

Ltac digit_codes :=
  cbv [stocks]; eval_utf8;
  repeat (apply List.Forall_cons;
          [split; [cbn [length]; lia
                  |repeat (apply List.Forall_cons; [lia|]); apply List.Forall_nil]|]);
  apply List.Forall_nil.

(** The comparison over the 365-day window reports nothing. *)
Lemma main_reports_nothing_example :
  Compare.main (RT := unit_power_runtime) (PV := year_provider) one_year = Ok [].
Proof.
  apply (main_reports_nothing (RT := unit_power_runtime) (PV := year_provider)
           one_year [one_year_row]).
  - unfold one_year. digit_codes.
  - apply (run_returns (RT := unit_power_runtime) (PV := year_provider) one_year []);
      [discriminate|vm_compute; reflexivity|reflexivity].
  - constructor; [vm_compute; reflexivity|constructor].
  - constructor; [|constructor].
    split; repeat (constructor; [vm_compute; exact I|]); constructor.
Defined.

(** The comparison over January 2024 reports the stock without closes. *)
Lemma main_reports_failed_stock_example :
  exists diffs,
    Compare.main (RT := plain_runtime) (PV := half_failing_provider) january = Ok diffs
    /\ Compare.FieldDiffers (utf8 "000001") "start_trade_date"
         VNone (VStr (utf8 "2024-01-02")) ∈ diffs.
Proof.
  destruct (main_reports_failed_stock (RT := plain_runtime) (PV := half_failing_provider)
              january [january_row "600519"; january_row "000001"]
              (utf8 "000001") (utf8 "2024-01-02") (utf8 "2024-01-31")
              (utf8 "No price data for 000001 on 2024-01-02"))
    as (diffs & Hmain & Hd & _).
  - unfold january. digit_codes.
  - apply (run_returns (RT := plain_runtime) (PV := half_failing_provider) january []);
      [discriminate|vm_compute; reflexivity|reflexivity].
  - right. left.
  - vm_compute. reflexivity.
  - vm_compute. reflexivity.
  - exists diffs. split; [exact Hmain|exact Hd].
Defined.

(** ** The result of an interval on the tables *)

Lemma ascending_NoDup (l : list pystr) : ascending l -> NoDup l.
Proof.
  induction 1 as [|x l Hl IH Hx]; constructor; [|exact IH].
  intros Hin. rewrite Forall_forall in Hx. apply (str_lt_irrefl x). now apply Hx.
Qed.

Lemma sorted_set_length (l : list pystr) : (length (sorted_set l) <= length l)%nat.
Proof.
  induction l as [|d l IH]; [reflexivity|]. cbn [sorted_set foldr length].
  fold (sorted_set l).
  assert (forall x s, (length (insert_sorted x s) <= S (length s))%nat) as Hins.
  { intros x s. induction s as [|y s IHs]; cbn [insert_sorted length]; [lia|].
    destruct (str_compare x y); cbn [length]; lia. }
  specialize (Hins d (sorted_set l)). lia.
Qed.

Section ResultOnTables.
Context `{RT : Runtime} `{TB : AkTables.Tables}.
Import AkTables.

Lemma interval_events_dates (events : list DividendEvent) (s e : pystr) :
  map ex_date (interval_events events s e) = filter (within s e) (map ex_date events).
Proof.
  unfold interval_events. induction events as [|ev events IH]; [reflexivity|].
  cbn [map]. rewrite !filter_cons.
  destruct (decide (within s e (ex_date ev))); cbn [map]; now rewrite IH.
Qed.

Lemma dividend_count_dates (code s e : pystr) :
  snd (AkClient.sum_cash_dividends_in_interval (get_dividends code) s e)
  = Z.of_nat (length (interval_dates code s e)).
Proof.
  unfold AkClient.sum_cash_dividends_in_interval.
  rewrite sum_cash_dividends_loop_spec. cbn [snd]. f_equal.
  unfold interval_dates.
  rewrite <- group_cash_dates, <- get_dividends_group, <- interval_events_dates.
  now rewrite length_map.
Qed.

(** The result of an interval when the dividends and the additional shares
    are those of the tables: the dividend count is the number of distinct
    ex-dates within the interval, however many rows a date has; the
    additional shares are not below zero; and the description of the bonus
    shares is empty exactly when no such event is counted. *)
Theorem computed_result_from_tables (PV : Provider) (code s e : pystr)
    (res : IntervalResult) :
  compute_interval_total_return (PV := tables_provider PV) code s e = Ok res ->
  dividend_event_count res = Z.of_nat (length (interval_dates code s e))
  /\ NoDup (interval_dates code s e)
  /\ (forall d, d ∈ interval_dates code s e <->
        within s e d /\ exists ev, ev ∈ fetched_events code /\ ex_date ev = d)
  /\ dividend_event_count res <= Z.of_nat (length (fetched_events code))
  /\ float_nonneg (additional_shares_per_share res)
  /\ 0 <= additional_event_count res
  /\ (additional_event_count res = 0 <-> bonus_allot_desc res = []).
Proof.
  intros Hres. unfold compute_interval_total_return in Hres.
  destruct (get_unadjusted_close_on code s) as [sc|]; [|discriminate Hres].
  destruct (get_unadjusted_close_on code e) as [ec|]; [|discriminate Hres].
  cbn [mbind outcome_bind AkClient.get_dividends
       AkClient.sum_additional_shares_in_interval tables_provider] in Hres.
  pose proof (dividend_count_dates code s e) as Hcount.
  destruct (AkClient.sum_cash_dividends_in_interval (get_dividends code) s e)
    as [div_sum div_count]. cbn [snd] in Hcount.
  unfold sum_additional_shares_in_interval in Hres. cbv zeta in Hres.
  assert (sound_shares (allot_rows code s e (bonus_rows code s e (0%float, 0, []))))
    as Hs.
  { apply allot_rows_sound, bonus_rows_sound. unfold sound_shares.
    split; [apply float_zero_nonneg|]. repeat split; constructor. }
  destruct (allot_rows code s e _) as [[total count] notes].
  destruct Hs as (Ht & Hc & Hn & _).
  destruct (total_return_formula _ _ _ _) as [tr|]; [|discriminate Hres].
  injection Hres as <-. cbn [dividend_event_count additional_shares_per_share
    additional_event_count bonus_allot_desc].
  assert (ascending (sorted_set (map ex_date (fetched_events code)))) as Hasc
    by apply sorted_set_ascending.
  split; [exact Hcount|]. split.
  { apply ascending_NoDup. now apply ascending_filter. }
  split.
  { intros d. unfold interval_dates.
    rewrite list_elem_of_filter, sorted_set_elem, list_elem_of_fmap.
    split; intros [Hw (ev & H1 & H2)]; (split; [exact Hw|]); exists ev; auto. }
  split.
  { rewrite Hcount. apply Nat2Z.inj_le. unfold interval_dates.
    etransitivity; [apply length_filter|].
    etransitivity; [apply sorted_set_length|]. now rewrite length_map. }
  split; [exact Ht|]. split; [lia|]. split.
  - intros H0. assert (notes = []) as -> by (destruct notes; [reflexivity|cbn in Hc; lia]).
    reflexivity.
  - intros Hd. apply join_nil in Hd; [|exact Hn]. subst notes. exact Hc.
Qed.

End ResultOnTables.

(** The worked example on the tables: one ex-date within the interval. *)
Lemma computed_result_from_tables_example :
  exists res,
    compute_interval_total_return (RT := plain_runtime)
      (PV := tables_provider (RT := plain_runtime) (TB := sina_tables) example_provider)
      example_code example_start example_end = Ok res
    /\ dividend_event_count res = 1
    /\ interval_dates (RT := plain_runtime) (TB := sina_tables)
         example_code example_start example_end = [utf8 "2023-06-30"].
Proof.
  destruct (compute_interval_total_return (RT := plain_runtime)
              (PV := tables_provider (RT := plain_runtime) (TB := sina_tables)
                       example_provider)
              example_code example_start example_end) as [res|msg] eqn:Hres;
    [|vm_compute in Hres; discriminate Hres].
  exists res. split; [reflexivity|].
  assert (interval_dates (RT := plain_runtime) (TB := sina_tables)
            example_code example_start example_end = [utf8 "2023-06-30"]) as Hd
    by (vm_compute; reflexivity).
  split; [|exact Hd].
  destruct (computed_result_from_tables (RT := plain_runtime) (TB := sina_tables)
              example_provider example_code example_start example_end res Hres)
    as (Hc & _).
  rewrite Hc, Hd. reflexivity.
Defined.

(** ** Items, codes and comparisons on reference data *)

(** A tab inside an item stays: "a<TAB>b" is one item. *)
Lemma parse_codes_input_items_example :
  WebApp.parse_codes_input (RT := plain_runtime) [97; 9; 98] = [[97; 9; 98]].
Proof.
  apply (proj2 (proj2 (parse_codes_input_items (RT := plain_runtime) [97; 9; 98])));
    [discriminate|reflexivity|..];
    intros Hin; apply list_elem_of_In in Hin; cbv [In] in Hin; lia.
Defined.

(** "600519 1 600519" gives 600519 before 000001, each once. *)
Lemma parse_input_to_codes_spec_example :
  GuiInput.parse_input_to_codes (RT := plain_runtime) (utf8 "600519 1 600519") []
  = [utf8 "600519"; utf8 "000001"]
  /\ NoDup [utf8 "600519"; utf8 "000001"]
  /\ exists p q,
       [utf8 "600519"; utf8 "000001"; utf8 "600519"] = p ++ utf8 "600519" :: q
       /\ (utf8 "000001" ∉ p) /\ utf8 "000001" ∈ q.
Proof.
  assert (GuiInput.parse_input_to_codes (RT := plain_runtime)
            (utf8 "600519 1 600519") []
          = [utf8 "600519"; utf8 "000001"]) as Hp by (vm_compute; reflexivity).
  pose proof (parse_input_to_codes_spec (RT := plain_runtime)
                (utf8 "600519 1 600519") []) as H.
  cbv zeta in H. rewrite Hp in H. destruct H as (Hnd & _ & _ & Hord & _).
  split; [exact Hp|]. split; [exact Hnd|].
  destruct (Hord (utf8 "600519") (utf8 "000001") [] [] [] eq_refl)
    as (p & q & Hf & _ & H2 & Hq).
  exists p, q. split; [|split; assumption].
  rewrite <- Hf. vm_compute. reflexivity.
Defined.

(** Of the two rows of [january], the comparison with the first row alone
    reports the code of the second as missing. *)
Lemma compare_rows_report_example :
  Compare.GuiMissing (utf8 "000001")
    ∈ Compare.compare_rows (RT := plain_runtime)
        [january_row "600519"] [january_row "600519"; january_row "000001"].
Proof.
  assert (forall s, exists code, get (january_row s) "code" = VStr code) as Hcode.
  { intros s. eexists. apply (proj2 (stock_row_name_code (RT := plain_runtime)
                                       (PV := half_failing_provider) january _)). }
  apply (proj1 (proj2 (compare_rows_report (RT := plain_runtime)
                         [january_row "600519"]
                         [january_row "600519"; january_row "000001"]
                         ltac:(repeat constructor; apply Hcode)
                         ltac:(repeat constructor; apply Hcode)))).
  split.
  - exists (january_row "000001"). split; [right; left|vm_compute; reflexivity].
  - intros (r & Hr & Hc). apply list_elem_of_singleton in Hr. subst r.
    vm_compute in Hc. discriminate Hc.
Defined.

(** The row of the 365-day window compares equal to itself; with a NaN as
    its total return it does not. *)
Lemma compare_rows_with_itself_example :
  Compare.compare_rows (RT := unit_power_runtime) [one_year_row] [one_year_row] = []
  /\ Compare.compare_rows (RT := unit_power_runtime)
       [<["total_return" := VFloat nan]> one_year_row]
       [<["total_return" := VFloat nan]> one_year_row] <> [].
Proof.
  destruct (compare_rows_with_itself (RT := unit_power_runtime)) as [Hsame Hnan].
  split.
  - apply Hsame.
    + constructor; [|constructor]. eexists. vm_compute. reflexivity.
    + constructor; [|constructor].
      split; repeat (constructor; [vm_compute; exact I|]); constructor.
  - apply (Hnan _ nan); [vm_compute; reflexivity|].
    vm_compute. intros H. exact H.
Defined.
